(** * Stream protocol, side-channel buffer, reassembly and reconstruction

    A shallow embedding of [shared/call-completion-api-server.ts] (the
    bundled stream library with [callCompletionApi]) and the properties its
    specification states about it.

    Conventions of the embedding.
    - A JavaScript string is a [string]: the sequence of its UTF-8 bytes.
      [TextEncoder.encode] and [TextDecoder.decode] are then the identity,
      and a byte chunk ([Uint8Array]) is a [string] as well.
    - A JSON value is a [json]; numbers are the integers.  [undefined] is
      [None] in the type [js = option json].
    - A function that can throw returns a [result]. *)

From Stdlib Require Import String Ascii List ZArith Bool Arith Lia.
From Stdlib Require Import DecimalString DecimalZ DecimalPos DecimalFacts.
Import ListNotations.
Local Open Scope list_scope.
Local Open Scope string_scope.

(** ** Results of fallible code *)

Inductive result (A : Type) : Type :=
| Ok (a : A)
| Err (msg : string).
Arguments Ok {A} a.
Arguments Err {A} msg.

Definition bind {A B} (r : result A) (k : A -> result B) : result B :=
  match r with
  | Ok a => k a
  | Err e => Err e
  end.

Notation "x <- r ;; k" := (bind r (fun x => k))
  (at level 61, r at next level, right associativity).

Fixpoint mapM {A B} (f : A -> result B) (l : list A) : result (list B) :=
  match l with
  | [] => Ok []
  | a :: l' => b <- f a ;; bs <- mapM f l' ;; Ok (b :: bs)
  end.

(** ** JSON values *)

#[local] Unset Elimination Schemes.
Inductive json : Type :=
| JNull
| JBool (b : bool)
| JNum (z : Z)
| JStr (s : string)
| JArr (elems : list json)
| JObj (members : list (string * json)).
#[local] Set Elimination Schemes.

(** A JavaScript value as far as this code sees one: a JSON value or
    [undefined]. *)
Definition js := option json.
Definition undefined : js := None.

Fixpoint lookup (k : string) (ms : list (string * json)) : js :=
  match ms with
  | [] => None
  | (k', v) :: ms' => if String.eqb k k' then Some v else lookup k ms'
  end.

Definition has_member (k : string) (ms : list (string * json)) : bool :=
  match lookup k ms with Some _ => true | None => false end.

(** [obj_set ms k v]: the assignment [o[k] = v] on the own properties of an
    object, in enumeration order. *)
Fixpoint obj_set (ms : list (string * json)) (k : string) (v : json)
  : list (string * json) :=
  match ms with
  | [] => [(k, v)]
  | (k', v') :: ms' =>
      if String.eqb k k' then (k', v) :: ms' else (k', v') :: obj_set ms' k v
  end.

Fixpoint nodup_keys (ms : list (string * json)) : bool :=
  match ms with
  | [] => true
  | (k, _) :: ms' => negb (has_member k ms') && nodup_keys ms'
  end.

(** An object has each property once. *)
Fixpoint json_wf (v : json) : bool :=
  match v with
  | JArr l => forallb json_wf l
  | JObj ms => nodup_keys ms && forallb (fun kv => json_wf (snd kv)) ms
  | _ => true
  end.

Fixpoint json_size (v : json) : nat :=
  match v with
  | JArr l => S (fold_right (fun x n => S (json_size x + n)) 0 l)
  | JObj ms => S (fold_right (fun kv n => S (json_size (snd kv) + n)) 0 ms)
  | _ => 1
  end.

(** ** The operators of the validators *)

(** [typeof v] *)
Definition typeof (v : js) : string :=
  match v with
  | None => "undefined"
  | Some JNull => "object"
  | Some (JBool _) => "boolean"
  | Some (JNum _) => "number"
  | Some (JStr _) => "string"
  | Some (JArr _) => "object"
  | Some (JObj _) => "object"
  end.

(** [v == null] *)
Definition eq_null (v : js) : bool :=
  match v with
  | None | Some JNull => true
  | _ => false
  end.

(** [k in v], for the property names this code asks for (none of them an
    array index or ["length"]); the code guards every use by
    [typeof v === "object"] and [v != null]. *)
Definition js_in (k : string) (v : js) : bool :=
  match v with
  | Some (JObj ms) => has_member k ms
  | _ => false
  end.

(** [v.k], same property names. *)
Definition prop (v : js) (k : string) : js :=
  match v with
  | Some (JObj ms) => lookup k ms
  | _ => None
  end.

(** [Array.isArray v] *)
Definition isArray (v : js) : bool :=
  match v with
  | Some (JArr _) => true
  | _ => false
  end.

(** [v === "s"] *)
Definition eq_str (v : js) (s : string) : bool :=
  match v with
  | Some (JStr s') => String.eqb s' s
  | _ => false
  end.

(** Truthiness of a value ([Boolean(v)]). *)
Definition truthy (v : js) : bool :=
  match v with
  | None | Some JNull => false
  | Some (JBool b) => b
  | Some (JNum z) => negb (Z.eqb z 0)
  | Some (JStr s) => negb (String.eqb s "")
  | Some (JArr _) | Some (JObj _) => true
  end.

(** ** Characters and strings *)

Definition dquote : ascii := "034"%char.
Definition backslash : ascii := "092"%char.
Definition NEWLINE : ascii := "010"%char.

(** [dq s] is [s] with every apostrophe turned into a double quote; it only
    serves to write the JSON texts of the examples. *)
Fixpoint dq (s : string) : string :=
  match s with
  | EmptyString => EmptyString
  | String c r => String (if Ascii.eqb c "'" then dquote else c) (dq r)
  end.

Definition is_ws (c : ascii) : bool :=
  Ascii.eqb c " " || Ascii.eqb c "009" || Ascii.eqb c "010" || Ascii.eqb c "013".

Definition is_digit (c : ascii) : bool :=
  ((48 <=? nat_of_ascii c) && (nat_of_ascii c <=? 57))%nat.

Definition starts_with_digit (s : string) : bool :=
  match s with
  | String c _ => is_digit c
  | EmptyString => false
  end.

Fixpoint skip_ws (s : string) : string :=
  match s with
  | String c r => if is_ws c then skip_ws r else s
  | EmptyString => s
  end.

Fixpoint strip_prefix (p s : string) : option string :=
  match p, s with
  | EmptyString, _ => Some s
  | String a p', String b s' => if Ascii.eqb a b then strip_prefix p' s' else None
  | String _ _, EmptyString => None
  end.

(** [s.startsWith(p)] *)
Definition startsWith (s p : string) : bool :=
  match strip_prefix p s with Some _ => true | None => false end.

Fixpoint join_comma (l : list string) : string :=
  match l with
  | [] => ""
  | [x] => x
  | x :: l' => x ++ "," ++ join_comma l'
  end.

(** ** [JSON.stringify]

    The compact text of a value, as the host's [JSON.stringify] writes it:
    no white space, strings quoted with the two-character escapes and
    [\u00xx] for the other control characters. *)

Definition hex_digit (n : nat) : ascii :=
  ascii_of_nat (if (n <? 10)%nat then 48 + n else 87 + n).

Definition escape_char (c : ascii) : string :=
  if Ascii.eqb c dquote then String backslash (String dquote "")
  else if Ascii.eqb c backslash then String backslash (String backslash "")
  else if Ascii.eqb c "008" then String backslash "b"
  else if Ascii.eqb c "012" then String backslash "f"
  else if Ascii.eqb c "010" then String backslash "n"
  else if Ascii.eqb c "013" then String backslash "r"
  else if Ascii.eqb c "009" then String backslash "t"
  else if (nat_of_ascii c <? 32)%nat then
    String backslash
      (String "u" (String "0" (String "0"
         (String (hex_digit (nat_of_ascii c / 16))
            (String (hex_digit (nat_of_ascii c mod 16)) "")))))
  else String c "".

Fixpoint escape (s : string) : string :=
  match s with
  | EmptyString => ""
  | String c r => escape_char c ++ escape r
  end.

Definition quote (s : string) : string :=
  String dquote (escape s ++ String dquote "").

Definition print_int (z : Z) : string :=
  NilZero.string_of_int (Z.to_int z).

Fixpoint stringify (v : json) : string :=
  match v with
  | JNull => "null"
  | JBool true => "true"
  | JBool false => "false"
  | JNum z => print_int z
  | JStr s => quote s
  | JArr l => "[" ++ join_comma (map stringify l) ++ "]"
  | JObj ms =>
      "{" ++ join_comma
               (map (fun kv => quote (fst kv) ++ ":" ++ stringify (snd kv)) ms)
          ++ "}"
  end.

Definition JSON_stringify := stringify.

(** ** [JSON.parse]

    A recursive-descent reader of JSON texts.  Fractions, exponents and
    [\u] escapes above U+007F are outside the model: the reader fails on
    them. *)

Definition hex_val (c : ascii) : option nat :=
  let n := nat_of_ascii c in
  if ((48 <=? n) && (n <=? 57))%nat then Some (n - 48)
  else if ((97 <=? n) && (n <=? 102))%nat then Some (n - 87)
  else if ((65 <=? n) && (n <=? 70))%nat then Some (n - 55)
  else None.

Definition hex4 (a b c d : ascii) : option nat :=
  match hex_val a, hex_val b, hex_val c, hex_val d with
  | Some x, Some y, Some z, Some w => Some (((x * 16 + y) * 16 + z) * 16 + w)
  | _, _, _, _ => None
  end.

Definition cons_char (c : ascii) (r : option (string * string))
  : option (string * string) :=
  match r with
  | Some (s, rest) => Some (String c s, rest)
  | None => None
  end.

(** The characters of a string up to its closing quote, escapes decoded. *)
Fixpoint parse_string_body (s : string) : option (string * string) :=
  match s with
  | EmptyString => None
  | String c r =>
      if Ascii.eqb c dquote then Some ("", r)
      else if Ascii.eqb c backslash then
        match r with
        | String e r' =>
            if Ascii.eqb e dquote then cons_char dquote (parse_string_body r')
            else if Ascii.eqb e backslash then cons_char backslash (parse_string_body r')
            else if Ascii.eqb e "/" then cons_char "/" (parse_string_body r')
            else if Ascii.eqb e "b" then cons_char "008" (parse_string_body r')
            else if Ascii.eqb e "f" then cons_char "012" (parse_string_body r')
            else if Ascii.eqb e "n" then cons_char "010" (parse_string_body r')
            else if Ascii.eqb e "r" then cons_char "013" (parse_string_body r')
            else if Ascii.eqb e "t" then cons_char "009" (parse_string_body r')
            else if Ascii.eqb e "u" then
              match r' with
              | String h1 (String h2 (String h3 (String h4 r''))) =>
                  match hex4 h1 h2 h3 h4 with
                  | Some n =>
                      if (n <? 128)%nat
                      then cons_char (ascii_of_nat n) (parse_string_body r'')
                      else None
                  | None => None
                  end
              | _ => None
              end
            else None
        | EmptyString => None
        end
      else if (nat_of_ascii c <? 32)%nat then None
      else cons_char c (parse_string_body r)
  end.

Fixpoint span_digits (s : string) : string * string :=
  match s with
  | String c r =>
      if is_digit c
      then let (d, r') := span_digits r in (String c d, r')
      else ("", s)
  | EmptyString => ("", "")
  end.

(** An unsigned integer literal: digits, no leading zero, no fraction or
    exponent after it. *)
Definition parse_nat_lit (s : string) : option (Decimal.uint * string) :=
  let (ds, rest) := span_digits s in
  match ds with
  | EmptyString => None
  | String d ds' =>
      if Ascii.eqb d "0" && negb (String.eqb ds' "") then None
      else if startsWith rest "." || startsWith rest "e" || startsWith rest "E"
      then None
      else match NilEmpty.uint_of_string ds with
           | Some u => Some (u, rest)
           | None => None
           end
  end.

Definition parse_number (s : string) : option (json * string) :=
  match s with
  | String c r =>
      if Ascii.eqb c "-" then
        match parse_nat_lit r with
        | Some (u, rest) => Some (JNum (Z.of_int (Decimal.Neg u)), rest)
        | None => None
        end
      else
        match parse_nat_lit s with
        | Some (u, rest) => Some (JNum (Z.of_int (Decimal.Pos u)), rest)
        | None => None
        end
  | EmptyString => None
  end.

Definition parse_literal (lit : string) (v : json) (s : string)
  : option (json * string) :=
  match strip_prefix lit s with
  | Some rest => Some (v, rest)
  | None => None
  end.

(** Duplicate names in an object text: the last value wins, at the place of
    the first. *)
Definition members_to_object (ms : list (string * json)) : list (string * json) :=
  fold_left (fun acc kv => obj_set acc (fst kv) (snd kv)) ms [].

Fixpoint parse_value (fuel : nat) (s : string) {struct fuel}
  : option (json * string) :=
  match fuel with
  | O => None
  | S f =>
      match skip_ws s with
      | EmptyString => None
      | String c r =>
          if Ascii.eqb c dquote then
            match parse_string_body r with
            | Some (str, r') => Some (JStr str, r')
            | None => None
            end
          else if Ascii.eqb c "[" then
            match skip_ws r with
            | String c' r' =>
                if Ascii.eqb c' "]" then Some (JArr [], r')
                else match parse_elems f r with
                     | Some (l, r'') => Some (JArr l, r'')
                     | None => None
                     end
            | EmptyString => None
            end
          else if Ascii.eqb c "{" then
            match skip_ws r with
            | String c' r' =>
                if Ascii.eqb c' "}" then Some (JObj [], r')
                else match parse_members f r with
                     | Some (ms, r'') => Some (JObj (members_to_object ms), r'')
                     | None => None
                     end
            | EmptyString => None
            end
          else if Ascii.eqb c "n" then parse_literal "ull" JNull r
          else if Ascii.eqb c "t" then parse_literal "rue" (JBool true) r
          else if Ascii.eqb c "f" then parse_literal "alse" (JBool false) r
          else parse_number (String c r)
      end
  end

with parse_elems (fuel : nat) (s : string) {struct fuel}
  : option (list json * string) :=
  match fuel with
  | O => None
  | S f =>
      match parse_value f s with
      | Some (v, r) =>
          match skip_ws r with
          | String c r' =>
              if Ascii.eqb c "," then
                match parse_elems f r' with
                | Some (vs, r'') => Some (v :: vs, r'')
                | None => None
                end
              else if Ascii.eqb c "]" then Some ([v], r')
              else None
          | EmptyString => None
          end
      | None => None
      end
  end

with parse_members (fuel : nat) (s : string) {struct fuel}
  : option (list (string * json) * string) :=
  match fuel with
  | O => None
  | S f =>
      match skip_ws s with
      | String q r =>
          if Ascii.eqb q dquote then
            match parse_string_body r with
            | Some (k, r1) =>
                match skip_ws r1 with
                | String c r2 =>
                    if Ascii.eqb c ":" then
                      match parse_value f r2 with
                      | Some (v, r3) =>
                          match skip_ws r3 with
                          | String c' r4 =>
                              if Ascii.eqb c' "," then
                                match parse_members f r4 with
                                | Some (ms, r5) => Some ((k, v) :: ms, r5)
                                | None => None
                                end
                              else if Ascii.eqb c' "}" then Some ([(k, v)], r4)
                              else None
                          | EmptyString => None
                          end
                      | None => None
                      end
                    else None
                | EmptyString => None
                end
            | None => None
            end
          else None
      | EmptyString => None
      end
  end.

(** [JSON.parse]: one value, then only white space.  A [SyntaxError] is
    [None]. *)
Definition JSON_parse (s : string) : option json :=
  match parse_value (S (String.length s)) s with
  | Some (v, rest) =>
      match skip_ws rest with
      | EmptyString => Some v
      | String _ _ => None
      end
  | None => None
  end.

Definition ex_json_1 : json :=
  JObj [("a", JNum 10); ("b", JArr [JStr (dq "x'y"); JNull; JBool true; JNum (-42)]);
        ("c", JObj []); ("d", JArr []); ("e", JStr (String "010" (String "001" "z")))].

(** What may follow a number literal in a text. *)
Definition num_follow_ok (rest : string) : bool :=
  negb (starts_with_digit rest)
  && negb (startsWith rest "." || startsWith rest "e" || startsWith rest "E").

Definition no_leading_zero (d : Decimal.uint) : Prop :=
  d <> Decimal.Nil /\ forall d', d = Decimal.D0 d' -> d' = Decimal.Nil.

Definition elems_text (l : list json) : string := join_comma (map stringify l).

Definition member_text (kv : string * json) : string :=
  quote (fst kv) ++ ":" ++ stringify (snd kv).

Definition members_text (ms : list (string * json)) : string :=
  join_comma (map member_text ms).

Definition elems_size (l : list json) : nat :=
  fold_right (fun x n => S (json_size x + n)) 0 l.

Definition members_size (ms : list (string * json)) : nat :=
  fold_right (fun kv n => S (json_size (snd kv) + n)) 0 ms.


(** ** Stream parts ([shared/stream-parts.ts]) *)

(** [s.indexOf(c)]; [None] is [-1]. *)
Fixpoint indexOf (c : ascii) (s : string) : option nat :=
  match s with
  | EmptyString => None
  | String a r =>
      if Ascii.eqb a c then Some 0
      else match indexOf c r with
           | Some i => Some (S i)
           | None => None
           end
  end.

(** [s.slice(0, n)] and [s.slice(n)], for [0 <= n]. *)
Fixpoint slice_to (n : nat) (s : string) : string :=
  match n, s with
  | S n', String a r => String a (slice_to n' r)
  | _, _ => EmptyString
  end.

Fixpoint slice_from (n : nat) (s : string) : string :=
  match n, s with
  | S n', String _ r => slice_from n' r
  | _, _ => s
  end.

(** A decoded part [{ type, value }]. *)
Record StreamPart : Type := mkPart {
  type : string;
  value : json
}.

(** An entry of the part table: [{ code, name, parse }]. *)
Record StreamPartType : Type := mkPartType {
  code : string;
  name : string;
  parse : json -> result StreamPart
}.

Definition typeof_is_not (v : js) (t : string) : bool :=
  negb (String.eqb (typeof v) t).

(** [xs.every(f)] and [xs.some(f)] on a value known to be an array. *)
Definition array_every (xs : js) (f : json -> bool) : bool :=
  match xs with
  | Some (JArr l) => forallb f l
  | _ => false
  end.

Definition array_some (xs : js) (f : json -> js) : bool :=
  match xs with
  | Some (JArr l) => existsb (fun x => truthy (f x)) l
  | _ => false
  end.

Definition textStreamPart : StreamPartType :=
  {| code := "0";
     name := "text";
     parse := fun value =>
       if typeof_is_not (Some value) "string"
       then Err (dq "'text' parts expect a string value.")
       else Ok {| type := "text"; value := value |} |}.

Definition functionCallStreamPart : StreamPartType :=
  {| code := "1";
     name := "function_call";
     parse := fun value =>
       let v := Some value in
       let fc := prop v "function_call" in
       if eq_null v
          || typeof_is_not v "object"
          || negb (js_in "function_call" v)
          || typeof_is_not fc "object"
          || eq_null fc
          || negb (js_in "name" fc)
          || negb (js_in "arguments" fc)
          || typeof_is_not (prop fc "name") "string"
          || typeof_is_not (prop fc "arguments") "string"
       then Err (dq "'function_call' parts expect an object with a 'function_call' property.")
       else Ok {| type := "function_call"; value := value |} |}.

Definition dataStreamPart : StreamPartType :=
  {| code := "2";
     name := "data";
     parse := fun value =>
       if negb (isArray (Some value))
       then Err (dq "'data' parts expect an array value.")
       else Ok {| type := "data"; value := value |} |}.

Definition errorStreamPart : StreamPartType :=
  {| code := "3";
     name := "error";
     parse := fun value =>
       if typeof_is_not (Some value) "string"
       then Err (dq "'error' parts expect a string value.")
       else Ok {| type := "error"; value := value |} |}.

(** The callback of [value.content.every] in the [assistant_message]
    validator. *)
Definition assistant_content_item_ok (item : json) : bool :=
  let i := Some item in
  let text := prop i "text" in
  negb (eq_null i)
  && String.eqb (typeof i) "object"
  && js_in "type" i
  && eq_str (prop i "type") "text"
  && js_in "text" i
  && negb (eq_null text)
  && String.eqb (typeof text) "object"
  && js_in "value" text
  && String.eqb (typeof (prop text "value")) "string".

Definition assistantMessageStreamPart : StreamPartType :=
  {| code := "4";
     name := "assistant_message";
     parse := fun value =>
       let v := Some value in
       if eq_null v
          || typeof_is_not v "object"
          || negb (js_in "id" v)
          || negb (js_in "role" v)
          || negb (js_in "content" v)
          || typeof_is_not (prop v "id") "string"
          || typeof_is_not (prop v "role") "string"
          || negb (eq_str (prop v "role") "assistant")
          || negb (isArray (prop v "content"))
          || negb (array_every (prop v "content") assistant_content_item_ok)
       then Err (dq "'assistant_message' parts expect an object with an 'id', 'role', and 'content' property.")
       else Ok {| type := "assistant_message"; value := value |} |}.

Definition assistantControlDataStreamPart : StreamPartType :=
  {| code := "5";
     name := "assistant_control_data";
     parse := fun value =>
       let v := Some value in
       if eq_null v
          || typeof_is_not v "object"
          || negb (js_in "threadId" v)
          || negb (js_in "messageId" v)
          || typeof_is_not (prop v "threadId") "string"
          || typeof_is_not (prop v "messageId") "string"
       then Err (dq "'assistant_control_data' parts expect an object with a 'threadId' and 'messageId' property.")
       else
         match prop v "threadId", prop v "messageId" with
         | Some threadId, Some messageId =>
             Ok {| type := "assistant_control_data";
                   value := JObj [("threadId", threadId); ("messageId", messageId)] |}
         | _, _ =>
             (* not reached: both are strings here *)
             Err (dq "'assistant_control_data' parts expect an object with a 'threadId' and 'messageId' property.")
         end |}.

Definition dataMessageStreamPart : StreamPartType :=
  {| code := "6";
     name := "data_message";
     parse := fun value =>
       let v := Some value in
       if eq_null v
          || typeof_is_not v "object"
          || negb (js_in "role" v)
          || negb (js_in "data" v)
          || typeof_is_not (prop v "role") "string"
          || negb (eq_str (prop v "role") "data")
       then Err (dq "'data_message' parts expect an object with a 'role' and 'data' property.")
       else Ok {| type := "data_message"; value := value |} |}.

(** The expression the callback of [value.tool_calls.some] evaluates. *)
Definition tool_call_shape_mismatch (tc : json) : bool :=
  let t := Some tc in
  let fn := prop t "function" in
  eq_null t
  || typeof_is_not t "object"
  || negb (js_in "id" t)
  || typeof_is_not (prop t "id") "string"
  || negb (js_in "type" t)
  || typeof_is_not (prop t "type") "string"
  || negb (js_in "function" t)
  || eq_null fn
  || typeof_is_not fn "object"
  || negb (js_in "arguments" fn)
  || typeof_is_not (prop fn "name") "string"
  || typeof_is_not (prop fn "arguments") "string".

(** The callback itself: a block body [(tc) => { <expression>; }] without
    [return]; it evaluates the expression and returns [undefined]. *)
Definition tool_call_some_callback (tc : json) : js :=
  let _ := tool_call_shape_mismatch tc in
  undefined.

Definition toolCallStreamPart : StreamPartType :=
  {| code := "7";
     name := "tool_calls";
     parse := fun value =>
       let v := Some value in
       let tcs := prop v "tool_calls" in
       if eq_null v
          || typeof_is_not v "object"
          || negb (js_in "tool_calls" v)
          || typeof_is_not tcs "object"
          || eq_null tcs
          || negb (isArray tcs)
          || array_some tcs tool_call_some_callback
       then Err (dq "'tool_calls' parts expect an object with a ToolCallPayload.")
       else Ok {| type := "tool_calls"; value := value |} |}.

Definition messageAnnotationsStreamPart : StreamPartType :=
  {| code := "8";
     name := "message_annotations";
     parse := fun value =>
       if negb (isArray (Some value))
       then Err (dq "'message_annotations' parts expect an array value.")
       else Ok {| type := "message_annotations"; value := value |} |}.

Definition streamParts : list StreamPartType :=
  [ textStreamPart;
    functionCallStreamPart;
    dataStreamPart;
    errorStreamPart;
    assistantMessageStreamPart;
    assistantControlDataStreamPart;
    dataMessageStreamPart;
    toolCallStreamPart;
    messageAnnotationsStreamPart ].

(** The object literals indexed by code and by name. *)
Definition streamPartsByCode_table : list (string * StreamPartType) :=
  [ (code textStreamPart, textStreamPart);
    (code functionCallStreamPart, functionCallStreamPart);
    (code dataStreamPart, dataStreamPart);
    (code errorStreamPart, errorStreamPart);
    (code assistantMessageStreamPart, assistantMessageStreamPart);
    (code assistantControlDataStreamPart, assistantControlDataStreamPart);
    (code dataMessageStreamPart, dataMessageStreamPart);
    (code toolCallStreamPart, toolCallStreamPart);
    (code messageAnnotationsStreamPart, messageAnnotationsStreamPart) ].

Definition streamPartsByCode (c : string) : option StreamPartType :=
  match find (fun e => String.eqb (fst e) c) streamPartsByCode_table with
  | Some e => Some (snd e)
  | None => None
  end.

Definition StreamStringPrefixes_table : list (string * string) :=
  map (fun p => (name p, code p)) streamParts.

Definition StreamStringPrefixes (n : string) : option string :=
  match find (fun e => String.eqb (fst e) n) StreamStringPrefixes_table with
  | Some e => Some (snd e)
  | None => None
  end.

Definition validCodes : list string := map code streamParts.

(** [xs.includes(x)] on strings *)
Definition includes (xs : list string) (x : string) : bool :=
  existsb (String.eqb x) xs.

Definition parseStreamPart (line : string) : result StreamPart :=
  match indexOf ":" line with
  | None => Err "Failed to parse stream string. No separator found."
  | Some firstSeparatorIndex =>
      let prefix := slice_to firstSeparatorIndex line in
      if negb (includes validCodes prefix)
      then Err ("Failed to parse stream string. Invalid code " ++ prefix ++ ".")
      else
        let code := prefix in
        let textValue := slice_from (firstSeparatorIndex + 1) line in
        match JSON_parse textValue with
        | None => Err "SyntaxError"
        | Some jsonValue =>
            match streamPartsByCode code with
            | Some part => parse part jsonValue
            | None => Err "TypeError"
            end
        end
  end.

Definition formatStreamPart (type : string) (value : json) : result string :=
  match find (fun part => String.eqb (name part) type) streamParts with
  | None => Err ("Invalid stream part type: " ++ type)
  | Some streamPart =>
      Ok (code streamPart ++ ":" ++ JSON_stringify value ++ String NEWLINE "")
  end.

(** *** The shapes of the specification's table

    [spec_shape k v]: the payload [v] has the shape the table of part kinds
    requires of kind [k].  This predicate follows the table, not the
    validators; the validators are the [parse] fields above. *)

Definition is_string (v : js) : bool :=
  match v with Some (JStr _) => true | _ => false end.

Definition is_object (v : js) : bool :=
  match v with Some (JObj _) => true | _ => false end.

Definition is_present (v : js) : bool :=
  match v with Some _ => true | None => false end.

(** [{name: string, arguments: string}] *)
Definition name_arguments_shape (v : js) : bool :=
  is_object v && is_string (prop v "name") && is_string (prop v "arguments").

(** [{type: "text", text: {value: string}}] *)
Definition text_item_shape (item : json) : bool :=
  let i := Some item in
  is_object i && eq_str (prop i "type") "text"
  && is_object (prop i "text") && is_string (prop (prop i "text") "value").

(** [{id: string, type: string, function: {name: string, arguments: string}}] *)
Definition tool_call_shape (tc : json) : bool :=
  let t := Some tc in
  is_object t && is_string (prop t "id") && is_string (prop t "type")
  && name_arguments_shape (prop t "function").

Definition spec_shape (k : string) (v : json) : bool :=
  let x := Some v in
  if String.eqb k "text" then is_string x
  else if String.eqb k "function_call" then
    is_object x && name_arguments_shape (prop x "function_call")
  else if String.eqb k "data" then isArray x
  else if String.eqb k "error" then is_string x
  else if String.eqb k "assistant_message" then
    is_object x && is_string (prop x "id") && eq_str (prop x "role") "assistant"
    && isArray (prop x "content") && array_every (prop x "content") text_item_shape
  else if String.eqb k "assistant_control_data" then
    is_object x && is_string (prop x "threadId") && is_string (prop x "messageId")
  else if String.eqb k "data_message" then
    is_object x && eq_str (prop x "role") "data" && is_present (prop x "data")
  else if String.eqb k "tool_calls" then
    is_object x && isArray (prop x "tool_calls")
    && array_every (prop x "tool_calls") tool_call_shape
  else if String.eqb k "message_annotations" then isArray x
  else false.

(** The structurally-normalized payload: the payload itself, except that
    [assistant_control_data] keeps only [threadId] and [messageId]. *)
Definition keep_fields (ks : list string) (v : json) : json :=
  JObj (flat_map (fun k => match prop (Some v) k with
                           | Some x => [(k, x)]
                           | None => []
                           end) ks).

Definition normalized_payload (k : string) (v : json) : json :=
  if String.eqb k "assistant_control_data"
  then keep_fields ["threadId"; "messageId"] v
  else v.

(** Payloads of the examples. *)
Definition ex_control_data : json :=
  JObj [("threadId", JStr "t1"); ("extra", JNum 7); ("messageId", JStr "m1")].

(** A [tool_calls] payload whose only element is the number 1. *)
Definition ex_bad_tool_calls : json := JObj [("tool_calls", JArr [JNum 1])].

(** ** The side-channel buffer ([streams/stream-data.ts])

    The fields of an [experimental_StreamData] object.  [controller] is
    [null] until the stream's [start] runs; [isClosedPromise] is pending
    until [close] resolves it. *)

Record StreamData : Type := mkStreamData {
  controller : bool;
  isClosedPromise : bool;
  isClosed : bool;
  data : list json;
  messageAnnotations : list json
}.

(** The constructor. *)
Definition new_StreamData : StreamData :=
  {| controller := false; isClosedPromise := false; isClosed := false;
     data := []; messageAnnotations := [] |}.

(** [start] of the transform stream: [self.controller = controller]. *)
Definition StreamData_start (self : StreamData) : StreamData :=
  {| controller := true;
     isClosedPromise := isClosedPromise self;
     isClosed := isClosed self;
     data := data self;
     messageAnnotations := messageAnnotations self |}.

(** A method: the outcome and the object after the call. *)
Definition method (A : Type) : Type := StreamData -> result A * StreamData.

Definition close : method unit := fun this =>
  if isClosed this then (Err "Data Stream has already been closed.", this)
  else if negb (controller this)
  then (Err "Stream controller is not initialized.", this)
  else (Ok tt,
        {| controller := controller this;
           isClosedPromise := true;
           isClosed := true;
           data := data this;
           messageAnnotations := messageAnnotations this |}).

Definition append (value : json) : method unit := fun this =>
  if isClosed this then (Err "Data Stream has already been closed.", this)
  else (Ok tt,
        {| controller := controller this;
           isClosedPromise := isClosedPromise this;
           isClosed := isClosed this;
           data := data this ++ [value];
           messageAnnotations := messageAnnotations this |}).

Definition appendMessageAnnotation (value : json) : method unit := fun this =>
  if isClosed this then (Err "Data Stream has already been closed.", this)
  else (Ok tt,
        {| controller := controller this;
           isClosedPromise := isClosedPromise this;
           isClosed := isClosed this;
           data := data this;
           messageAnnotations := messageAnnotations this ++ [value] |}).

(** [xs.length > 0] *)
Definition nonempty {A} (xs : list A) : bool :=
  match xs with [] => false | _ :: _ => true end.

(** [transform(chunk, controller)] of the buffer's stream: the chunks it
    enqueues, in order, and the object afterwards. *)
Definition StreamData_transform (chunk : string) : method (list string) := fun self =>
  let r1 :=
    if nonempty (data self)
    then encodedData <- formatStreamPart "data" (JArr (data self)) ;;
         Ok [encodedData]
    else Ok [] in
  let self1 :=
    if nonempty (data self)
    then {| controller := controller self;
            isClosedPromise := isClosedPromise self;
            isClosed := isClosed self;
            data := [];
            messageAnnotations := messageAnnotations self |}
    else self in
  let r2 :=
    if nonempty (messageAnnotations self1)
    then encodedMessageAnnotations <-
           formatStreamPart "message_annotations" (JArr (messageAnnotations self1)) ;;
         Ok [encodedMessageAnnotations]
    else Ok [] in
  let self2 :=
    if nonempty (messageAnnotations self1)
    then {| controller := controller self1;
            isClosedPromise := isClosedPromise self1;
            isClosed := isClosed self1;
            data := data self1;
            messageAnnotations := [] |}
    else self1 in
  (q1 <- r1 ;; q2 <- r2 ;; Ok (q1 ++ q2 ++ [chunk])%list, self2).

(** [flush(controller)]: it awaits [isClosedPromise]; [None] while the
    promise is pending. *)
Definition StreamData_flush (self : StreamData) : option (result (list string)) :=
  if negb (isClosedPromise self) then None
  else Some (
    q1 <- (if nonempty (data self)
           then encodedData <- formatStreamPart "data" (JArr (data self)) ;;
                Ok [encodedData]
           else Ok []) ;;
    q2 <- (if nonempty (messageAnnotations self)
           then encodedData <-
                  formatStreamPart "message_annotations"
                                   (JArr (messageAnnotations self)) ;;
                Ok [encodedData]
           else Ok []) ;;
    Ok (q1 ++ q2)%list).

(** [createStreamDataTransformer(experimental_streamData)]: the chunks
    enqueued for one incoming chunk. *)
Definition createStreamDataTransformer (experimental_streamData : bool)
           (chunk : string) : result (list string) :=
  if negb experimental_streamData then Ok [chunk]
  else
    let message := chunk in
    line <- formatStreamPart "text" (JStr message) ;; Ok [line].

(** ** Chunk reassembly ([shared/read-data-stream.ts]) *)

Fixpoint last_char (s : string) : option ascii :=
  match s with
  | EmptyString => None
  | String c EmptyString => Some c
  | String _ r => last_char r
  end.

(** [value[value.length - 1] === NEWLINE] *)
Definition ends_with_newline (value : string) : bool :=
  match last_char value with
  | Some c => Ascii.eqb c NEWLINE
  | None => false
  end.

(** [s.split("\n")] for a separator of one character. *)
Fixpoint split_on (sep : ascii) (s : string) : list string :=
  match s with
  | EmptyString => [""]
  | String c r =>
      if Ascii.eqb c sep then "" :: split_on sep r
      else match split_on sep r with
           | h :: t => String c h :: t
           | [] => [String c ""]
           end
  end.

(** [.split("\n").filter(line => line !== "")] *)
Definition nonempty_lines (s : string) : list string :=
  filter (fun line => negb (String.eqb line "")) (split_on NEWLINE s).

(** [concatChunks(chunks, totalLength)]: the bytes of the chunks in order
    ([totalLength] is the sum of their lengths). *)
Definition concatChunks (chunks : list string) (totalLength : nat) : string :=
  String.concat "" chunks.

(** The parts of one flushed buffer:
    [decode(...).split("\n").filter(...).map(parseStreamPart)]. *)
Definition decode_parts (concatenatedChunks : string) : result (list StreamPart) :=
  mapM parseStreamPart (nonempty_lines concatenatedChunks).

Inductive rds_status : Type :=
| Reading                 (* inside [while (true)] *)
| Finished                (* left by [break] on an empty buffer *)
| Cancelled               (* [reader.cancel()] after [isAborted()] *)
| Failed (msg : string).  (* a line did not parse *)

(** The generator's variables, what it has yielded so far and how many
    times it has asked [isAborted]. *)
Record rds_state : Type := mkRds {
  chunks : list string;
  totalLength : nat;
  yielded : list StreamPart;
  abort_checks : nat;
  status : rds_status
}.

Definition rds_init : rds_state :=
  {| chunks := []; totalLength := 0; yielded := []; abort_checks := 0;
     status := Reading |}.

(** The rest of the loop body once a read has not hit [continue]. *)
Definition rds_flush (isAborted : nat -> bool) (st : rds_state) : rds_state :=
  if negb (nonempty (chunks st)) then
    {| chunks := chunks st; totalLength := totalLength st;
       yielded := yielded st; abort_checks := abort_checks st;
       status := Finished |}
  else
    let concatenatedChunks := concatChunks (chunks st) (totalLength st) in
    match decode_parts concatenatedChunks with
    | Err e =>
        {| chunks := []; totalLength := 0; yielded := yielded st;
           abort_checks := abort_checks st; status := Failed e |}
    | Ok streamParts2 =>
        {| chunks := []; totalLength := 0;
           yielded := (yielded st ++ streamParts2)%list;
           abort_checks := S (abort_checks st);
           status := if isAborted (abort_checks st) then Cancelled else Reading |}
    end.

(** One iteration of [while (true)] on the result of [reader.read()];
    [None] is a read without a value (end of input). *)
Definition rds_step (isAborted : nat -> bool) (st : rds_state)
           (value : option string) : rds_state :=
  match status st with
  | Reading =>
      match value with
      | Some value =>
          let st1 :=
            {| chunks := (chunks st ++ [value])%list;
               totalLength := totalLength st + String.length value;
               yielded := yielded st; abort_checks := abort_checks st;
               status := Reading |} in
          if negb (ends_with_newline value) then st1
          else rds_flush isAborted st1
      | None => rds_flush isAborted st
      end
  | _ => st
  end.

(** The generator run on a reader that delivers [reader] and then reports
    the end of input: after the chunks, one read flushes what is left and
    the next one leaves the loop. *)
Definition readDataStream_from (isAborted : nat -> bool) (st : rds_state)
           (reader : list string) : rds_state :=
  fold_left (rds_step isAborted) (map Some reader ++ [None; None])%list st.

Definition readDataStream (isAborted : nat -> bool) (reader : list string)
  : list StreamPart * rds_status :=
  let st := readDataStream_from isAborted rds_init reader in
  (yielded st, status st).

(** No [isAborted] option, or one that never fires. *)
Definition never_aborted : nat -> bool := fun _ => false.

(** A string without the newline byte. *)
Fixpoint no_newline (s : string) : bool :=
  match s with
  | EmptyString => true
  | String c r => negb (Ascii.eqb c NEWLINE) && no_newline r
  end.

(** The wire form of a part: [<code>:<json>], and with its terminator. *)
Definition part_text (sp : StreamPartType) (v : json) : string :=
  code sp ++ ":" ++ JSON_stringify v.

Definition part_line (sp : StreamPartType) (v : json) : string :=
  code sp ++ ":" ++ JSON_stringify v ++ String NEWLINE "".

(** The buffer with both pending queues emptied. *)
Definition queues_cleared (self : StreamData) : StreamData :=
  {| controller := controller self;
     isClosedPromise := isClosedPromise self;
     isClosed := isClosed self;
     data := [];
     messageAnnotations := [] |}.

(** What the multiplexer puts in front of a content unit. *)
Definition pending_parts (self : StreamData) : list string :=
  ((if nonempty (data self)
    then [part_line dataStreamPart (JArr (data self))] else [])
   ++ (if nonempty (messageAnnotations self)
       then [part_line messageAnnotationsStreamPart (JArr (messageAnnotations self))]
       else []))%list.

Definition already_closed : string := "Data Stream has already been closed.".

(** A buffer whose stream has started, with [{"a":1}] appended and then
    closed. *)
Definition ex_open_buffer : StreamData := StreamData_start new_StreamData.
Definition ex_closed_buffer : StreamData :=
  snd (close (snd (append (JObj [("a", JNum 1)]) ex_open_buffer))).

(** ** The reconstructor ([shared/parse-complex-response.ts]) *)

(** A message accumulator.  [m_function_call], [m_name] and [m_tool_calls]
    are the kind-specific properties; a property that is absent or
    [undefined] is [None].  [createdAt] is a [Date], here its time value. *)
Record Message : Type := mkMessage {
  m_id : string;
  m_role : string;
  m_content : string;
  m_createdAt : Z;
  m_function_call : js;
  m_name : js;
  m_tool_calls : js;
  m_annotations : option (list json)
}.

Definition with_content (m : Message) (c : string) : Message :=
  {| m_id := m_id m; m_role := m_role m; m_content := c;
     m_createdAt := m_createdAt m; m_function_call := m_function_call m;
     m_name := m_name m; m_tool_calls := m_tool_calls m;
     m_annotations := m_annotations m |}.

Definition with_annotations (m : Message) (a : list json) : Message :=
  {| m_id := m_id m; m_role := m_role m; m_content := m_content m;
     m_createdAt := m_createdAt m; m_function_call := m_function_call m;
     m_name := m_name m; m_tool_calls := m_tool_calls m;
     m_annotations := Some a |}.

(** [assignAnnotationsToMessage(message, annotations)] *)
Definition assignAnnotationsToMessage (message : option Message)
           (annotations : option (list json)) : option Message :=
  match message, annotations with
  | Some m, Some a => if nonempty a then Some (with_annotations m a) else message
  | _, _ => message
  end.

(** [prefixMap] *)
Record PrefixMap : Type := mkPrefixMap {
  pm_text : option Message;
  pm_function_call : option Message;
  pm_tool_calls : option Message;
  pm_data : list json
}.

Inductive prefix_key : Type := KText | KFunctionCall | KToolCalls.

Definition pm_get (pm : PrefixMap) (key : prefix_key) : option Message :=
  match key with
  | KText => pm_text pm
  | KFunctionCall => pm_function_call pm
  | KToolCalls => pm_tool_calls pm
  end.

Definition pm_set (pm : PrefixMap) (key : prefix_key) (m : option Message)
  : PrefixMap :=
  match key with
  | KText =>
      {| pm_text := m; pm_function_call := pm_function_call pm;
         pm_tool_calls := pm_tool_calls pm; pm_data := pm_data pm |}
  | KFunctionCall =>
      {| pm_text := pm_text pm; pm_function_call := m;
         pm_tool_calls := pm_tool_calls pm; pm_data := pm_data pm |}
  | KToolCalls =>
      {| pm_text := pm_text pm; pm_function_call := pm_function_call pm;
         pm_tool_calls := m; pm_data := pm_data pm |}
  end.

Definition pm_push_data (pm : PrefixMap) (xs : list json) : PrefixMap :=
  {| pm_text := pm_text pm; pm_function_call := pm_function_call pm;
     pm_tool_calls := pm_tool_calls pm; pm_data := (pm_data pm ++ xs)%list |}.

(** What a local variable of the loop body holds: [null]/[undefined], the
    very object stored in [prefixMap] under a key (so that a later
    assignment to a property of [prefixMap[key]] shows through it), or an
    object of its own. *)
Inductive msg_ref : Type :=
| RNull
| RPrefix (key : prefix_key)
| ROwn (m : Message).

Definition deref (pm : PrefixMap) (r : msg_ref) : option Message :=
  match r with
  | RNull => None
  | RPrefix key => pm_get pm key
  | ROwn m => Some m
  end.

(** [assignAnnotationsToMessage(prefixMap[key], annotations)] as a
    reference: the argument itself unless a copy is made. *)
Definition assign_ref (pm : PrefixMap) (key : prefix_key)
           (annotations : option (list json)) : msg_ref :=
  match pm_get pm key, annotations with
  | Some m, Some a => if nonempty a then ROwn (with_annotations m a) else RPrefix key
  | Some _, None => RPrefix key
  | None, _ => RNull
  end.

(** The variables that live across the iterations, and the number of
    calls of [generateId] so far. *)
Record pcr_state : Type := mkPcr {
  prefixMap : PrefixMap;
  message_annotations : option (list json);
  ids_drawn : nat
}.

Definition pcr_init : pcr_state :=
  {| prefixMap := {| pm_text := None; pm_function_call := None;
                     pm_tool_calls := None; pm_data := [] |};
     message_annotations := None;
     ids_drawn := 0 |}.

(** One call [update(merged, data)] of the sink. *)
Definition Update : Type := (list Message * list json)%type.

Definition new_message (id_ : string) (content : string) (createdAt : Z)
           (function_call name_ tool_calls : js) : Message :=
  {| m_id := id_; m_role := "assistant"; m_content := content;
     m_createdAt := createdAt; m_function_call := function_call;
     m_name := name_; m_tool_calls := tool_calls; m_annotations := None |}.

(** [prefixMap[key].annotations = [...message_annotations]] for each key
    that is present. *)
Definition stamp_prefixMap (pm : PrefixMap) (a : list json) : PrefixMap :=
  let stamp := fun m : option Message =>
                 match m with
                 | Some m => Some (with_annotations m a)
                 | None => None
                 end in
  {| pm_text := stamp (pm_text pm);
     pm_function_call := stamp (pm_function_call pm);
     pm_tool_calls := stamp (pm_tool_calls pm);
     pm_data := pm_data pm |}.

(** [[...].filter(Boolean)] *)
Definition filter_Boolean {A} (xs : list (option A)) : list A :=
  flat_map (fun x => match x with Some a => [a] | None => [] end) xs.

Section Reconstructor.

(** [generateId]: its [n]-th call (from 0) returns [generateId n].
    [createdAt] is the value of [getCurrentDate()] at the start. *)
Variable generateId : nat -> string.
Variable createdAt : Z.

(** The body of the [for await] loop for one part. *)
Definition pcr_step (st : pcr_state) (part : StreamPart)
  : result (pcr_state * Update) :=
  let pm0 := prefixMap st in
  let n0 := ids_drawn st in
  (* if (type === "text") *)
  r1 <- (if String.eqb (type part) "text" then
           match value part with
           | JStr s =>
               match pm_text pm0 with
               | Some m =>
                   Ok (pm_set pm0 KText
                         (Some (with_content m (m_content m ++ s))), n0)
               | None =>
                   Ok (pm_set pm0 KText
                         (Some (new_message (generateId n0) s createdAt
                                            None None None)), S n0)
               end
           | _ => Err "text part whose value is not a string"
           end
         else Ok (pm0, n0)) ;;
  let '(pm1, n1) := r1 in
  (* let functionCallMessage = null; if (type === "function_call") *)
  r2 <- (if String.eqb (type part) "function_call" then
           let fc := prop (Some (value part)) "function_call" in
           if eq_null fc then Err "TypeError"
           else
             Ok (pm_set pm1 KFunctionCall
                   (Some (new_message (generateId n1) "" createdAt
                                      fc (prop fc "name") None)),
                 S n1, RPrefix KFunctionCall)
         else Ok (pm1, n1, RNull)) ;;
  let '(pm2, n2, functionCallMessage) := r2 in
  (* let toolCallMessage = null; if (type === "tool_calls") *)
  let '(pm3, n3, toolCallMessage) :=
    if String.eqb (type part) "tool_calls" then
      (pm_set pm2 KToolCalls
         (Some (new_message (generateId n2) "" createdAt None None
                            (prop (Some (value part)) "tool_calls"))),
       S n2, RPrefix KToolCalls)
    else (pm2, n2, RNull) in
  (* if (type === "data") *)
  pm4 <- (if String.eqb (type part) "data" then
            match value part with
            | JArr xs => Ok (pm_push_data pm3 xs)
            | _ => Err "data part whose value is not an array"
            end
          else Ok pm3) ;;
  (* let responseMessage = prefixMap["text"]; *)
  let responseMessage :=
    match pm_text pm4 with Some _ => RPrefix KText | None => RNull end in
  (* if (type === "message_annotations") *)
  r5 <- (if String.eqb (type part) "message_annotations" then
           match value part with
           | JArr xs =>
               let ma := match message_annotations st with
                         | None => Some xs
                         | Some old => Some (old ++ xs)%list
                         end in
               Ok (ma,
                   assign_ref pm4 KFunctionCall ma,
                   assign_ref pm4 KToolCalls ma,
                   assign_ref pm4 KText ma)
           | _ => Err "message_annotations part whose value is not an array"
           end
         else Ok (message_annotations st, functionCallMessage,
                  toolCallMessage, responseMessage)) ;;
  let '(ma, functionCallMessage, toolCallMessage, responseMessage) := r5 in
  (* if (message_annotations?.length) *)
  let pm5 :=
    match ma with
    | Some a => if nonempty a then stamp_prefixMap pm4 a else pm4
    | None => pm4
    end in
  let merged :=
    map (fun message =>
           match assignAnnotationsToMessage (Some message) ma with
           | Some m => m
           | None => message
           end)
        (filter_Boolean [deref pm5 functionCallMessage;
                         deref pm5 toolCallMessage;
                         deref pm5 responseMessage]) in
  Ok ({| prefixMap := pm5; message_annotations := ma; ids_drawn := n3 |},
      (merged, pm_data pm5)).

(** The loop over a decoded part sequence: the state at the end and the
    calls of the sink, in order. *)
Fixpoint pcr_run (st : pcr_state) (parts : list StreamPart)
  : result (pcr_state * list Update) :=
  match parts with
  | [] => Ok (st, [])
  | part :: rest =>
      r <- pcr_step st part ;;
      let '(st1, u) := r in
      r' <- pcr_run st1 rest ;;
      let '(st2, us) := r' in
      Ok (st2, u :: us)
  end.

(** The value returned at the end: [{ messages, data }]. *)
Definition pcr_result (st : pcr_state) : list Message * list json :=
  (filter_Boolean [pm_text (prefixMap st);
                   pm_function_call (prefixMap st);
                   pm_tool_calls (prefixMap st)],
   pm_data (prefixMap st)).

(** [parseComplexResponse] on a reader that delivers [reader]: a line
    that does not decode rejects the call. *)
Definition parseComplexResponse (isAborted : nat -> bool) (reader : list string)
  : result ((list Message * list json) * list Update) :=
  let '(parts, final) := readDataStream isAborted reader in
  r <- pcr_run pcr_init parts ;;
  let '(st, updates) := r in
  match final with
  | Failed e => Err e
  | _ => Ok (pcr_result st, updates)
  end.

(** The accumulators present under the given keys, each with the current
    annotation snapshot. *)
Definition accumulators (st : pcr_state) (keys : list prefix_key)
  : list Message :=
  map (fun message =>
         match assignAnnotationsToMessage (Some message) (message_annotations st) with
         | Some m => m
         | None => message
         end)
      (filter_Boolean (map (pm_get (prefixMap st)) keys)).

(** The keys whose accumulator the loop body passes to the sink after a
    part of the given kind. *)
Definition reported_keys (ty : string) : list prefix_key :=
  ((if String.eqb ty "function_call" || String.eqb ty "message_annotations"
    then [KFunctionCall] else [])
   ++ (if String.eqb ty "tool_calls" || String.eqb ty "message_annotations"
       then [KToolCalls] else [])
   ++ [KText])%list.

End Reconstructor.

(** Parts and generators of the examples. *)
Definition ex_function_call_part (fname : string) : StreamPart :=
  {| type := "function_call";
     value := JObj [("function_call",
                     JObj [("name", JStr fname); ("arguments", JStr "{}")])] |}.

Definition ex_text_part (s : string) : StreamPart :=
  {| type := "text"; value := JStr s |}.

(** A generator of distinct ids: ["id-0"], ["id-1"], ... *)
Definition ex_generateId (n : nat) : string :=
  "id-" ++ NilZero.string_of_uint (Nat.to_uint n).




Definition ex_state_after_call : pcr_state :=
  Eval vm_compute in
    match pcr_step ex_generateId 0 pcr_init (ex_function_call_part "f") with
    | Ok r => fst r
    | Err _ => pcr_init
    end.

Definition ex_text_after_call : pcr_state * Update :=
  Eval vm_compute in
    match pcr_step ex_generateId 0 ex_state_after_call (ex_text_part "hi") with
    | Ok r => r
    | Err _ => (pcr_init, ([], []))
    end.


(** ** The callback stage and the function/tool-call interceptor
       ([streams/ai-stream.ts], [streams/openai-stream.ts])

    A provider response enters this code as the sequence of text units its
    stream yields ([streamable(res)], or the event parser of [AIStream]);
    the conversion from the provider's format is outside this development,
    so a response is the list of those units. *)

(** The calls of the lifecycle hooks, in the order they happen. *)
Inductive HookEvent : Type :=
| EvStart
| EvToken (token : string)
| EvCompletion (completion : string)
| EvFinal (completion : string).

(** What a user callback does when called. *)
Inductive CallbackOutcome : Type :=
| Throws (e : string)
| ReturnsNothing
| ReturnsString (s : string)
| ReturnsResponse (res : list string).

(** [!functionResponse] *)
Definition no_response (r : CallbackOutcome) : bool :=
  match r with
  | ReturnsNothing => true
  | ReturnsString s => String.eqb s ""
  | Throws _ | ReturnsResponse _ => false
  end.

Record FunctionCallPayload : Type := mkFunctionCallPayload {
  fc_name : js;
  fc_arguments : json
}.

Record ToolCall : Type := mkToolCall {
  tool_id : js;
  tool_func_name : js;
  tool_func_arguments : js
}.

Record ToolCallResult : Type := mkToolCallResult {
  tool_call_id : js;
  function_name : js;
  tool_call_result : js
}.

(** [experimental_onFunctionCall(payload, createFunctionCallMessages)]: the
    messages of the turn so far are visible to it; it answers with what it
    does and, if it called [createFunctionCallMessages], the result it
    passed last. *)
Definition FunctionCallHandler : Type :=
  FunctionCallPayload -> list json -> CallbackOutcome * option js.

(** [experimental_onToolCall(toolCalls, appendToolCallMessage)]: what it
    does, and the arguments of its calls of [appendToolCallMessage] in
    order ([None] for a call without a result). *)
Definition ToolCallHandler : Type :=
  list ToolCall -> list json -> CallbackOutcome * list (option ToolCallResult).

(** The callbacks object.  A lifecycle hook is a flag (configured or not);
    its calls are recorded as [HookEvent]s.  [fn_messages] is the property
    under [__internal__OpenAIFnMessagesSymbol]. *)
Record OpenAICallbacks : Type := mkCallbacks {
  onStart : bool;
  onToken : bool;
  onCompletion : bool;
  onFinal : bool;
  experimental_onFunctionCall : option FunctionCallHandler;
  experimental_onToolCall : option ToolCallHandler;
  experimental_streamData : bool;
  fn_messages : list json
}.

Definition set_onFinal (cb : OpenAICallbacks) (f : bool) : OpenAICallbacks :=
  {| onStart := onStart cb; onToken := onToken cb; onCompletion := onCompletion cb;
     onFinal := f;
     experimental_onFunctionCall := experimental_onFunctionCall cb;
     experimental_onToolCall := experimental_onToolCall cb;
     experimental_streamData := experimental_streamData cb;
     fn_messages := fn_messages cb |}.

(** [{...callbacks, onStart: undefined, [symbol]: messages}] *)
Definition continuation_callbacks (cb : OpenAICallbacks) (messages : list json)
  : OpenAICallbacks :=
  {| onStart := false; onToken := onToken cb; onCompletion := onCompletion cb;
     onFinal := onFinal cb;
     experimental_onFunctionCall := experimental_onFunctionCall cb;
     experimental_onToolCall := experimental_onToolCall cb;
     experimental_streamData := experimental_streamData cb;
     fn_messages := messages |}.

Definition is_some {A} (o : option A) : bool :=
  match o with Some _ => true | None => false end.

(** [cb.experimental_onFunctionCall || cb.experimental_onToolCall] *)
Definition intercepts (cb : OpenAICallbacks) : bool :=
  is_some (experimental_onFunctionCall cb) || is_some (experimental_onToolCall cb).

(** [isOfTypeOpenAIStreamCallbacks] *)
Definition isOfTypeOpenAIStreamCallbacks (cb : OpenAICallbacks) : bool :=
  is_some (experimental_onFunctionCall cb).

(** How a stream ends. *)
Inductive run_status : Type :=
| Closed
| Errored (msg : string)
| OutOfFuel.

(** A stage run to its end: the chunks it enqueued, the hook calls, the
    end. *)
Record StreamRun : Type := mkRun {
  out : list string;
  hooks : list HookEvent;
  outcome : run_status
}.

Definition final_calls (r : StreamRun) : list string :=
  flat_map (fun e => match e with EvFinal s => [s] | _ => [] end) (hooks r).

(** [createCallbacksTransformer(cb)] run over the units of a response. *)
Definition createCallbacksTransformer (callbacks : OpenAICallbacks)
           (messages : list string) : StreamRun :=
  let aggregatedResponse := String.concat "" messages in
  {| out := messages;
     hooks :=
       ((if onStart callbacks then [EvStart] else [])
        ++ (if onToken callbacks then map EvToken messages else [])
        ++ (if onCompletion callbacks then [EvCompletion aggregatedResponse] else [])
        ++ (if onFinal callbacks && negb (isOfTypeOpenAIStreamCallbacks callbacks)
            then [EvFinal aggregatedResponse] else []))%list;
     outcome := Closed |}.

(** The closure variables of [createFunctionCallTransformer]. *)
Record fct_state : Type := mkFct {
  isFirstChunk : bool;
  aggregatedResponse : string;
  aggregatedFinalCompletionResponse : string;
  isFunctionStreamingIn : bool
}.

Definition fct_init : fct_state :=
  {| isFirstChunk := true; aggregatedResponse := "";
     aggregatedFinalCompletionResponse := ""; isFunctionStreamingIn := false |}.

(** [transform(chunk, controller)]: the new variables and what is
    enqueued. *)
Definition fct_transform (isComplexMode : bool) (st : fct_state) (chunk : string)
  : result (fct_state * list string) :=
  let message := chunk in
  let aggFinal := aggregatedFinalCompletionResponse st ++ message in
  let shouldHandleAsFunction :=
    isFirstChunk st
    && (startsWith message (dq "{'function_call':")
        || startsWith message (dq "{'tool_calls':")) in
  if shouldHandleAsFunction then
    Ok ({| isFirstChunk := false;
           aggregatedResponse := aggregatedResponse st ++ message;
           aggregatedFinalCompletionResponse := aggFinal;
           isFunctionStreamingIn := true |}, [])
  else if negb (isFunctionStreamingIn st) then
    enq <- (if isComplexMode then formatStreamPart "text" (JStr message)
            else Ok chunk) ;;
    Ok ({| isFirstChunk := isFirstChunk st;
           aggregatedResponse := aggregatedResponse st;
           aggregatedFinalCompletionResponse := aggFinal;
           isFunctionStreamingIn := isFunctionStreamingIn st |}, [enq])
  else
    Ok ({| isFirstChunk := isFirstChunk st;
           aggregatedResponse := aggregatedResponse st ++ message;
           aggregatedFinalCompletionResponse := aggFinal;
           isFunctionStreamingIn := isFunctionStreamingIn st |}, []).

Fixpoint fct_transform_all (isComplexMode : bool) (st : fct_state)
         (chunks : list string) : result (fct_state * list string) :=
  match chunks with
  | [] => Ok (st, [])
  | chunk :: rest =>
      r <- fct_transform isComplexMode st chunk ;;
      let '(st1, q1) := r in
      r' <- fct_transform_all isComplexMode st1 rest ;;
      let '(st2, q2) := r' in
      Ok (st2, (q1 ++ q2)%list)
  end.

(** An object literal; a property whose value is [undefined] is left out. *)
Definition obj_of (fields : list (string * js)) : json :=
  JObj (flat_map (fun kv => match snd kv with
                            | Some v => [(fst kv, v)]
                            | None => []
                            end) fields).

(** [JSON.stringify(x)] of a value that may be [undefined]. *)
Definition stringify_js (x : js) : js :=
  match x with
  | Some v => Some (JStr (JSON_stringify v))
  | None => None
  end.

(** [JSON.parse(x)] of a value that need not be a string: the argument is
    converted to a string first.  For an array or an object the conversion
    is not modelled and the result is taken to be a [SyntaxError]. *)
Definition JSON_parse_js (x : js) : option json :=
  match x with
  | Some (JStr s) => JSON_parse s
  | Some (JNum z) => Some (JNum z)
  | Some (JBool b) => Some (JBool b)
  | Some JNull => Some JNull
  | Some (JArr _) | Some (JObj _) | None => None
  end.

(** The loop [for (const tool of payload.tool_calls)]. *)
Definition tool_of (tool : json) : result ToolCall :=
  let t := Some tool in
  if eq_null t then Err "TypeError"
  else if eq_null (prop t "function") then Err "TypeError"
  else Ok {| tool_id := prop t "id";
             tool_func_name := prop (prop t "function") "name";
             tool_func_arguments := prop (prop t "function") "arguments" |}.

Definition tools_of (tool_calls : js) : result (list ToolCall) :=
  match tool_calls with
  | Some (JArr l) => mapM tool_of l
  | Some (JStr EmptyString) => Ok []
  | _ => Err "TypeError"
  end.

(** [createFunctionCallMessages(result)] *)
Definition function_call_messages (functionCallMessages : list json)
           (payload : json) (result_ : js) : list json :=
  let fc := prop (Some payload) "function_call" in
  (functionCallMessages
   ++ [ obj_of [("role", Some (JStr "assistant")); ("content", Some (JStr ""));
                ("function_call", fc)];
        obj_of [("role", Some (JStr "function")); ("name", prop fc "name");
                ("content", stringify_js result_)] ])%list.

(** The calls [appendToolCallMessage(result)], in order. *)
Fixpoint tool_call_messages (payload : json) (responseIndex : nat)
         (acc : list json) (results : list (option ToolCallResult)) : list json :=
  match results with
  | [] => acc
  | None :: rest => tool_call_messages payload responseIndex acc rest
  | Some r :: rest =>
      let assistant :=
        match responseIndex with
        | O =>
            [ obj_of
                [("role", Some (JStr "assistant")); ("content", Some (JStr ""));
                 ("tool_calls",
                  match prop (Some payload) "tool_calls" with
                  | Some (JArr l) =>
                      Some (JArr
                        (map (fun tc =>
                                obj_of
                                  [("id", prop (Some tc) "id");
                                   ("type", Some (JStr "function"));
                                   ("function",
                                    Some (obj_of
                                      [("name", prop (prop (Some tc) "function") "name");
                                       ("arguments",
                                        stringify_js
                                          (prop (prop (Some tc) "function") "arguments"))]))])
                             l))
                  | _ => None
                  end)] ]
        | S _ => []
        end in
      tool_call_messages payload (S responseIndex)
        (acc ++ assistant
             ++ [ obj_of [("role", Some (JStr "tool"));
                          ("tool_call_id", tool_call_id r);
                          ("name", function_name r);
                          ("content", stringify_js (tool_call_result r))] ])%list
        rest
  end.

(** Where the [try] block of [flush] ends up. *)
Inductive flush_path : Type :=
| NotCapturing                       (* the [if] is not entered *)
| Fails (msg : string)               (* an exception leaves the block *)
| Forwards (chunk : string)          (* one [enqueue], then [return] *)
| Continues (res : list string) (messages : list json).
                                     (* the recursive [OpenAIStream] *)

(** The [try] block of [flush] up to its [enqueue] or to the recursive
    call. *)
Definition flush_decision (callbacks : OpenAICallbacks) (st : fct_state)
  : flush_path :=
  if negb (negb (isFirstChunk st) && isFunctionStreamingIn st && intercepts callbacks)
  then NotCapturing
  else
    let isComplexMode := experimental_streamData callbacks in
    let functionCallMessages := fn_messages callbacks in
    match JSON_parse (aggregatedResponse st) with
    | None => Fails "SyntaxError"
    | Some payload =>
        let p := Some payload in
        (* if (callbacks.experimental_onFunctionCall) *)
        let r1 : result (option CallbackOutcome * list json) :=
          match experimental_onFunctionCall callbacks with
          | None => Ok (None, functionCallMessages)
          | Some handler =>
              if eq_null (prop p "function_call") then Err "TypeError"
              else
                match JSON_parse_js (prop (prop p "function_call") "arguments") with
                | None => Err "SyntaxError"
                | Some argumentsPayload =>
                    let '(functionResponse, created) :=
                      handler {| fc_name := prop (prop p "function_call") "name";
                                 fc_arguments := argumentsPayload |}
                              functionCallMessages in
                    match functionResponse with
                    | Throws e => Err e
                    | _ =>
                        Ok (Some functionResponse,
                            match created with
                            | Some result_ =>
                                function_call_messages functionCallMessages
                                                       payload result_
                            | None => functionCallMessages
                            end)
                    end
                end
          end in
        match r1 with
        | Err e => Fails e
        | Ok (functionResponse, newFunctionCallMessages) =>
            (* if (callbacks.experimental_onToolCall) *)
            let r2 : result (option CallbackOutcome * list json) :=
              match experimental_onToolCall callbacks with
              | None => Ok (functionResponse, newFunctionCallMessages)
              | Some handler =>
                  match tools_of (prop p "tool_calls") with
                  | Err e => Err e
                  | Ok tools =>
                      let '(response, results) :=
                        handler tools newFunctionCallMessages in
                      match response with
                      | Throws _ =>
                          (* caught and logged *)
                          Ok (functionResponse, newFunctionCallMessages)
                      | _ =>
                          Ok (Some response,
                              tool_call_messages payload 0
                                                 newFunctionCallMessages results)
                      end
                  end
              end in
            match r2 with
            | Err e => Fails e
            | Ok (functionResponse, newFunctionCallMessages) =>
                match functionResponse with
                | Some (ReturnsResponse res) => Continues res newFunctionCallMessages
                | Some (ReturnsString (String c s)) =>
                    let functionResponse := String c s in
                    if isComplexMode then
                      match formatStreamPart "text" (JStr functionResponse) with
                      | Ok line => Forwards line
                      | Err e => Fails e
                      end
                    else Forwards functionResponse
                | _ =>
                    (* if (!functionResponse) *)
                    if isComplexMode then
                      match formatStreamPart
                              (if truthy (prop p "function_call")
                               then "function_call" else "tool_calls")
                              payload with
                      | Ok line => Forwards line
                      | Err e => Fails e
                      end
                    else Forwards (aggregatedResponse st)
                end
            end
        end
    end.

(** [flush(controller)], given the pipeline to run on a continuation. *)
Definition fct_flush (OpenAIStream_rec : list string -> OpenAICallbacks -> StreamRun)
           (callbacks : OpenAICallbacks) (st : fct_state) : StreamRun :=
  let finally_ := fun (cb : OpenAICallbacks) =>
    if onFinal cb && negb (String.eqb (aggregatedFinalCompletionResponse st) "")
    then [EvFinal (aggregatedFinalCompletionResponse st)] else [] in
  match flush_decision callbacks st with
  | NotCapturing =>
      {| out := []; hooks := finally_ callbacks; outcome := Closed |}
  | Fails e =>
      {| out := []; hooks := finally_ callbacks; outcome := Errored e |}
  | Forwards chunk =>
      {| out := [chunk]; hooks := finally_ callbacks; outcome := Closed |}
  | Continues res messages =>
      let filteredCallbacks := continuation_callbacks callbacks messages in
      (* callbacks.onFinal = undefined *)
      let callbacks' := set_onFinal callbacks false in
      let inner := OpenAIStream_rec res filteredCallbacks in
      {| out := out inner;
         hooks := (hooks inner ++ finally_ callbacks')%list;
         outcome := outcome inner |}
  end.

(** [createFunctionCallTransformer(callbacks)] run over the chunks of its
    input. *)
Definition createFunctionCallTransformer
           (OpenAIStream_rec : list string -> OpenAICallbacks -> StreamRun)
           (callbacks : OpenAICallbacks) (chunks : list string) : StreamRun :=
  match fct_transform_all (experimental_streamData callbacks) fct_init chunks with
  | Err e => {| out := []; hooks := []; outcome := Errored e |}
  | Ok (st, forwarded) =>
      let fl := fct_flush OpenAIStream_rec callbacks st in
      {| out := (forwarded ++ out fl)%list;
         hooks := hooks fl;
         outcome := outcome fl |}
  end.

(** [createStreamDataTransformer] run over the chunks of its input. *)
Definition streamDataTransformer_all (experimental_streamData : bool)
           (chunks : list string) : result (list string) :=
  r <- mapM (createStreamDataTransformer experimental_streamData) chunks ;;
  Ok (List.concat r).

(** [OpenAIStream(res, callbacks)].  [fuel] bounds the number of chained
    continuations. *)
Fixpoint OpenAIStream (fuel : nat) (res : list string) (cb : OpenAICallbacks)
  : StreamRun :=
  match fuel with
  | O => {| out := []; hooks := []; outcome := OutOfFuel |}
  | S fuel' =>
      let stream :=
        createCallbacksTransformer
          (if intercepts cb then set_onFinal cb false else cb) res in
      if intercepts cb then
        let r := createFunctionCallTransformer (OpenAIStream fuel') cb (out stream) in
        {| out := out r;
           hooks := (hooks stream ++ hooks r)%list;
           outcome := outcome r |}
      else
        match streamDataTransformer_all (experimental_streamData cb) (out stream) with
        | Ok chunks =>
            {| out := chunks; hooks := hooks stream; outcome := Closed |}
        | Err e =>
            {| out := []; hooks := hooks stream; outcome := Errored e |}
        end
  end.

(** The path the interceptor takes on the units of one response. *)
Definition invocation_path (cb : OpenAICallbacks) (res : list string) : flush_path :=
  match fct_transform_all (experimental_streamData cb) fct_init res with
  | Ok (st, _) => flush_decision cb st
  | Err e => Fails e
  end.

(** The opening of a [function_call] or [tool_calls] object. *)
Definition opens_call (message : string) : bool :=
  startsWith message (dq "{'function_call':")
  || startsWith message (dq "{'tool_calls':").

(** The structured part that carries a buffered payload. *)
Definition payload_part (payload : json) : StreamPartType :=
  if truthy (prop (Some payload) "function_call")
  then functionCallStreamPart else toolCallStreamPart.

(** What is forwarded for a captured payload nobody answered. *)
Definition unanswered_chunk (cb : OpenAICallbacks) (payload : json)
           (buffered : string) : string :=
  if experimental_streamData cb
  then part_line (payload_part payload) payload
  else buffered.

(** The final hook as the [finally] clause fires it. *)
Definition finally_hook (cb : OpenAICallbacks) (aggregate : string)
  : list HookEvent :=
  if onFinal cb && negb (String.eqb aggregate "") then [EvFinal aggregate] else [].

(** Callbacks and inputs of the examples. *)
Definition no_callbacks (streamData : bool) : OpenAICallbacks :=
  {| onStart := false; onToken := false; onCompletion := false; onFinal := true;
     experimental_onFunctionCall := None; experimental_onToolCall := None;
     experimental_streamData := streamData; fn_messages := [] |}.

Definition with_function_handler (streamData : bool) (h : FunctionCallHandler)
  : OpenAICallbacks :=
  {| onStart := false; onToken := false; onCompletion := false; onFinal := true;
     experimental_onFunctionCall := Some h; experimental_onToolCall := None;
     experimental_streamData := streamData; fn_messages := [] |}.

Definition with_tool_handler (streamData : bool) (h : ToolCallHandler)
  : OpenAICallbacks :=
  {| onStart := false; onToken := false; onCompletion := false; onFinal := true;
     experimental_onFunctionCall := None; experimental_onToolCall := Some h;
     experimental_streamData := streamData; fn_messages := [] |}.

(** The two chunks [{"function_call":] and [{"name":"f","arguments":"{}"}}]. *)
Definition ex_call_chunks : list string :=
  [dq "{'function_call':"; dq "{'name':'f','arguments':'{}'}}"].

Definition ex_call_payload : json :=
  JObj [("function_call", JObj [("name", JStr "f"); ("arguments", JStr "{}")])].

(** A handler that returns nothing. *)
Definition silent_function_handler : FunctionCallHandler :=
  fun _ _ => (ReturnsNothing, None).

Definition silent_tool_handler : ToolCallHandler :=
  fun _ _ => (ReturnsNothing, []).

Definition throwing_function_handler : FunctionCallHandler :=
  fun _ _ => (Throws "boom", None).

(** The text of a second call, [g], as one unit. *)
Definition ex_second_call : string :=
  dq "{'function_call':{'name':'g','arguments':'{}'}}".

(** A handler that answers the call of [f] with a new response, which asks
    for [g], and answers the call of [g] with a string. *)
Definition chaining_handler : FunctionCallHandler :=
  fun payload _ =>
    if eq_str (fc_name payload) "f"
    then (ReturnsResponse [ex_second_call], None)
    else (ReturnsString "done", None).

(** A handler that answers with a response that yields nothing. *)
Definition empty_continuation_handler : FunctionCallHandler :=
  fun _ _ => (ReturnsResponse [], None).

(** ** [callCompletionApi] ([shared/call-completion-api-server.ts]) *)

(** The response as this function reads it. *)
Record Response : Type := mkResponse {
  res_ok : bool;
  res_text : string;
  res_body : option (list string);
  res_complex_header : option string
}.

(** What the caller observes: the value returned ([None] is [undefined])
    and the calls of [setCompletion], [onFinish] and [onData]. *)
Record ApiRun : Type := mkApiRun {
  returned : option string;
  setCompletion_calls : list string;
  onFinish_calls : list (string * string);
  onData_calls : list json
}.

(** [createChunkDecoder(false)] applied to a chunk. *)
Definition decode_chunk (chunk : option string) : string :=
  match chunk with
  | None => ""
  | Some bytes => bytes
  end.

(** The [while (true)] loop of the raw-text branch.  [aborted i] tells
    whether [abortController?.() === null] holds after the [i]-th chunk
    (from 0).  The result: [result] and the calls of [setCompletion]. *)
Fixpoint raw_loop (aborted : nat -> bool) (i : nat) (reads : list string)
         (streamedResponse result_ : string) (calls : list string)
  : string * list string :=
  match reads with
  | [] => (result_, calls)
  | value :: rest =>
      let streamedResponse := streamedResponse ++ decode_chunk (Some value) in
      let result_ := result_ ++ streamedResponse in
      let calls := (calls ++ [result_])%list in
      if aborted i then (result_, calls)
      else raw_loop aborted (S i) rest streamedResponse result_ calls
  end.

(** The loop of the multiplexed branch over the decoded parts. *)
Fixpoint complex_loop (parts : list StreamPart) (result_ : string)
         (calls : list string) (datas : list json)
  : string * list string * list json :=
  match parts with
  | [] => (result_, calls, datas)
  | part :: rest =>
      if String.eqb (type part) "text" then
        match value part with
        | JStr s =>
            complex_loop rest (result_ ++ s) (calls ++ [(result_ ++ s)%string])%list datas
        | _ => complex_loop rest result_ calls datas
        end
      else if String.eqb (type part) "data" then
        complex_loop rest result_ calls (datas ++ [value part])%list
      else complex_loop rest result_ calls datas
  end.

(** [callCompletionApi] once [fetch] has answered with [res].
    [abortController] is the caller's function ([None] if it is [null]);
    [onFinish] and [onData] tell whether those callbacks are given. *)
Definition callCompletionApi (prompt : string) (res : Response)
           (abortController : option (nat -> bool)) (onFinish onData : bool)
  : result ApiRun :=
  if negb (res_ok res) then
    Err (if String.eqb (res_text res) ""
         then "Failed to fetch the chat response." else res_text res)
  else
    match res_body res with
    | None => Err "The response body is empty."
    | Some reader =>
        let isComplexMode :=
          match res_complex_header res with
          | Some h => String.eqb h "true"
          | None => false
          end in
        if isComplexMode then
          let '(parts, final) :=
            readDataStream (fun _ => negb (is_some abortController)) reader in
          let '(result_, calls, datas) := complex_loop parts "" [] [] in
          match final with
          | Failed e => Err e
          | _ =>
              Ok {| returned := None; setCompletion_calls := calls;
                    onFinish_calls := [];
                    onData_calls := if onData then datas else [] |}
          end
        else
          let aborted :=
            match abortController with
            | Some f => f
            | None => fun _ => false
            end in
          let '(result_, calls) := raw_loop aborted 0 reader "" "" [] in
          Ok {| returned := Some result_; setCompletion_calls := calls;
                onFinish_calls := if onFinish then [(prompt, result_)] else [];
                onData_calls := [] |}
    end.

(** The chunks the raw-text loop consumes: those up to and including the
    first after which the request is found aborted. *)
Fixpoint consumed (aborted : nat -> bool) (i : nat) (reads : list string)
  : list string :=
  match reads with
  | [] => []
  | value :: rest =>
      value :: (if aborted i then [] else consumed aborted (S i) rest)
  end.

(** [c1 + (c1+c2) + ... + (c1+...+cn)] *)
Definition running_prefixes (cs : list string) : list string :=
  map (fun k => String.concat "" (firstn k cs)) (seq 1 (List.length cs)).

Definition sum_of_running_prefixes (cs : list string) : string :=
  String.concat "" (running_prefixes cs).

Definition raw_response (body : list string) : Response :=
  {| res_ok := true; res_text := ""; res_body := Some body;
     res_complex_header := None |}.

(** [c1 + (c1+c2) + ... + (c1+...+ck)], the completion after [k] chunks. *)
Definition partial_sum (cs : list string) (k : nat) : string :=
  String.concat "" (map (fun j => String.concat "" (firstn j cs)) (seq 1 k)).

(** The same with what was accumulated before: [sr] in front of every
    prefix. *)
Definition partial_sum_from (sr : string) (cs : list string) (k : nat) : string :=
  String.concat "" (map (fun j => sr ++ String.concat "" (firstn j cs)) (seq 1 k)).

(** The runs of the examples. *)
Definition ex_chained_run : StreamRun :=
  OpenAIStream 3 ex_call_chunks (with_function_handler false chaining_handler).

Definition ex_empty_continuation_run : StreamRun :=
  OpenAIStream 3 ex_call_chunks
               (with_function_handler false empty_continuation_handler).

(** The final-hook calls among hook events. *)
Definition finals_of (hs : list HookEvent) : list string :=
  flat_map (fun e => match e with EvFinal s => [s] | _ => [] end) hs.

(** ** More of [shared/utils.ts] *)

(** [createChunkDecoder(true)] applied to a chunk: the parts of its
    non-empty lines. *)
Definition createChunkDecoder_complex (chunk : string) : result (list StreamPart) :=
  mapM parseStreamPart
       (filter (fun line => negb (String.eqb line "")) (split_on NEWLINE chunk)).

(** [isStreamStringEqualToType(type, value)]; the prefix of a name that is
    not in the table is the text of [undefined]. *)
Definition isStreamStringEqualToType (type : string) (value : string) : bool :=
  let prefix := match StreamStringPrefixes type with
                | Some c => c
                | None => "undefined"
                end in
  startsWith value (prefix ++ ":") && ends_with_newline value.

(** The encoding of a sequence of parts, one line each. *)
Definition formatStreamParts (items : list (string * json)) : result (list string) :=
  mapM (fun it => formatStreamPart (fst it) (snd it)) items.

(** ** What a pass of the reconstructor accumulates *)

(** The contribution of one part to the text, to the data channel and to
    the annotation channel. *)
Definition part_text_value (p : StreamPart) : string :=
  if String.eqb (type p) "text"
  then match value p with JStr s => s | _ => "" end
  else "".

Definition part_data_values (p : StreamPart) : list json :=
  if String.eqb (type p) "data"
  then match value p with JArr xs => xs | _ => [] end
  else [].

Definition part_annotation_values (p : StreamPart) : list json :=
  if String.eqb (type p) "message_annotations"
  then match value p with JArr xs => xs | _ => [] end
  else [].

Definition text_of (parts : list StreamPart) : string :=
  String.concat "" (map part_text_value parts).

Definition data_of (parts : list StreamPart) : list json :=
  flat_map part_data_values parts.

Definition annotations_of (parts : list StreamPart) : list json :=
  flat_map part_annotation_values parts.

(** The content of the text accumulator, [""] while there is none. *)
Definition text_content (st : pcr_state) : string :=
  match pm_text (prefixMap st) with
  | Some m => m_content m
  | None => ""
  end.

(** The annotation channel, [[]] while it is [undefined]. *)
Definition snapshot (st : pcr_state) : list json :=
  match message_annotations st with
  | Some a => a
  | None => []
  end.

(** Parts of the examples. *)
Definition ex_annotated_pass : list StreamPart :=
  [ ex_text_part "abc";
    {| type := "message_annotations"; value := JArr [JStr "A"] |};
    ex_function_call_part "f";
    {| type := "data"; value := JArr [JNum 1; JNum 2] |};
    {| type := "message_annotations"; value := JArr [JStr "B"] |};
    ex_text_part "def" ].

Definition ex_annotated_run : pcr_state * list Update :=
  Eval vm_compute in
    match pcr_run ex_generateId 0 pcr_init ex_annotated_pass with
    | Ok r => r
    | Err _ => (pcr_init, [])
    end.

(** ** A server session ([streams/streaming-text-response.ts])

    What the application does while its response streams: it appends a
    value to the side-channel buffer, appends an annotation, or the model
    delivers a text unit. *)
Inductive server_op : Type :=
| SAppend (v : json)
| SAnnotate (v : json)
| SUnit (text : string).

(** The buffer's [transform] run over chunks in turn. *)
Fixpoint StreamData_transform_all (chunks : list string) (self : StreamData)
  : result (list string) * StreamData :=
  match chunks with
  | [] => (Ok [], self)
  | chunk :: rest =>
      match StreamData_transform chunk self with
      | (Ok q1, self1) =>
          match StreamData_transform_all rest self1 with
          | (Ok q2, self2) => (Ok (q1 ++ q2)%list, self2)
          | (Err e, self2) => (Err e, self2)
          end
      | (Err e, self1) => (Err e, self1)
      end
  end.

(** The chunks that leave [res.pipeThrough(data.stream)] while the
    operations happen, [res] being a provider stream with
    [experimental_streamData] set: a text unit goes through
    [createStreamDataTransformer] and then through the buffer's stream. *)
Fixpoint server_run (ops : list server_op) (self : StreamData)
  : result (list string) * StreamData :=
  match ops with
  | [] => (Ok [], self)
  | SAppend v :: rest =>
      match append v self with
      | (Ok _, self1) => server_run rest self1
      | (Err e, self1) => (Err e, self1)
      end
  | SAnnotate v :: rest =>
      match appendMessageAnnotation v self with
      | (Ok _, self1) => server_run rest self1
      | (Err e, self1) => (Err e, self1)
      end
  | SUnit text :: rest =>
      match createStreamDataTransformer true text with
      | Ok chunks =>
          match StreamData_transform_all chunks self with
          | (Ok q1, self1) =>
              match server_run rest self1 with
              | (Ok q2, self2) => (Ok (q1 ++ q2)%list, self2)
              | (Err e, self2) => (Err e, self2)
              end
          | (Err e, self1) => (Err e, self1)
          end
      | Err e => (Err e, self)
      end
  end.

(** The whole body of a [StreamingTextResponse(res, init, data)]: the
    operations, then [data.close()], then the stream ends and [flush] runs.
    [None]: the stream hangs in [flush]. *)
Definition server_session (ops : list server_op) : option (result (list string)) :=
  match server_run ops (StreamData_start new_StreamData) with
  | (Err e, _) => Some (Err e)
  | (Ok q1, self1) =>
      match close self1 with
      | (Err e, _) => Some (Err e)
      | (Ok _, self2) =>
          match StreamData_flush self2 with
          | None => None
          | Some (Err e) => Some (Err e)
          | Some (Ok q2) => Some (Ok (q1 ++ q2)%list)
          end
      end
  end.

(** The same without [data.close()]. *)
Definition server_session_unclosed (ops : list server_op)
  : option (result (list string)) :=
  match server_run ops (StreamData_start new_StreamData) with
  | (Err e, _) => Some (Err e)
  | (Ok q1, self1) =>
      match StreamData_flush self1 with
      | None => None
      | Some (Err e) => Some (Err e)
      | Some (Ok q2) => Some (Ok (q1 ++ q2)%list)
      end
  end.

(** The header [X-Experimental-Stream-Data] of a [StreamingTextResponse]:
    ["true"] with a [data] argument, ["false"] without, unless
    [init.headers] sets it. *)
Definition StreamingTextResponse_header (has_data : bool)
           (init_header : option string) : string :=
  match init_header with
  | Some h => h
  | None => if has_data then "true" else "false"
  end.

(** The response the client receives for a body. *)
Definition StreamingTextResponse (body : list string) (has_data : bool) : Response :=
  {| res_ok := true; res_text := "";
     res_body := Some body;
     res_complex_header := Some (StreamingTextResponse_header has_data None) |}.

Definition appended_values (ops : list server_op) : list json :=
  flat_map (fun op => match op with SAppend v => [v] | _ => [] end) ops.

Definition annotated_values (ops : list server_op) : list json :=
  flat_map (fun op => match op with SAnnotate v => [v] | _ => [] end) ops.

Definition unit_texts (ops : list server_op) : list string :=
  flat_map (fun op => match op with SUnit t => [t] | _ => [] end) ops.

Definition op_wf (op : server_op) : bool :=
  match op with
  | SAppend v | SAnnotate v => json_wf v
  | SUnit _ => true
  end.

(** The parts a session puts on the wire, given what is pending. *)
Definition pending_items (d a : list json) : list (StreamPartType * json) :=
  ((if nonempty d then [(dataStreamPart, JArr d)] else [])
   ++ (if nonempty a then [(messageAnnotationsStreamPart, JArr a)] else []))%list.

Fixpoint session_items (ops : list server_op) (d a : list json)
  : list (StreamPartType * json) :=
  match ops with
  | [] => pending_items d a
  | SAppend v :: rest => session_items rest (d ++ [v]) a
  | SAnnotate v :: rest => session_items rest d (a ++ [v])
  | SUnit t :: rest =>
      (pending_items d a ++ (textStreamPart, JStr t) :: session_items rest [] [])%list
  end.

Definition item_part (it : StreamPartType * json) : StreamPart :=
  {| type := name (fst it); value := snd it |}.

(** The elements of the arrays passed to [onData]. *)
Definition array_elements (vs : list json) : list json :=
  flat_map (fun v => match v with JArr xs => xs | _ => [] end) vs.

(** A text part (its value is a string). *)
Definition is_text_part (p : StreamPart) : bool :=
  String.eqb (type p) "text" && is_string (Some (value p)).

Definition count_text (parts : list StreamPart) : nat :=
  List.length (filter is_text_part parts).

Definition data_values (parts : list StreamPart) : list json :=
  map value (filter (fun p => String.eqb (type p) "data") parts).

(** A session of the examples. *)
Definition ex_session : list server_op :=
  [SAppend (JNum 1); SUnit "Hi"; SAnnotate (JStr "A"); SAppend (JNum 2);
   SAppend (JNum 3); SUnit " there"; SAppend (JNum 4)].

(** The line an item travels as. *)
Definition item_line (it : StreamPartType * json) : string :=
  part_line (fst it) (snd it).

(** An item of the part table that is well formed and that the client
    decodes to the part of its kind with its value. *)
Definition item_ok (it : StreamPartType * json) : Prop :=
  In (fst it) streamParts /\ json_wf (snd it) = true
  /\ parse (fst it) (snd it) = Ok (item_part it).

(** The parts a session gives rise to: text, data and annotation parts. *)
Definition session_part (p : StreamPart) : Prop :=
  (exists s, p = {| type := "text"; value := JStr s |})
  \/ (exists xs, p = {| type := "data"; value := JArr xs |})
  \/ (exists xs, p = {| type := "message_annotations"; value := JArr xs |}).

(** ** The interceptor on text *)

(** What the interceptor enqueues for a unit it forwards. *)
Definition forwarded_unit (isComplexMode : bool) (message : string) : string :=
  if isComplexMode then part_line textStreamPart (JStr message) else message.



(** ** The OpenAI text extractor ([streams/openai-stream.ts])

    The chunks of a chat or text completion, with the fields this code
    reads.  A field that is absent, [undefined] or [null] is [None]. *)

(** [delta.function_call], [toolCall.function] *)
Record FunctionDelta : Type := mkFunctionDelta {
  fd_name : option string;
  fd_arguments : option string
}.

Record ToolCallDelta : Type := mkToolCallDelta {
  td_index : Z;
  td_id : option string;
  td_function : option FunctionDelta
}.

Record Delta : Type := mkDelta {
  d_content : option string;
  d_function_call : option FunctionDelta;
  d_tool_calls : option (list ToolCallDelta)
}.

(** [choices[0]]: a chat chunk has [delta], a text completion has [text]. *)
Record Choice : Type := mkChoice {
  c_delta : option Delta;
  c_text : option string;
  c_finish_reason : option string
}.

Record Chunk : Type := mkChunk {
  choices : list Choice
}.

(** [s.replace(/c/g, by)] for a pattern of one character. *)
Fixpoint replace_all (c : ascii) (by_ : string) (s : string) : string :=
  match s with
  | EmptyString => ""
  | String x r =>
      (if Ascii.eqb x c then by_ else String x "") ++ replace_all c by_ r
  end.

Definition cleanupArguments (argumentChunk : string) : string :=
  let escapedPartialJson :=
    replace_all "012" (String backslash "f")
      (replace_all "009" (String backslash "t")
         (replace_all "013" (String backslash "r")
            (replace_all NEWLINE (String backslash "n")
               (replace_all dquote (String backslash (String dquote ""))
                  (replace_all "/" (String backslash "/")
                     (replace_all backslash (String backslash (String backslash ""))
                        argumentChunk)))))) in
  escapedPartialJson.

(** The white space of [trimStart] on UTF-8 text: the one-byte characters
    TAB, LF, VT, FF, CR and SP, U+00A0, and the three-byte characters
    U+1680, U+2000..U+200A, U+2028, U+2029, U+202F, U+205F, U+3000 and
    U+FEFF. *)
Definition is_space1 (c : ascii) : bool :=
  let n := nat_of_ascii c in
  ((9 <=? n) && (n <=? 13) || (n =? 32))%nat.

Definition is_space2 (a b : ascii) : bool :=
  ((nat_of_ascii a =? 194) && (nat_of_ascii b =? 160))%nat.

Definition is_space3 (a b c : ascii) : bool :=
  let x := nat_of_ascii a in
  let y := nat_of_ascii b in
  let z := nat_of_ascii c in
  ((x =? 225) && (y =? 154) && (z =? 128)
   || (x =? 226) && (y =? 128)
      && ((128 <=? z) && (z <=? 138) || (z =? 168) || (z =? 169) || (z =? 175))
   || (x =? 226) && (y =? 129) && (z =? 159)
   || (x =? 227) && (y =? 128) && (z =? 128)
   || (x =? 239) && (y =? 187) && (z =? 191))%nat.

Fixpoint trimStart (s : string) : string :=
  match s with
  | EmptyString => ""
  | String a r =>
      if is_space1 a then trimStart r
      else
        match r with
        | String b r2 =>
            if is_space2 a b then trimStart r2
            else
              match r2 with
              | String c r3 => if is_space3 a b c then trimStart r3 else s
              | EmptyString => s
              end
        | EmptyString => s
        end
  end.

(** The closure variables of [chunkToText] ([isStreamStart] is the one of
    [trimStartOfStreamHelper]). *)
Record extract_state : Type := mkExtract {
  isStreamStart : bool;
  ex_isFunctionStreamingIn : bool
}.

Definition extract_init : extract_state :=
  {| isStreamStart := true; ex_isFunctionStreamingIn := false |}.

(** The function returned by [trimStartOfStreamHelper()]. *)
Definition trimStartOfStream (st : extract_state) (text : string)
  : string * extract_state :=
  if isStreamStart st then
    let text := trimStart text in
    (text,
     {| isStreamStart := if String.eqb text "" then true else false;
        ex_isFunctionStreamingIn := ex_isFunctionStreamingIn st |})
  else (text, st).

(** Truthiness of a string that may be missing. *)
Definition given (s : option string) : bool :=
  match s with
  | Some s => negb (String.eqb s "")
  | None => false
  end.

(** A value interpolated in a template literal. *)
Definition interpolate (s : option string) : string :=
  match s with
  | Some s => s
  | None => "undefined"
  end.

Definition is_reason (r : option string) (s : string) : bool :=
  match r with
  | Some r => String.eqb r s
  | None => false
  end.

Definition set_streaming (st : extract_state) (b : bool) : extract_state :=
  {| isStreamStart := isStreamStart st; ex_isFunctionStreamingIn := b |}.

(** [fn?.name], [fn?.arguments] *)
Definition name_of (fn : option FunctionDelta) : option string :=
  match fn with Some f => fd_name f | None => None end.

Definition arguments_of (fn : option FunctionDelta) : option string :=
  match fn with Some f => fd_arguments f | None => None end.

(** The function returned by [chunkToText()]: the text of a chunk and the
    variables afterwards. *)
Definition chunkToText (st : extract_state) (json : Chunk)
  : result (string * extract_state) :=
  let choice0 := hd_error (choices json) in
  let text_path :=
    let raw :=
      match choice0 with
      | Some choice =>
          match c_delta choice with
          | Some delta =>
              if given (d_content delta) then interpolate (d_content delta)
              else match c_text choice with Some t => t | None => "" end
          | None => match c_text choice with Some t => t | None => "" end
          end
      | None => ""
      end in
    Ok (trimStartOfStream st raw) in
  match choice0 with
  | Some choice =>
      match c_delta choice with
      | Some delta =>
          let tool0 :=
            match d_tool_calls delta with
            | Some (t :: _) => Some t
            | _ => None
            end in
          if given (name_of (d_function_call delta)) then
            Ok ((dq "{'function_call': {'name': '"
                 ++ interpolate (name_of (d_function_call delta))
                 ++ dq "', 'arguments': '")%string,
                set_streaming st true)
          else if given (name_of (match tool0 with
                                  | Some t => td_function t
                                  | None => None
                                  end)) then
            match tool0 with
            | Some toolCall =>
                Ok (((if Z.eqb (td_index toolCall) 0
                      then dq "{'tool_calls':[ {'id': '"
                      else dq "'}}, {'id': '")
                     ++ interpolate (td_id toolCall)
                     ++ dq "', 'type': 'function', 'function': {'name': '"
                     ++ interpolate (name_of (td_function toolCall))
                     ++ dq "', 'arguments': '")%string,
                    set_streaming st true)
            | None => text_path
            end
          else if given (arguments_of (d_function_call delta)) then
            Ok (cleanupArguments
                  (interpolate (arguments_of (d_function_call delta))), st)
          else
            match d_tool_calls delta with
            | Some [] => Err "TypeError"
            | _ =>
                if given (arguments_of (match tool0 with
                                        | Some t => td_function t
                                        | None => None
                                        end)) then
                  Ok (cleanupArguments
                        (interpolate
                           (arguments_of (match tool0 with
                                          | Some t => td_function t
                                          | None => None
                                          end))), st)
                else if ex_isFunctionStreamingIn st
                        && (is_reason (c_finish_reason choice) "function_call"
                            || is_reason (c_finish_reason choice) "stop") then
                  Ok (dq "'}}", set_streaming st false)
                else if ex_isFunctionStreamingIn st
                        && is_reason (c_finish_reason choice) "tool_calls" then
                  Ok (dq "'}}]}", set_streaming st false)
                else text_path
            end
      | None => text_path
      end
  | None => text_path
  end.

(** The loop of [streamable] over chunks that carry no
    [promptFilterResults]: the texts it yields. *)
Fixpoint streamable (st : extract_state) (stream : list Chunk)
  : result (list string) :=
  match stream with
  | [] => Ok []
  | chunk :: rest =>
      r <- chunkToText st chunk ;;
      let '(text, st1) := r in
      texts <- streamable st1 rest ;;
      Ok (if String.eqb text "" then texts else text :: texts)
  end.





(** A character [cleanupArguments] leaves readable inside a JSON string:
    any but the control characters it does not escape. *)
Definition argument_char (c : ascii) : bool :=
  let n := nat_of_ascii c in
  ((32 <=? n) || (n =? 9) || (n =? 10) || (n =? 12) || (n =? 13))%nat.

Fixpoint argument_text (s : string) : bool :=
  match s with
  | EmptyString => true
  | String c r => argument_char c && argument_text r
  end.





(** A chat chunk that only carries content. *)
Definition content_chunk (content : string) : Chunk :=
  {| choices :=
       [{| c_delta := Some {| d_content := Some content; d_function_call := None;
                              d_tool_calls := None |};
           c_text := None; c_finish_reason := None |}] |}.

(** The chunks after the leading ones that are only white space. *)
Fixpoint drop_blank (contents : list string) : list string :=
  match contents with
  | [] => []
  | c :: rest => if String.eqb (trimStart c) "" then drop_blank rest else contents
  end.

Definition nonempty_texts (texts : list string) : list string :=
  filter (fun t => negb (String.eqb t "")) texts.















(** ** The Anthropic event parser ([streams/anthropic-stream.ts])

    The data of an event after [JSON.parse], with the fields this code
    reads: an object with [error], an object with a [completion] string,
    or an object with neither. *)
Inductive AnthropicData : Type :=
| AnthropicError (type_ message : string)
| AnthropicCompletion (completion : string)
| AnthropicOther.

(** The function returned by [parseAnthropicStream()]: what it returns
    ([None] is [undefined]) and [previous] afterwards. *)
Definition parseAnthropicStream (previous : string) (json : AnthropicData)
  : result (option string * string) :=
  match json with
  | AnthropicError type_ message => Err (type_ ++ ": " ++ message)
  | AnthropicOther => Ok (None, previous)
  | AnthropicCompletion text =>
      if String.eqb previous ""
         || ((String.length previous <? String.length text)%nat
             && startsWith text previous)
      then
        let delta := slice_from (String.length previous) text in
        Ok (Some delta, text)
      else Ok (Some text, previous)
  end.

(** The messages the event stage enqueues for a sequence of events: the
    return values that are not falsy. *)
Fixpoint anthropic_units (previous : string) (events : list AnthropicData)
  : result (list string) :=
  match events with
  | [] => Ok []
  | e :: rest =>
      r <- parseAnthropicStream previous e ;;
      let '(parsedMessage, previous1) := r in
      units <- anthropic_units previous1 rest ;;
      Ok (if given parsedMessage then interpolate parsedMessage :: units else units)
  end.

(** The completions of a response that grows by the given fragments. *)
Fixpoint cumulative (sofar : string) (fragments : list string) : list string :=
  match fragments with
  | [] => []
  | f :: rest => (sofar ++ f)%string :: cumulative (sofar ++ f) rest
  end.

(** ** The assistant response ([streams/assistant-response.ts]) *)

(** What [process] does with the functions it is given. *)
Inductive assistant_call : Type :=
| SendMessage (message : json)
| SendDataMessage (message : json).

(** The chunks enqueued by [start]: [process] makes the calls and then
    returns, or throws an error with the given message. *)
Definition experimental_AssistantResponse (threadId messageId : string)
           (calls : list assistant_call) (thrown : option string)
  : result (list string) :=
  control <- formatStreamPart "assistant_control_data"
               (JObj [("threadId", JStr threadId); ("messageId", JStr messageId)]) ;;
  sent <- mapM (fun c =>
                  match c with
                  | SendMessage message =>
                      formatStreamPart "assistant_message" message
                  | SendDataMessage message =>
                      formatStreamPart "data_message" message
                  end) calls ;;
  failed <- match thrown with
            | Some errorMessage =>
                line <- formatStreamPart "error" (JStr errorMessage) ;; Ok [line]
            | None => Ok []
            end ;;
  Ok (control :: sent ++ failed)%list.

(** The part a call is decoded to, and the messages a client accepts. *)
Definition call_part (c : assistant_call) : StreamPart :=
  match c with
  | SendMessage message => {| type := "assistant_message"; value := message |}
  | SendDataMessage message => {| type := "data_message"; value := message |}
  end.

Definition call_ok (c : assistant_call) : bool :=
  match c with
  | SendMessage message =>
      json_wf message && spec_shape "assistant_message" message
  | SendDataMessage message =>
      json_wf message && spec_shape "data_message" message
  end.

Definition call_item (c : assistant_call) : StreamPartType * json :=
  match c with
  | SendMessage message => (assistantMessageStreamPart, message)
  | SendDataMessage message => (dataMessageStreamPart, message)
  end.

Definition ex_assistant_message : json :=
  JObj [("id", JStr "m1"); ("role", JStr "assistant");
        ("content", JArr [JObj [("type", JStr "text");
                                ("text", JObj [("value", JStr "Hello")])]])].
Example stringify_ex1 :
  stringify ex_json_1 =
  dq "{'a':10,'b':['x\'y',null,true,-42],'c':{},'d':[],'e':'\n\u0001z'}".
Proof. vm_compute. reflexivity. Qed.

Example parse_ex1 :
  JSON_parse (stringify ex_json_1 ++ String NEWLINE "") = Some ex_json_1.
Proof. vm_compute. reflexivity. Qed.

Example parse_ex2 :
  JSON_parse (dq " { 'a' : [ 1 , 2 ] , 'a' : 'z' , 'b' : 0 } ") =
  Some (JObj [("a", JStr "z"); ("b", JNum 0)]).
Proof. vm_compute. reflexivity. Qed.

Example parse_ex3 : JSON_parse "01" = None /\ JSON_parse "[1,]" = None /\ JSON_parse "1.5" = None.
Proof. vm_compute. auto. Qed.

(** ** Strings: basic facts *)

Lemma append_assoc (a b c : string) : (a ++ b) ++ c = a ++ (b ++ c).
Proof. induction a as [|x a IH]; simpl; [reflexivity | now rewrite IH]. Qed.

Lemma append_nil_r (a : string) : a ++ "" = a.
Proof. induction a as [|x a IH]; simpl; [reflexivity | now rewrite IH]. Qed.

Lemma length_append (a b : string) :
  String.length (a ++ b) = String.length a + String.length b.
Proof. induction a as [|x a IH]; simpl; [reflexivity | now rewrite IH]. Qed.

(** ** [JSON.parse] reads back what [JSON.stringify] wrote *)

Lemma parse_string_body_escape_char (c : ascii) (tail : string) :
  parse_string_body (escape_char c ++ tail) = cons_char c (parse_string_body tail).
Proof.
  destruct c as [[] [] [] [] [] [] [] []]; reflexivity.
Qed.

Lemma parse_string_body_escape (s rest : string) :
  parse_string_body (escape s ++ String dquote rest) = Some (s, rest).
Proof.
  induction s as [|c s IH]; simpl.
  - reflexivity.
  - rewrite append_assoc, parse_string_body_escape_char, IH. reflexivity.
Qed.

Lemma parse_string_body_quote (s rest : string) :
  exists body, quote s ++ rest = String dquote body
               /\ parse_string_body body = Some (s, rest).
Proof.
  exists (escape s ++ String dquote rest). split.
  - unfold quote. simpl. now rewrite append_assoc.
  - apply parse_string_body_escape.
Qed.

Lemma span_digits_string_of_uint (d : Decimal.uint) (rest : string) :
  starts_with_digit rest = false ->
  span_digits (NilEmpty.string_of_uint d ++ rest) = (NilEmpty.string_of_uint d, rest).
Proof.
  intros Hrest. induction d; simpl; try (rewrite IHd; reflexivity).
  destruct rest as [|c r]; simpl in *; [reflexivity | now rewrite Hrest].
Qed.

Lemma parse_nat_lit_string_of_uint (d : Decimal.uint) (rest : string) :
  no_leading_zero d -> num_follow_ok rest = true ->
  parse_nat_lit (NilEmpty.string_of_uint d ++ rest) = Some (d, rest).
Proof.
  intros [Hnil Hz] Hf. unfold num_follow_ok in Hf.
  apply andb_true_iff in Hf. destruct Hf as [Hd Hp].
  apply negb_true_iff in Hd. apply negb_true_iff in Hp.
  unfold parse_nat_lit. rewrite span_digits_string_of_uint by exact Hd.
  pose proof (NilEmpty.usu d) as Husu.
  destruct d; try congruence;
    try (cbn [NilEmpty.string_of_uint] in *; cbn [Ascii.eqb Bool.eqb andb];
         rewrite Hp, Husu; reflexivity).
  rewrite (Hz d eq_refl) in *.
  cbn [NilEmpty.string_of_uint] in *. cbn. rewrite Hp. reflexivity.
Qed.

Lemma to_uint_no_leading_zero (p : positive) : no_leading_zero (Pos.to_uint p).
Proof.
  split.
  - apply DecimalPos.Unsigned.to_uint_nonnil.
  - intros d' Hd'.
    assert (Hn : Decimal.unorm (Pos.to_uint p) = Pos.to_uint p).
    { rewrite <- (DecimalPos.Unsigned.to_of (Pos.to_uint p)).
      rewrite DecimalPos.Unsigned.of_to. reflexivity. }
    assert (Hh : Decimal.nzhead (Pos.to_uint p) <> Decimal.Nil).
    { intros E. apply DecimalFacts.unorm_0 in E. rewrite Hn in E.
      exact (DecimalPos.Unsigned.to_uint_nonzero p E). }
    rewrite (DecimalFacts.unorm_nzhead _ Hh) in Hn.
    exfalso. apply (DecimalFacts.nzhead_nonzero (Pos.to_uint p) d').
    now rewrite Hn.
Qed.

Lemma string_of_uint_head (d : Decimal.uint) :
  d <> Decimal.Nil ->
  exists c r, NilEmpty.string_of_uint d = String c r /\ is_digit c = true.
Proof.
  destruct d; try congruence; intros _; simpl; eexists; eexists; split;
    reflexivity.
Qed.

Lemma parse_number_unsigned (c : ascii) (r : string) :
  is_digit c = true ->
  parse_number (String c r) =
  match parse_nat_lit (String c r) with
  | Some (u, rest) => Some (JNum (Z.of_int (Decimal.Pos u)), rest)
  | None => None
  end.
Proof.
  intros Hc. unfold parse_number.
  destruct (Ascii.eqb_spec c "-") as [->|_]; [discriminate Hc | reflexivity].
Qed.

Lemma parse_number_print_int (z : Z) (rest : string) :
  num_follow_ok rest = true ->
  parse_number (print_int z ++ rest) = Some (JNum z, rest).
Proof.
  intros Hf. unfold print_int.
  pose proof (DecimalZ.of_to z) as Hz.
  destruct z as [|p|p]; cbn [Z.to_int NilZero.string_of_int] in *.
  - change (NilZero.string_of_uint Decimal.zero) with (NilEmpty.string_of_uint (Decimal.D0 Decimal.Nil)).
    assert (Hn : no_leading_zero (Decimal.D0 Decimal.Nil)).
    { split; [discriminate | now intros d' [= <-]]. }
    change (NilEmpty.string_of_uint (Decimal.D0 Decimal.Nil) ++ rest)
      with (String "0" rest) at 1.
    rewrite parse_number_unsigned by reflexivity.
    change (String "0" rest)
      with (NilEmpty.string_of_uint (Decimal.D0 Decimal.Nil) ++ rest).
    rewrite parse_nat_lit_string_of_uint by assumption. reflexivity.
  - pose proof (to_uint_no_leading_zero p) as Hn.
    assert (He : NilZero.string_of_uint (Pos.to_uint p)
                 = NilEmpty.string_of_uint (Pos.to_uint p)).
    { destruct Hn as [Hn _]. now destruct (Pos.to_uint p). }
    rewrite He.
    destruct (string_of_uint_head _ (proj1 Hn)) as (c & r & Hs & Hc).
    pose proof (parse_nat_lit_string_of_uint _ rest Hn Hf) as Hp.
    rewrite Hs in *. cbn [String.append] in *.
    rewrite parse_number_unsigned by exact Hc.
    rewrite Hp, Hz. reflexivity.
  - pose proof (to_uint_no_leading_zero p) as Hn.
    assert (He : NilZero.string_of_uint (Pos.to_uint p)
                 = NilEmpty.string_of_uint (Pos.to_uint p)).
    { destruct Hn as [Hn _]. now destruct (Pos.to_uint p). }
    rewrite He. cbn [String.append parse_number].
    change (Ascii.eqb "-" "-") with true. cbv iota.
    rewrite parse_nat_lit_string_of_uint by assumption.
    rewrite Hz. reflexivity.
Qed.

Lemma print_int_head (z : Z) :
  exists c r, print_int z = String c r
              /\ (is_digit c = true \/ c = "-"%char).
Proof.
  unfold print_int. destruct z as [|p|p]; cbn [Z.to_int NilZero.string_of_int].
  - exists "0"%char, "". split; [reflexivity | now left].
  - pose proof (to_uint_no_leading_zero p) as [Hn _].
    destruct (string_of_uint_head _ Hn) as (c & r & Hs & Hc).
    exists c, r. split; [|now left].
    rewrite <- Hs. now destruct (Pos.to_uint p).
  - eexists; eexists; split; [reflexivity | now right].
Qed.

Lemma json_size_pos (v : json) : 1 <= json_size v.
Proof. destruct v; simpl; lia. Qed.

(** *** Objects without duplicate names are read member by member *)

Lemma has_member_app (k : string) (a b : list (string * json)) :
  has_member k (a ++ b)%list = has_member k a || has_member k b.
Proof.
  unfold has_member. induction a as [|[k' v'] a IH]; simpl.
  - reflexivity.
  - destruct (String.eqb k k'); [reflexivity | exact IH].
Qed.

Lemma obj_set_fresh (acc : list (string * json)) (k : string) (v : json) :
  has_member k acc = false -> obj_set acc k v = (acc ++ [(k, v)])%list.
Proof.
  unfold has_member. induction acc as [|[k' v'] acc IH]; simpl; intros H.
  - reflexivity.
  - destruct (String.eqb k k'); [discriminate H | now rewrite IH].
Qed.

Lemma fold_obj_set_nodup (ms acc : list (string * json)) :
  nodup_keys ms = true ->
  (forall k, has_member k ms = true -> has_member k acc = false) ->
  fold_left (fun a kv => obj_set a (fst kv) (snd kv)) ms acc = (acc ++ ms)%list.
Proof.
  revert acc. induction ms as [|[k v] ms IH]; intros acc Hnd Hfresh; simpl.
  - now rewrite List.app_nil_r.
  - simpl in Hnd. apply andb_true_iff in Hnd. destruct Hnd as [Hk Hnd].
    apply negb_true_iff in Hk.
    rewrite obj_set_fresh.
    + rewrite IH; [now rewrite <- List.app_assoc | exact Hnd |].
      intros k' Hk'. rewrite has_member_app.
      rewrite Hfresh.
      * unfold has_member at 1. simpl.
        destruct (String.eqb_spec k' k) as [->|_]; [congruence | reflexivity].
      * unfold has_member. simpl.
        destruct (String.eqb k' k); [reflexivity | exact Hk'].
    + apply Hfresh. unfold has_member. simpl. now rewrite String.eqb_refl.
Qed.

Lemma members_to_object_nodup (ms : list (string * json)) :
  nodup_keys ms = true -> members_to_object ms = ms.
Proof.
  intros H. unfold members_to_object.
  rewrite fold_obj_set_nodup; [reflexivity | exact H | reflexivity].
Qed.

(** *** One step of each reader *)

Lemma skip_ws_nonws (c : ascii) (r : string) :
  is_ws c = false -> skip_ws (String c r) = String c r.
Proof. intros H. simpl. now rewrite H. Qed.

Lemma parse_value_str (f : nat) (r : string) :
  parse_value (S f) (String dquote r) =
  match parse_string_body r with
  | Some (str, r') => Some (JStr str, r')
  | None => None
  end.
Proof. reflexivity. Qed.

Lemma parse_value_arr_nonempty (f : nat) (t : string) (c : ascii) (R : string) :
  t = String c R -> is_ws c = false -> Ascii.eqb c "]" = false ->
  parse_value (S f) (String "[" t) =
  match parse_elems f t with
  | Some (l, r) => Some (JArr l, r)
  | None => None
  end.
Proof.
  intros E Hws Hc.
  change (parse_value (S f) (String "[" t))
    with (match skip_ws t with
          | String c' r' =>
              if Ascii.eqb c' "]" then Some (JArr [], r')
              else match parse_elems f t with
                   | Some (l, r'') => Some (JArr l, r'')
                   | None => None
                   end
          | EmptyString => None
          end).
  rewrite E at 1. rewrite skip_ws_nonws by exact Hws. now rewrite Hc.
Qed.

Lemma parse_value_obj_nonempty (f : nat) (t : string) (c : ascii) (R : string) :
  t = String c R -> is_ws c = false -> Ascii.eqb c "}" = false ->
  parse_value (S f) (String "{" t) =
  match parse_members f t with
  | Some (ms, r) => Some (JObj (members_to_object ms), r)
  | None => None
  end.
Proof.
  intros E Hws Hc.
  change (parse_value (S f) (String "{" t))
    with (match skip_ws t with
          | String c' r' =>
              if Ascii.eqb c' "}" then Some (JObj [], r')
              else match parse_members f t with
                   | Some (ms, r'') => Some (JObj (members_to_object ms), r'')
                   | None => None
                   end
          | EmptyString => None
          end).
  rewrite E at 1. rewrite skip_ws_nonws by exact Hws. now rewrite Hc.
Qed.

Lemma parse_value_num (f : nat) (c : ascii) (r : string) :
  is_digit c = true \/ c = "-"%char ->
  parse_value (S f) (String c r) = parse_number (String c r).
Proof.
  destruct c as [[] [] [] [] [] [] [] []]; intros [H|H];
    try discriminate H; reflexivity.
Qed.

Lemma parse_elems_last (f : nat) (s : string) (v : json) (r : string) :
  parse_value f s = Some (v, String "]" r) ->
  parse_elems (S f) s = Some ([v], r).
Proof. intros H. cbn [parse_elems]. rewrite H. reflexivity. Qed.

Lemma parse_elems_more (f : nat) (s : string) (v : json) (r : string) :
  parse_value f s = Some (v, String "," r) ->
  parse_elems (S f) s =
  match parse_elems f r with
  | Some (vs, r') => Some (v :: vs, r')
  | None => None
  end.
Proof. intros H. cbn [parse_elems]. rewrite H. reflexivity. Qed.

Lemma parse_members_key (f : nat) (k r2 : string) :
  parse_members (S f) (quote k ++ String ":" r2) =
  match parse_value f r2 with
  | Some (v, r3) =>
      match skip_ws r3 with
      | String c' r4 =>
          if Ascii.eqb c' "," then
            match parse_members f r4 with
            | Some (ms, r5) => Some ((k, v) :: ms, r5)
            | None => None
            end
          else if Ascii.eqb c' "}" then Some ([(k, v)], r4)
          else None
      | EmptyString => None
      end
  | None => None
  end.
Proof.
  destruct (parse_string_body_quote k (String ":" r2)) as (body & E & P).
  rewrite E.
  change (parse_members (S f) (String dquote body))
    with (match parse_string_body body with
          | Some (k, r1) =>
              match skip_ws r1 with
              | String c r2 =>
                  if Ascii.eqb c ":" then
                    match parse_value f r2 with
                    | Some (v, r3) =>
                        match skip_ws r3 with
                        | String c' r4 =>
                            if Ascii.eqb c' "," then
                              match parse_members f r4 with
                              | Some (ms, r5) => Some ((k, v) :: ms, r5)
                              | None => None
                              end
                            else if Ascii.eqb c' "}" then Some ([(k, v)], r4)
                            else None
                        | EmptyString => None
                        end
                    | None => None
                    end
                  else None
              | EmptyString => None
              end
          | None => None
          end).
  rewrite P. reflexivity.
Qed.

(** *** The round trip *)

Lemma num_head_facts (c : ascii) :
  is_digit c = true \/ c = "-"%char ->
  is_ws c = false /\ Ascii.eqb c "]" = false /\ Ascii.eqb c "}" = false.
Proof.
  destruct c as [[] [] [] [] [] [] [] []]; intros [H|H];
    try discriminate H; repeat split.
Qed.

Lemma stringify_head (v : json) :
  exists c r, stringify v = String c r
              /\ is_ws c = false
              /\ Ascii.eqb c "]" = false /\ Ascii.eqb c "}" = false.
Proof.
  destruct v as [|[|]|z|s|l|ms]; simpl;
    try (eexists; eexists; repeat split; reflexivity).
  destruct (print_int_head z) as (c & r & E & Hc).
  exists c, r. split; [exact E | now apply num_head_facts].
Qed.

Lemma elems_text_cons (x : json) (l : list json) (k : string) :
  elems_text (x :: l) ++ k =
  stringify x ++ match l with
                 | [] => k
                 | _ :: _ => String "," (elems_text l ++ k)
                 end.
Proof.
  destruct l as [|y l]; unfold elems_text; cbn [map join_comma].
  - reflexivity.
  - now rewrite append_assoc.
Qed.

Lemma members_text_cons (kv : string * json) (ms : list (string * json)) (k : string) :
  members_text (kv :: ms) ++ k =
  quote (fst kv) ++
  String ":" (stringify (snd kv) ++
              match ms with
              | [] => k
              | _ :: _ => String "," (members_text ms ++ k)
              end).
Proof.
  destruct ms as [|kv' ms]; unfold members_text, member_text; cbn [map join_comma].
  - now rewrite !append_assoc.
  - now rewrite !append_assoc.
Qed.

Lemma parse_stringify_fuel (fuel : nat) :
  (forall v rest,
      json_size v <= fuel -> json_wf v = true -> num_follow_ok rest = true ->
      parse_value fuel (stringify v ++ rest) = Some (v, rest))
  /\ (forall x l rest,
         elems_size (x :: l) <= fuel -> forallb json_wf (x :: l) = true ->
         parse_elems fuel (elems_text (x :: l) ++ String "]" rest)
         = Some (x :: l, rest))
  /\ (forall kv ms rest,
         members_size (kv :: ms) <= fuel ->
         forallb (fun kv => json_wf (snd kv)) (kv :: ms) = true ->
         parse_members fuel (members_text (kv :: ms) ++ String "}" rest)
         = Some (kv :: ms, rest)).
Proof.
  induction fuel as [|f (IHv & IHe & IHm)].
  { repeat split.
    - intros v rest H. pose proof (json_size_pos v). lia.
    - intros x l rest H. simpl in H. lia.
    - intros kv ms rest H. simpl in H. lia. }
  repeat split.
  - (* values *)
    intros v rest Hsz Hwf Hf.
    destruct v as [|[|]|z|s|l|ms]; try reflexivity.
    + destruct (print_int_head z) as (c & r & E & Hc).
      pose proof (parse_number_print_int z rest Hf) as Hp.
      cbn [stringify]. rewrite E in *. cbn [String.append] in *.
      now rewrite parse_value_num.
    + destruct (parse_string_body_quote s rest) as (body & E & P).
      cbn [stringify]. rewrite E, parse_value_str, P. reflexivity.
    + destruct l as [|x l]; [reflexivity|].
      change (stringify (JArr (x :: l)) ++ rest)
        with (String "[" ((elems_text (x :: l) ++ "]") ++ rest)).
      rewrite append_assoc. cbn [String.append].
      destruct (stringify_head x) as (c & r & E & Hws & Hb & _).
      assert (Ht : elems_text (x :: l) ++ String "]" rest
                   = String c (r ++ match l with
                                    | [] => String "]" rest
                                    | _ :: _ => String "," (elems_text l ++ String "]" rest)
                                    end)).
      { now rewrite elems_text_cons, E. }
      rewrite (parse_value_arr_nonempty f _ _ _ Ht Hws Hb).
      change (json_size (JArr (x :: l))) with (S (elems_size (x :: l))) in Hsz.
      rewrite IHe; [reflexivity | lia | exact Hwf].
    + destruct ms as [|kv ms]; [reflexivity|].
      change (stringify (JObj (kv :: ms)) ++ rest)
        with (String "{" ((members_text (kv :: ms) ++ "}") ++ rest)).
      rewrite append_assoc. cbn [String.append].
      assert (Ht : exists R, members_text (kv :: ms) ++ String "}" rest
                             = String dquote R).
      { rewrite members_text_cons. unfold quote. cbn [String.append]. eauto. }
      destruct Ht as (R & Ht).
      rewrite (parse_value_obj_nonempty f _ _ _ Ht eq_refl eq_refl).
      cbn [json_wf] in Hwf. apply andb_true_iff in Hwf. destruct Hwf as [Hnd Hwf].
      change (json_size (JObj (kv :: ms))) with (S (members_size (kv :: ms))) in Hsz.
      rewrite IHm; [| lia | exact Hwf].
      now rewrite members_to_object_nodup.
  - (* elements *)
    intros x l rest Hsz Hwf.
    change (elems_size (x :: l)) with (S (json_size x + elems_size l)) in Hsz.
    cbn [forallb] in Hwf. apply andb_true_iff in Hwf.
    destruct Hwf as [Hx Hl].
    rewrite elems_text_cons.
    destruct l as [|y l].
    + apply parse_elems_last. apply IHv; [lia | exact Hx | reflexivity].
    + rewrite (parse_elems_more f _ x (elems_text (y :: l) ++ String "]" rest)).
      * rewrite IHe; [reflexivity | lia | exact Hl].
      * apply IHv; [lia | exact Hx | reflexivity].
  - (* members *)
    intros [k v] ms rest Hsz Hwf.
    change (members_size ((k, v) :: ms)) with (S (json_size v + members_size ms)) in Hsz.
    cbn [forallb snd] in Hwf. apply andb_true_iff in Hwf.
    destruct Hwf as [Hx Hl].
    rewrite members_text_cons, parse_members_key. cbn [fst snd].
    destruct ms as [|kv' ms].
    + rewrite IHv; [reflexivity | lia | exact Hx | reflexivity].
    + rewrite IHv; [| lia | exact Hx | reflexivity].
      cbn [skip_ws is_ws Ascii.eqb Bool.eqb orb].
      change (Ascii.eqb "," ",") with true. cbv iota.
      rewrite IHm; [reflexivity | lia | exact Hl].
Qed.

Lemma json_size_le_length (v : json) :
  json_size v <= String.length (stringify v).
Proof.
  assert (H : forall n v, json_size v <= n -> json_size v <= String.length (stringify v)).
  { induction n as [|n IH]; intros w Hn.
    - pose proof (json_size_pos w). lia.
    - destruct w as [|[|]|z|s|l|ms]; try (simpl; lia).
      + cbn [stringify json_size].
        destruct (print_int_head z) as (c & r & E & _). rewrite E. simpl. lia.
      + change (json_size (JArr l)) with (S (elems_size l)) in *.
        change (stringify (JArr l)) with (String "[" (elems_text l ++ "]")).
        cbn [String.length]. rewrite length_append. cbn [String.length].
        assert (Hl : elems_size l <= S (String.length (elems_text l))).
        { apply le_S_n in Hn. revert Hn.
          induction l as [|x l IHl]; intros Hn; [simpl; lia|].
          change (elems_size (x :: l)) with (S (json_size x + elems_size l)) in *.
          pose proof (elems_text_cons x l "") as Ht. rewrite append_nil_r in Ht.
          rewrite Ht, length_append.
          assert (Hx : json_size x <= String.length (stringify x)) by (apply IH; lia).
          destruct l as [|y l]; [simpl; lia|].
          rewrite append_nil_r. cbn [String.length].
          assert (Hr : elems_size (y :: l) <= S (String.length (elems_text (y :: l))))
            by (apply IHl; lia).
          lia. }
        lia.
      + change (json_size (JObj ms)) with (S (members_size ms)) in *.
        change (stringify (JObj ms)) with (String "{" (members_text ms ++ "}")).
        cbn [String.length]. rewrite length_append. cbn [String.length].
        assert (Hl : members_size ms <= S (String.length (members_text ms))).
        { apply le_S_n in Hn. revert Hn.
          induction ms as [|x l IHl]; intros Hn; [simpl; lia|].
          change (members_size (x :: l)) with (S (json_size (snd x) + members_size l)) in *.
          pose proof (members_text_cons x l "") as Ht. rewrite append_nil_r in Ht.
          rewrite Ht, length_append. cbn [String.length]. rewrite length_append.
          assert (Hx : json_size (snd x) <= String.length (stringify (snd x)))
            by (apply IH; lia).
          destruct l as [|y l]; [simpl; lia|].
          rewrite append_nil_r. cbn [String.length].
          assert (Hr : members_size (y :: l) <= S (String.length (members_text (y :: l))))
            by (apply IHl; lia).
          lia. }
        lia. }
  apply (H (json_size v)). lia.
Qed.

(** [JSON.parse (JSON.stringify v + "\n") = v], and without the newline. *)
Lemma JSON_parse_stringify_nl (v : json) :
  json_wf v = true ->
  JSON_parse (JSON_stringify v ++ String NEWLINE "") = Some v.
Proof.
  intros Hwf. unfold JSON_parse, JSON_stringify.
  destruct (parse_stringify_fuel (S (String.length (stringify v ++ String NEWLINE ""))))
    as (Hv & _ & _).
  rewrite Hv; [reflexivity | | exact Hwf | reflexivity].
  rewrite length_append. pose proof (json_size_le_length v). lia.
Qed.

Lemma JSON_parse_stringify (v : json) :
  json_wf v = true -> JSON_parse (JSON_stringify v) = Some v.
Proof.
  intros Hwf. unfold JSON_parse, JSON_stringify.
  destruct (parse_stringify_fuel (S (String.length (stringify v)))) as (Hv & _ & _).
  rewrite <- (append_nil_r (stringify v)) at 2.
  rewrite Hv; [reflexivity | | exact Hwf | reflexivity].
  pose proof (json_size_le_length v). lia.
Qed.


(** ** The part table: encoding and decoding *)

Lemma parse_format_line (sp : StreamPartType) (v : json) :
  In sp streamParts -> json_wf v = true ->
  parseStreamPart (code sp ++ ":" ++ JSON_stringify v ++ String NEWLINE "")
  = parse sp v.
Proof.
  intros Hin Hwf.
  pose proof (JSON_parse_stringify_nl v Hwf) as Hp.
  set (t := JSON_stringify v ++ String NEWLINE "") in *.
  unfold parseStreamPart.
  simpl in Hin.
  repeat (destruct Hin as [<-|Hin]; [simpl; rewrite Hp; reflexivity|]).
  contradiction.
Qed.

Lemma array_some_tool_call_callback (xs : js) :
  array_some xs tool_call_some_callback = false.
Proof.
  destruct xs as [[| | | |l|]|]; try reflexivity.
  simpl. induction l as [|x l IH]; [reflexivity | exact IH].
Qed.

Lemma text_item_shape_ok (item : json) :
  text_item_shape item = true -> assistant_content_item_ok item = true.
Proof.
  unfold text_item_shape, assistant_content_item_ok.
  destruct item as [| | | | |ms]; simpl; try discriminate.
  unfold has_member.
  destruct (lookup "type" ms) as [[| | |s| |]|]; simpl; try discriminate.
  destruct (lookup "text" ms) as [[| | | | |ms']|]; simpl;
    rewrite ?andb_false_r; try discriminate.
  unfold has_member.
  destruct (lookup "value" ms') as [[| | |s'| |]|]; simpl;
    rewrite ?andb_false_r; try discriminate.
  intros H. rewrite !andb_true_r in *. exact H.
Qed.

Lemma array_every_impl (xs : js) (f g : json -> bool) :
  (forall x, f x = true -> g x = true) ->
  array_every xs f = true -> array_every xs g = true.
Proof.
  intros Hfg. destruct xs as [[| | | |l|]|]; simpl; try discriminate.
  rewrite !forallb_forall. auto.
Qed.

(** Every payload of the table's shape passes the validator of its kind,
    which returns the normalized payload. *)
Lemma parse_spec_shape (sp : StreamPartType) (v : json) :
  In sp streamParts -> spec_shape (name sp) v = true ->
  parse sp v = Ok {| type := name sp; value := normalized_payload (name sp) v |}.
Proof.
  intros Hin. simpl in Hin.
  repeat (destruct Hin as [<-|Hin]); try contradiction;
    unfold spec_shape, normalized_payload; simpl; intros H.
  - destruct v; try discriminate H; reflexivity.
  - destruct v as [| | | | |ms]; try discriminate H. simpl in *.
    unfold has_member, name_arguments_shape in *.
    destruct (lookup "function_call" ms) as [[| | | | |ms']|];
      try discriminate H. simpl in *. unfold has_member.
    destruct (lookup "name" ms') as [[]|]; try discriminate H.
    destruct (lookup "arguments" ms') as [[]|]; try discriminate H.
    reflexivity.
  - destruct v; try discriminate H; reflexivity.
  - destruct v; try discriminate H; reflexivity.
  - destruct v as [| | | | |ms]; try discriminate H. simpl in *.
    unfold has_member.
    destruct (lookup "id" ms) as [[]|]; try discriminate H.
    destruct (lookup "role" ms) as [[| | |r| |]|]; try discriminate H.
    simpl in H. destruct (String.eqb r "assistant") eqn:Er; try discriminate H.
    destruct (lookup "content" ms) as [[| | | |items|]|]; try discriminate H.
    simpl in *. rewrite Er. simpl.
    assert (He : forallb assistant_content_item_ok items = true).
    { rewrite forallb_forall in *. intros x Hx. apply text_item_shape_ok. auto. }
    rewrite He. reflexivity.
  - destruct v as [| | | | |ms]; try discriminate H. simpl in *.
    unfold has_member, keep_fields. simpl.
    destruct (lookup "threadId" ms) as [[]|]; try discriminate H.
    destruct (lookup "messageId" ms) as [[]|]; try discriminate H.
    reflexivity.
  - destruct v as [| | | | |ms]; try discriminate H. simpl in *.
    unfold has_member.
    destruct (lookup "role" ms) as [[| | |r| |]|]; try discriminate H.
    simpl in *. destruct (String.eqb r "data"); try discriminate H.
    destruct (lookup "data" ms); try discriminate H. reflexivity.
  - destruct v as [| | | | |ms]; try discriminate H.
    cbn [is_object andb] in H.
    set (tcs := prop (Some (JObj ms)) "tool_calls") in *.
    rewrite array_some_tool_call_callback.
    unfold tcs in *. simpl in *. unfold has_member.
    destruct (lookup "tool_calls" ms) as [[]|]; try discriminate H.
    reflexivity.
  - destruct v; try discriminate H; reflexivity.
Qed.

Ltac pick_part :=
  first [ exists textStreamPart; split; [simpl; tauto | reflexivity]
        | exists functionCallStreamPart; split; [simpl; tauto | reflexivity]
        | exists dataStreamPart; split; [simpl; tauto | reflexivity]
        | exists errorStreamPart; split; [simpl; tauto | reflexivity]
        | exists assistantMessageStreamPart; split; [simpl; tauto | reflexivity]
        | exists assistantControlDataStreamPart; split; [simpl; tauto | reflexivity]
        | exists dataMessageStreamPart; split; [simpl; tauto | reflexivity]
        | exists toolCallStreamPart; split; [simpl; tauto | reflexivity]
        | exists messageAnnotationsStreamPart; split; [simpl; tauto | reflexivity] ].

Lemma spec_shape_kind (k : string) (v : json) :
  spec_shape k v = true -> exists sp, In sp streamParts /\ name sp = k.
Proof.
  unfold spec_shape.
  repeat match goal with
         | |- context [String.eqb k ?s] =>
             destruct (String.eqb_spec k s) as [->|_];
             [intros _; pick_part|]
         end.
  discriminate.
Qed.

Lemma formatStreamPart_table (sp : StreamPartType) (v : json) :
  In sp streamParts ->
  formatStreamPart (name sp) v
  = Ok (code sp ++ ":" ++ JSON_stringify v ++ String NEWLINE "").
Proof.
  intros Hin. simpl in Hin.
  repeat (destruct Hin as [<-|Hin]; [reflexivity|]). contradiction.
Qed.

(** C1.  For every part kind [k] of the table and every payload [v] of the
    shape the table requires of [k], decoding the encoded line succeeds and
    returns [{type: k, value: v'}] with [v'] the normalized payload: [v]
    itself, except for [assistant_control_data], which keeps only [threadId]
    and [messageId]. *)
Theorem format_parse_roundtrip (k : string) (v : json) :
  json_wf v = true ->
  spec_shape k v = true ->
  exists line,
    formatStreamPart k v = Ok line
    /\ parseStreamPart line = Ok {| type := k; value := normalized_payload k v |}.
Proof.
  intros Hwf Hshape.
  destruct (spec_shape_kind k v Hshape) as (sp & Hin & <-).
  exists (code sp ++ ":" ++ JSON_stringify v ++ String NEWLINE "").
  split.
  - now apply formatStreamPart_table.
  - rewrite parse_format_line by assumption.
    now apply parse_spec_shape.
Qed.

Lemma format_parse_roundtrip_witness :
  exists line,
    formatStreamPart "assistant_control_data" ex_control_data = Ok line
    /\ parseStreamPart line
       = Ok {| type := "assistant_control_data";
               value := normalized_payload "assistant_control_data" ex_control_data |}.
Proof.
  apply (format_parse_roundtrip "assistant_control_data" ex_control_data);
    reflexivity.
Defined.

Example normalized_control_data :
  normalized_payload "assistant_control_data" ex_control_data
  = JObj [("threadId", JStr "t1"); ("messageId", JStr "m1")].
Proof. reflexivity. Qed.

Example parse_unknown_code :
  parseStreamPart (dq "9:'x'")
  = Err "Failed to parse stream string. Invalid code 9.".
Proof. reflexivity. Qed.

Example parse_no_separator :
  parseStreamPart "no separator here"
  = Err "Failed to parse stream string. No separator found.".
Proof. reflexivity. Qed.

(** The [tool_calls] validator accepts every array, whatever its elements. *)
Lemma tool_calls_validator_accepts_any_array (l : list json) :
  parse toolCallStreamPart (JObj [("tool_calls", JArr l)])
  = Ok {| type := "tool_calls"; value := JObj [("tool_calls", JArr l)] |}.
Proof.
  unfold toolCallStreamPart, parse.
  set (tcs := prop (Some (JObj [("tool_calls", JArr l)])) "tool_calls").
  rewrite array_some_tool_call_callback. reflexivity.
Qed.

(** C2 (the code at the failing input).  The line [7:{"tool_calls":[1]}]
    has an element that is not an object, so the table's shape is violated
    and the element check itself finds the mismatch; yet the line decodes
    to a [tool_calls] part, because the callback given to [some] never
    returns what it computed. *)
Theorem tool_calls_malformed_element_decodes :
  spec_shape "tool_calls" ex_bad_tool_calls = false
  /\ tool_call_shape_mismatch (JNum 1) = true
  /\ tool_call_some_callback (JNum 1) = undefined
  /\ parseStreamPart (dq "7:{'tool_calls':[1]}")
     = Ok {| type := "tool_calls"; value := ex_bad_tool_calls |}.
Proof. repeat split. Qed.

(** ** Chunk reassembly *)

Lemma split_on_nonnil (sep : ascii) (s : string) : split_on sep s <> [].
Proof.
  destruct s as [|c r]; simpl; [discriminate|].
  destruct (Ascii.eqb c sep); [discriminate|].
  destruct (split_on sep r); discriminate.
Qed.

(** Splitting at a separator splits the list of fragments. *)
Lemma split_on_app_sep (sep : ascii) (s1 s2 : string) :
  split_on sep (s1 ++ String sep s2) = (split_on sep s1 ++ split_on sep s2)%list.
Proof.
  induction s1 as [|c r IH]; simpl.
  - now rewrite Ascii.eqb_refl.
  - destruct (Ascii.eqb c sep).
    + now rewrite IH.
    + rewrite IH. pose proof (split_on_nonnil sep r) as Hn.
      destruct (split_on sep r) as [|h t]; [contradiction | reflexivity].
Qed.

Lemma ends_with_newline_inv (s : string) :
  ends_with_newline s = true -> exists s', s = s' ++ String NEWLINE "".
Proof.
  unfold ends_with_newline. induction s as [|c r IH]; simpl; [discriminate|].
  destruct r as [|c' r'].
  - intros H. apply Ascii.eqb_eq in H. subst c. now exists "".
  - intros H. destruct (IH H) as (s' & E). exists (String c s').
    simpl. now rewrite <- E.
Qed.

Lemma ends_with_newline_app (a c : string) :
  ends_with_newline c = true -> ends_with_newline (a ++ c) = true.
Proof.
  unfold ends_with_newline. intros Hc.
  induction a as [|x a IH]; simpl; [exact Hc|].
  destruct (a ++ c) as [|y r] eqn:E; [|exact IH].
  destruct a; destruct c; simpl in *; discriminate.
Qed.

Lemma nonempty_lines_app (s1 s2 : string) :
  ends_with_newline s1 = true ->
  nonempty_lines (s1 ++ s2) = (nonempty_lines s1 ++ nonempty_lines s2)%list.
Proof.
  intros H. destruct (ends_with_newline_inv s1 H) as (s' & ->).
  unfold nonempty_lines.
  rewrite append_assoc. cbn [String.append].
  rewrite !split_on_app_sep, !filter_app. simpl.
  now rewrite List.app_nil_r.
Qed.

Lemma concat_cons (x : string) (xs : list string) :
  String.concat "" (x :: xs) = x ++ String.concat "" xs.
Proof. destruct xs; simpl; [now rewrite append_nil_r | reflexivity]. Qed.

Lemma concat_app (xs ys : list string) :
  String.concat "" (xs ++ ys) = String.concat "" xs ++ String.concat "" ys.
Proof.
  induction xs as [|x xs IH]; [reflexivity|].
  rewrite <- List.app_comm_cons, !concat_cons, IH. now rewrite append_assoc.
Qed.

Lemma mapM_app {A B} (f : A -> result B) (xs ys : list A) :
  mapM f (xs ++ ys) =
  (p1 <- mapM f xs ;; p2 <- mapM f ys ;; Ok (p1 ++ p2)%list).
Proof.
  induction xs as [|x xs IH]; simpl.
  - destruct (mapM f ys); reflexivity.
  - destruct (f x); simpl; [|reflexivity].
    rewrite IH. destruct (mapM f xs); simpl; [|reflexivity].
    destruct (mapM f ys); reflexivity.
Qed.

Lemma mapM_app_ok {A B} (f : A -> result B) (xs ys : list A) (r : list B) :
  mapM f (xs ++ ys) = Ok r ->
  exists p1 p2, mapM f xs = Ok p1 /\ mapM f ys = Ok p2 /\ r = (p1 ++ p2)%list.
Proof.
  rewrite mapM_app. destruct (mapM f xs) as [p1|]; simpl; [|discriminate].
  destruct (mapM f ys) as [p2|]; simpl; [|discriminate].
  intros [= <-]. eauto.
Qed.

Lemma rds_flush_empty (isAborted : nat -> bool) (st : rds_state) :
  chunks st = [] ->
  rds_flush isAborted st =
  {| chunks := []; totalLength := totalLength st; yielded := yielded st;
     abort_checks := abort_checks st; status := Finished |}.
Proof. intros E. unfold rds_flush. rewrite E. reflexivity. Qed.

Lemma rds_flush_ok (st : rds_state) (parts : list StreamPart) :
  chunks st <> [] ->
  decode_parts (String.concat "" (chunks st)) = Ok parts ->
  rds_flush never_aborted st =
  {| chunks := []; totalLength := 0; yielded := (yielded st ++ parts)%list;
     abort_checks := S (abort_checks st); status := Reading |}.
Proof.
  intros Hne Hd. unfold rds_flush, concatChunks.
  destruct (chunks st) as [|c cs] eqn:E; [contradiction|].
  cbn [nonempty negb]. rewrite Hd. reflexivity.
Qed.

(** Whatever is already buffered, the generator yields the parts of the
    lines of the buffered and the remaining bytes taken together. *)
Lemma readDataStream_from_final (reader : list string) :
  forall (st : rds_state) (parts : list StreamPart),
    status st = Reading ->
    decode_parts (String.concat "" (chunks st ++ reader)) = Ok parts ->
    exists st',
      readDataStream_from never_aborted st reader = st'
      /\ yielded st' = (yielded st ++ parts)%list
      /\ status st' = Finished.
Proof.
  unfold readDataStream_from.
  induction reader as [|c rest IH]; intros st parts Hst Hd.
  - rewrite List.app_nil_r in Hd. cbn [map List.app fold_left].
    unfold rds_step at 2. rewrite Hst.
    destruct (chunks st) as [|x xs] eqn:E.
    + rewrite rds_flush_empty by exact E.
      cbn in Hd. injection Hd as <-.
      eexists. split; [reflexivity|]. cbn. now rewrite List.app_nil_r.
    + rewrite (rds_flush_ok st parts); [| rewrite E; discriminate | now rewrite E].
      eexists. split; [reflexivity|]. cbn. auto.
  - cbn [map List.app fold_left].
    unfold rds_step at 2. rewrite Hst.
    destruct (ends_with_newline c) eqn:Enl; cbn [negb].
    + set (st1 := {| chunks := (chunks st ++ [c])%list;
                     totalLength := totalLength st + String.length c;
                     yielded := yielded st; abort_checks := abort_checks st;
                     status := Reading |}).
      assert (Hcat : String.concat "" (chunks st ++ c :: rest)
                     = String.concat "" (chunks st1) ++ String.concat "" rest).
      { cbn [chunks st1]. rewrite <- concat_app, <- List.app_assoc. reflexivity. }
      unfold decode_parts in Hd. rewrite Hcat in Hd.
      rewrite nonempty_lines_app in Hd.
      2:{ cbn [chunks st1]. rewrite concat_app, concat_cons.
          apply ends_with_newline_app. cbn. now rewrite append_nil_r. }
      destruct (mapM_app_ok _ _ _ _ Hd) as (p1 & p2 & H1 & H2 & ->).
      rewrite (rds_flush_ok st1 p1);
        [| cbn [chunks st1]; destruct (chunks st); discriminate | exact H1].
      match goal with
      | |- context [fold_left _ _ ?s] =>
          destruct (IH s p2 eq_refl H2) as (st' & E' & Hy & Hs)
      end.
      exists st'. split; [exact E'|]. split; [|exact Hs].
      rewrite Hy. cbn [yielded st1]. now rewrite List.app_assoc.
    + match goal with
      | |- context [fold_left _ _ ?s] =>
          destruct (IH s parts eq_refl) as (st' & E' & Hy & Hs)
      end.
      * cbn [chunks]. now rewrite <- List.app_assoc.
      * exists st'. auto.
Qed.

Lemma readDataStream_from_spec (reader : list string) (st : rds_state)
      (parts : list StreamPart) :
  status st = Reading ->
  decode_parts (String.concat "" (chunks st ++ reader)) = Ok parts ->
  yielded (readDataStream_from never_aborted st reader) = (yielded st ++ parts)%list
  /\ status (readDataStream_from never_aborted st reader) = Finished.
Proof.
  intros Hst Hd.
  destruct (readDataStream_from_final reader st parts Hst Hd) as (st' & -> & Hy & Hs).
  auto.
Qed.

Lemma readDataStream_decodes_lines (reader : list string) (parts : list StreamPart) :
  decode_parts (String.concat "" reader) = Ok parts ->
  readDataStream never_aborted reader = (parts, Finished).
Proof.
  intros Hd. unfold readDataStream.
  destruct (readDataStream_from_spec reader rds_init parts eq_refl Hd) as [Hy Hs].
  now rewrite Hy, Hs.
Qed.

(** C6.  The generator buffers a chunk that does not end with the newline
    byte and yields nothing for it; on a chunk that does, it decodes the
    concatenation of everything buffered, line by line, and yields those
    parts in order; so for every reader whose lines all parse, whatever the
    chunk boundaries, it yields exactly the parts of the non-empty lines of
    the whole input, in order. *)
Theorem readDataStream_reassembles (reader : list string) (parts : list StreamPart) :
  decode_parts (String.concat "" reader) = Ok parts ->
  readDataStream never_aborted reader = (parts, Finished)
  /\ (forall isAborted st value,
         status st = Reading -> ends_with_newline value = false ->
         rds_step isAborted st (Some value)
         = {| chunks := (chunks st ++ [value])%list;
              totalLength := totalLength st + String.length value;
              yielded := yielded st; abort_checks := abort_checks st;
              status := Reading |})
  /\ (forall isAborted st value batch,
         status st = Reading -> ends_with_newline value = true ->
         decode_parts (String.concat "" (chunks st ++ [value])) = Ok batch ->
         yielded (rds_step isAborted st (Some value)) = (yielded st ++ batch)%list
         /\ chunks (rds_step isAborted st (Some value)) = []).
Proof.
  intros Hd. split; [|split].
  - now apply readDataStream_decodes_lines.
  - intros isAborted st v Hst Hnl. unfold rds_step. now rewrite Hst, Hnl.
  - intros isAborted st v batch Hst Hnl Hb.
    unfold rds_step. rewrite Hst, Hnl. cbn [negb]. unfold rds_flush, concatChunks.
    cbn [chunks totalLength yielded].
    destruct (chunks st ++ [v])%list eqn:E;
      [destruct (chunks st); discriminate|].
    cbn [nonempty negb]. rewrite Hb. split; reflexivity.
Qed.

(** The byte chunks [0:"hel] and [lo"\n] give exactly one text part
    ["hello"]. *)
Lemma readDataStream_reassembles_witness :
  readDataStream never_aborted [dq "0:'hel"; dq "lo'" ++ String NEWLINE ""]
  = ([{| type := "text"; value := JStr "hello" |}], Finished)
  /\ rds_step never_aborted rds_init (Some (dq "0:'hel"))
     = {| chunks := [dq "0:'hel"]; totalLength := 6; yielded := [];
          abort_checks := 0; status := Reading |}.
Proof.
  destruct (readDataStream_reassembles
              [dq "0:'hel"; dq "lo'" ++ String NEWLINE ""]
              [{| type := "text"; value := JStr "hello" |}] eq_refl)
    as (H1 & H2 & _).
  split; [exact H1|].
  exact (H2 never_aborted rds_init (dq "0:'hel") eq_refl eq_refl).
Defined.

(** ** A JSON text never contains the line terminator *)

Lemma no_newline_app (a b : string) :
  no_newline (a ++ b) = no_newline a && no_newline b.
Proof.
  induction a as [|c a IH]; simpl; [reflexivity|].
  rewrite IH. now rewrite andb_assoc.
Qed.

Lemma no_newline_escape_char (c : ascii) : no_newline (escape_char c) = true.
Proof. destruct c as [[] [] [] [] [] [] [] []]; reflexivity. Qed.

Lemma no_newline_escape (s : string) : no_newline (escape s) = true.
Proof.
  induction s as [|c s IH]; simpl; [reflexivity|].
  now rewrite no_newline_app, no_newline_escape_char, IH.
Qed.

Lemma no_newline_quote (s : string) : no_newline (quote s) = true.
Proof.
  unfold quote. cbn [no_newline]. rewrite no_newline_app, no_newline_escape.
  reflexivity.
Qed.

Lemma no_newline_string_of_uint (d : Decimal.uint) :
  no_newline (NilEmpty.string_of_uint d) = true.
Proof. induction d; simpl; auto. Qed.

Lemma no_newline_print_int (z : Z) : no_newline (print_int z) = true.
Proof.
  unfold print_int.
  destruct (Z.to_int z) as [d|d]; cbn [NilZero.string_of_int no_newline];
    destruct d; cbn [NilZero.string_of_uint]; try reflexivity;
    try apply no_newline_string_of_uint.
Qed.

Lemma no_newline_join_comma (l : list string) :
  forallb no_newline l = true -> no_newline (join_comma l) = true.
Proof.
  induction l as [|x l IH]; [reflexivity|].
  cbn [forallb]. intros H. apply andb_true_iff in H. destruct H as [Hx Hl].
  destruct l as [|y l]; [exact Hx|].
  change (join_comma (x :: y :: l)) with (x ++ String "," (join_comma (y :: l))).
  rewrite no_newline_app, Hx. cbn [no_newline]. now rewrite IH.
Qed.

Lemma no_newline_stringify (v : json) : no_newline (stringify v) = true.
Proof.
  assert (H : forall n v, json_size v <= n -> no_newline (stringify v) = true).
  { induction n as [|n IH]; intros w Hn.
    - pose proof (json_size_pos w). lia.
    - destruct w as [|[|]|z|s|l|ms]; try reflexivity.
      + apply no_newline_print_int.
      + apply no_newline_quote.
      + change (json_size (JArr l)) with (S (elems_size l)) in Hn.
        change (stringify (JArr l)) with (String "[" (elems_text l ++ "]")).
        cbn [no_newline]. rewrite no_newline_app. cbn.
        rewrite andb_true_r. unfold elems_text.
        apply no_newline_join_comma. apply le_S_n in Hn.
        induction l as [|x l IHl]; [reflexivity|].
        change (elems_size (x :: l)) with (S (json_size x + elems_size l)) in Hn.
        cbn [map forallb]. rewrite IH by lia. rewrite IHl by lia. reflexivity.
      + change (json_size (JObj ms)) with (S (members_size ms)) in Hn.
        change (stringify (JObj ms)) with (String "{" (members_text ms ++ "}")).
        cbn [no_newline]. rewrite no_newline_app. cbn.
        rewrite andb_true_r. unfold members_text.
        apply no_newline_join_comma. apply le_S_n in Hn.
        induction ms as [|x l IHl]; [reflexivity|].
        change (members_size (x :: l))
          with (S (json_size (snd x) + members_size l)) in Hn.
        cbn [map forallb]. unfold member_text at 1.
        rewrite no_newline_app, no_newline_quote. cbn [String.append no_newline].
        rewrite IH by lia. rewrite IHl by lia. reflexivity. }
  apply (H (json_size v)). lia.
Qed.

Lemma split_on_no_newline (s : string) :
  no_newline s = true -> split_on NEWLINE s = [s].
Proof.
  induction s as [|c r IH]; simpl; [reflexivity|].
  intros H. apply andb_true_iff in H. destruct H as [Hc Hr].
  apply negb_true_iff in Hc. rewrite Hc, IH by exact Hr. reflexivity.
Qed.

(** A non-empty text without newline, followed by a newline, is the first
    line of what follows. *)
Lemma nonempty_lines_cons (s rest : string) :
  no_newline s = true -> s <> "" ->
  nonempty_lines (s ++ String NEWLINE rest) = s :: nonempty_lines rest.
Proof.
  intros Hs Hne. unfold nonempty_lines.
  rewrite split_on_app_sep, split_on_no_newline by exact Hs.
  cbn [List.app filter].
  destruct (String.eqb_spec s ""); [contradiction | reflexivity].
Qed.

Lemma no_newline_part_text (sp : StreamPartType) (v : json) :
  In sp streamParts -> no_newline (part_text sp v) = true /\ part_text sp v <> "".
Proof.
  intros Hin. unfold part_text, JSON_stringify.
  pose proof (no_newline_stringify v) as Hv.
  simpl in Hin.
  repeat (destruct Hin as [<-|Hin];
          [split; [cbn; exact Hv | discriminate]|]).
  contradiction.
Qed.

Lemma parse_part_text (sp : StreamPartType) (v : json) :
  In sp streamParts -> json_wf v = true ->
  parseStreamPart (part_text sp v) = parse sp v.
Proof.
  intros Hin Hwf. unfold part_text.
  pose proof (JSON_parse_stringify v Hwf) as Hp.
  set (t := JSON_stringify v) in *.
  unfold parseStreamPart.
  simpl in Hin.
  repeat (destruct Hin as [<-|Hin]; [simpl; rewrite Hp; reflexivity|]).
  contradiction.
Qed.

Lemma part_line_text (sp : StreamPartType) (v : json) (rest : string) :
  part_line sp v ++ rest = part_text sp v ++ String NEWLINE rest.
Proof.
  unfold part_line, part_text. now rewrite !append_assoc.
Qed.

(** The lines of a sequence of encoded parts decode to the parts, one per
    line, in order. *)
Lemma decode_parts_lines (items : list (StreamPartType * json)) :
  Forall (fun it => In (fst it) streamParts /\ json_wf (snd it) = true) items ->
  decode_parts (String.concat "" (map (fun it => part_line (fst it) (snd it)) items))
  = mapM (fun it => parse (fst it) (snd it)) items.
Proof.
  unfold decode_parts.
  induction 1 as [|[sp v] items [Hin Hwf] _ IH]; [reflexivity|].
  cbn [map fst snd] in *. rewrite concat_cons, part_line_text.
  destruct (no_newline_part_text sp v Hin) as [Hn Hne].
  rewrite nonempty_lines_cons by assumption.
  cbn [mapM]. rewrite parse_part_text by assumption.
  now rewrite IH.
Qed.

(** ** The side-channel buffer *)

Lemma StreamData_transform_eq (self : StreamData) (chunk : string) :
  StreamData_transform chunk self
  = (Ok (pending_parts self ++ [chunk])%list, queues_cleared self).
Proof.
  destruct self as [c p cl d a].
  unfold StreamData_transform, pending_parts, queues_cleared.
  destruct d as [|x d]; destruct a as [|y a]; reflexivity.
Qed.

(** C5.  For every incoming unit the multiplexer emits, in this order: one
    [data] part with the whole pending data queue if it is non-empty, one
    [message_annotations] part with the whole pending annotation queue if it
    is non-empty, then the unit; both queues are empty afterwards, and with
    both queues empty the unit is forwarded alone.  Hence two values
    appended before a content unit are decoded as one data batch, in append
    order, followed by the content. *)
Theorem multiplexer_flushes_before_unit :
  (forall (self : StreamData) (chunk : string),
      StreamData_transform chunk self
      = (Ok (pending_parts self ++ [chunk])%list, queues_cleared self)
      /\ (data self = [] -> messageAnnotations self = [] ->
          StreamData_transform chunk self = (Ok [chunk], self)))
  /\ (forall (self : StreamData) (v1 v2 : json) (m : string),
         isClosed self = false ->
         data self = [] -> messageAnnotations self = [] ->
         json_wf v1 = true -> json_wf v2 = true ->
         exists unit emitted self',
           createStreamDataTransformer true m = Ok [unit]
           /\ StreamData_transform unit (snd (append v2 (snd (append v1 self))))
              = (Ok emitted, self')
           /\ emitted = [part_line dataStreamPart (JArr [v1; v2]); unit]
           /\ data self' = []
           /\ readDataStream never_aborted emitted
              = ([ {| type := "data"; value := JArr [v1; v2] |};
                   {| type := "text"; value := JStr m |} ], Finished)).
Proof.
  split.
  - intros self chunk. split; [apply StreamData_transform_eq|].
    intros Hd Ha. rewrite StreamData_transform_eq.
    destruct self as [c p cl d a]. simpl in *. subst.
    reflexivity.
  - intros self v1 v2 m Hopen Hd Ha Hw1 Hw2.
    exists (part_line textStreamPart (JStr m)).
    eexists. eexists. split; [reflexivity|].
    rewrite StreamData_transform_eq.
    split; [reflexivity|].
    destruct self as [c p cl d a]. simpl in Hopen, Hd, Ha. subst.
    split; [reflexivity|]. split; [reflexivity|].
    apply readDataStream_decodes_lines.
    change (String.concat "" _)
      with (String.concat ""
              (map (fun it => part_line (fst it) (snd it))
                   [(dataStreamPart, JArr [v1; v2]); (textStreamPart, JStr m)])).
    rewrite decode_parts_lines; [reflexivity|].
    constructor;
      [split; [simpl; tauto | cbn [snd json_wf forallb]; now rewrite Hw1, Hw2]|].
    constructor; [split; [simpl; tauto | reflexivity]|].
    constructor.
Qed.

Lemma multiplexer_flushes_before_unit_witness :
  exists unit emitted self',
    createStreamDataTransformer true "Hi" = Ok [unit]
    /\ StreamData_transform unit
         (snd (append (JStr "second") (snd (append (JNum 1) ex_open_buffer))))
       = (Ok emitted, self')
    /\ emitted = [part_line dataStreamPart (JArr [JNum 1; JStr "second"]); unit]
    /\ data self' = []
    /\ readDataStream never_aborted emitted
       = ([ {| type := "data"; value := JArr [JNum 1; JStr "second"] |};
            {| type := "text"; value := JStr "Hi" |} ], Finished).
Proof.
  exact (proj2 multiplexer_flushes_before_unit ex_open_buffer
               (JNum 1) (JStr "second") "Hi"
               eq_refl eq_refl eq_refl eq_refl eq_refl).
Defined.

(** C9.  On a closed buffer -- one whose [isClosed] is set, in particular
    the one a successful [close()] leaves -- [close()], [append(value)] and
    [appendMessageAnnotation(value)] all fail, and the failing call leaves
    the buffer as it was. *)
Theorem closed_buffer_rejects_calls (this : StreamData) (v : json) :
  isClosed this = true \/ (exists before, close before = (Ok tt, this)) ->
  close this = (Err already_closed, this)
  /\ append v this = (Err already_closed, this)
  /\ appendMessageAnnotation v this = (Err already_closed, this).
Proof.
  intros H.
  assert (Hc : isClosed this = true).
  { destruct H as [H|(before & H)]; [exact H|].
    unfold close in H.
    destruct (isClosed before); [discriminate H|].
    destruct (controller before); [|discriminate H].
    simpl in H. injection H as <-. reflexivity. }
  unfold close, append, appendMessageAnnotation. rewrite Hc. auto.
Qed.

Lemma closed_buffer_rejects_calls_witness :
  close ex_closed_buffer = (Err already_closed, ex_closed_buffer)
  /\ append JNull ex_closed_buffer = (Err already_closed, ex_closed_buffer)
  /\ appendMessageAnnotation JNull ex_closed_buffer
     = (Err already_closed, ex_closed_buffer).
Proof.
  apply (closed_buffer_rejects_calls ex_closed_buffer JNull).
  right.
  exists (snd (append (JObj [("a", JNum 1)]) ex_open_buffer)).
  reflexivity.
Defined.

Example close_before_start_fails :
  close new_StreamData = (Err "Stream controller is not initialized.", new_StreamData).
Proof. reflexivity. Qed.

(** ** The reconstructor *)

Ltac pcr_crush :=
  repeat match goal with
         | |- context [match ?x with _ => _ end] =>
             is_var x; destruct x; simpl; try discriminate
         | |- context [nonempty ?x] =>
             is_var x; destruct x; simpl; try discriminate
         | |- context [nonempty (?a ++ _)%list] =>
             is_var a; destruct a; simpl; try discriminate
         | |- context [lookup ?k ?ms] =>
             destruct (lookup k ms) as [[]|]; simpl; try discriminate
         end;
  try (intros H; injection H as <- <- <-; split; reflexivity).

(** C3 (as the code has it).  After each part the sink receives, in the
    order function_call, tool_calls, text: the function_call accumulator if
    the part is a function_call or message_annotations part, the tool_calls
    accumulator if the part is a tool_calls or message_annotations part, and
    the text accumulator, each one only if present and each with the current
    annotation snapshot; and with them a copy of the current data channel. *)
Theorem sink_receives_reported_accumulators
        (generateId : nat -> string) (createdAt : Z)
        (st : pcr_state) (part : StreamPart)
        (st' : pcr_state) (merged : list Message) (data_ : list json) :
  pcr_step generateId createdAt st part = Ok (st', (merged, data_)) ->
  merged = accumulators st' (reported_keys (type part))
  /\ data_ = pm_data (prefixMap st').
Proof.
  destruct part as [ty v]. destruct st as [[t f tc d] ma n].
  unfold pcr_step, accumulators, reported_keys, assign_ref. cbn [type value prefixMap
    message_annotations ids_drawn].
  destruct (String.eqb_spec ty "text") as [->|?]; [simpl; pcr_crush|].
  destruct (String.eqb_spec ty "function_call") as [->|?]; [simpl; pcr_crush|].
  destruct (String.eqb_spec ty "tool_calls") as [->|?]; [simpl; pcr_crush|].
  destruct (String.eqb_spec ty "data") as [->|?]; [simpl; pcr_crush|].
  destruct (String.eqb_spec ty "message_annotations") as [->|?]; [simpl; pcr_crush|].
  repeat match goal with
         | H : _ <> _ |- _ =>
             apply String.eqb_neq in H; rewrite ?H; clear H
         end.
  simpl. pcr_crush.
Qed.

Lemma sink_receives_reported_accumulators_witness :
  fst (snd ex_text_after_call)
  = accumulators (fst ex_text_after_call) (reported_keys "text")
  /\ snd (snd ex_text_after_call) = pm_data (prefixMap (fst ex_text_after_call)).
Proof.
  apply (sink_receives_reported_accumulators
           ex_generateId 0 ex_state_after_call (ex_text_part "hi")).
  reflexivity.
Defined.

(** C3 (as stated) fails: after a function_call part and then a text part,
    the function_call accumulator is present, yet the second call of the
    sink lists the text accumulator only. *)
Lemma sink_omits_earlier_function_call :
  exists st u1 u2 fc txt,
    pcr_run ex_generateId 0 pcr_init
            [ex_function_call_part "f"; ex_text_part "hi"] = Ok (st, [u1; u2])
    /\ accumulators st [KFunctionCall; KToolCalls; KText] = [fc; txt]
    /\ fst u2 = [txt]
    /\ fst u2 <> accumulators st [KFunctionCall; KToolCalls; KText].
Proof.
  do 5 eexists. split; [reflexivity|]. split; [reflexivity|].
  split; [reflexivity|]. discriminate.
Qed.









(** Text, a data batch, more text: content ["Hi there"], data [[{"a":1}]]. *)
Example reconstruct_text_and_data :
  exists msg updates,
    parseComplexResponse ex_generateId 0 never_aborted
      [dq "0:'Hi'" ++ String NEWLINE (dq "2:[{'a':1}]") ++ String NEWLINE "";
       dq "0:' there'" ++ String NEWLINE ""]
    = Ok (([msg], [JObj [("a", JNum 1)]]), updates)
    /\ m_content msg = "Hi there" /\ m_id msg = "id-0"
    /\ List.length updates = 3.
Proof. do 2 eexists. repeat split. Qed.

(** ** [callCompletionApi], raw-text branch *)

Lemma raw_loop_consumed (aborted : nat -> bool) (reads : list string) :
  forall i j sr res calls,
    raw_loop aborted i reads sr res calls
    = raw_loop never_aborted j (consumed aborted i reads) sr res calls.
Proof.
  induction reads as [|v rest IH]; intros i j sr res calls; [reflexivity|].
  cbn [raw_loop consumed]. destruct (aborted i).
  - reflexivity.
  - cbn [never_aborted]. apply IH.
Qed.

Lemma partial_sum_from_cons (sr v : string) (rest : list string) (k : nat) :
  partial_sum_from sr (v :: rest) (S k)
  = (sr ++ v) ++ partial_sum_from (sr ++ v) rest k.
Proof.
  unfold partial_sum_from.
  change (seq 1 (S k)) with (1 :: seq 2 k).
  rewrite <- seq_shift, map_cons, map_map, concat_cons.
  cbn [firstn]. rewrite concat_cons.
  change (String.concat "" []) with "". rewrite append_nil_r.
  f_equal. f_equal. apply map_ext. intros a.
  cbn [firstn]. rewrite concat_cons. now rewrite append_assoc.
Qed.

Lemma raw_loop_never (cs : list string) :
  forall j sr res calls,
    raw_loop never_aborted j cs sr res calls
    = (res ++ partial_sum_from sr cs (List.length cs),
       (calls ++ map (fun k => (res ++ partial_sum_from sr cs k)%string)
                     (seq 1 (List.length cs)))%list).
Proof.
  induction cs as [|v rest IH]; intros j sr res calls.
  - cbn. now rewrite append_nil_r, List.app_nil_r.
  - cbn [raw_loop never_aborted decode_chunk List.length].
    rewrite IH. rewrite partial_sum_from_cons.
    f_equal.
    + now rewrite !append_assoc.
    + rewrite <- List.app_assoc. f_equal.
      change (seq 1 (S (List.length rest))) with (1 :: seq 2 (List.length rest)).
      rewrite <- (seq_shift (List.length rest) 1), map_cons, map_map.
      cbn [List.app]. f_equal.
      all: try (apply map_ext; intros a; rewrite partial_sum_from_cons;
                now rewrite !append_assoc).
      all: rewrite ?partial_sum_from_cons; cbn; now rewrite ?append_nil_r.
Qed.

Lemma consumed_never (reads : list string) (i : nat) :
  consumed never_aborted i reads = reads.
Proof.
  revert i. induction reads as [|v rest IH]; intros i; [reflexivity|].
  cbn. now rewrite IH.
Qed.

Lemma last_map_seq (f : nat -> string) (n : nat) (d : string) :
  last (map f (seq 1 (S n))) d = f (S n).
Proof.
  rewrite seq_S, map_app. cbn [map]. apply last_last.
Qed.

(** C10.  In raw-text mode (the header is absent or not ["true"]), with
    [c1, ..., cn] the chunks read -- all chunks of the body, unless the
    request is found aborted after one of them, which ends the reading --
    the call returns [c1 + (c1+c2) + ... + (c1+...+cn)], passes it to
    [onFinish], and has called [setCompletion] after the [k]-th chunk with
    [c1 + ... + (c1+...+ck)], last with the returned string. *)
Theorem raw_mode_result_sums_running_prefixes
        (prompt text : string) (body : list string) (header : option string)
        (abortController : option (nat -> bool)) (onFinish onData : bool) :
  header <> Some "true" ->
  let aborted := match abortController with
                 | Some f => f
                 | None => never_aborted
                 end in
  let cs := consumed aborted 0 body in
  callCompletionApi prompt
    {| res_ok := true; res_text := text; res_body := Some body;
       res_complex_header := header |}
    abortController onFinish onData
  = Ok {| returned := Some (sum_of_running_prefixes cs);
          setCompletion_calls := map (partial_sum cs) (seq 1 (List.length cs));
          onFinish_calls :=
            if onFinish then [(prompt, sum_of_running_prefixes cs)] else [];
          onData_calls := [] |}
  /\ (cs <> [] ->
      last (map (partial_sum cs) (seq 1 (List.length cs))) ""
      = sum_of_running_prefixes cs)
  /\ (abortController = None -> cs = body).
Proof.
  intros Hh aborted cs. split; [|split].
  - unfold callCompletionApi. cbn [res_ok res_body res_complex_header negb].
    assert (Hc : match header with
                 | Some h => String.eqb h "true"
                 | None => false
                 end = false).
    { destruct header as [h|]; [|reflexivity].
      destruct (String.eqb_spec h "true") as [->|]; [congruence | reflexivity]. }
    rewrite Hc.
    replace (raw_loop match abortController with
                      | Some f => f
                      | None => fun _ : nat => false
                      end 0 body "" "" [])
      with (raw_loop aborted 0 body "" "" [])
      by (unfold aborted; destruct abortController; reflexivity).
    rewrite (raw_loop_consumed aborted body 0 0).
    fold cs. rewrite raw_loop_never. reflexivity.
  - intros Hne. destruct (List.length cs) as [|n] eqn:E.
    + destruct cs; [congruence | discriminate E].
    + rewrite last_map_seq. unfold sum_of_running_prefixes, running_prefixes.
      rewrite E. reflexivity.
  - intros ->. unfold cs, aborted. apply consumed_never.
Qed.

Lemma raw_mode_result_sums_running_prefixes_witness :
  callCompletionApi "p" (raw_response ["ab"; "c"; "d"]) None true false
  = Ok {| returned := Some "ababcabcd";
          setCompletion_calls := ["ab"; "ababc"; "ababcabcd"];
          onFinish_calls := [("p", "ababcabcd")];
          onData_calls := [] |}.
Proof.
  exact (proj1 (raw_mode_result_sums_running_prefixes
                  "p" "" ["ab"; "c"; "d"] None None true false
                  ltac:(discriminate))).
Defined.

(** ** The function/tool-call interceptor *)

Lemma fct_transform_total (b : bool) (st : fct_state) (chunk : string) :
  exists st' q,
    fct_transform b st chunk = Ok (st', q)
    /\ aggregatedFinalCompletionResponse st'
       = aggregatedFinalCompletionResponse st ++ chunk.
Proof.
  unfold fct_transform.
  destruct (isFirstChunk st
            && (startsWith chunk (dq "{'function_call':")
                || startsWith chunk (dq "{'tool_calls':"))).
  - eexists; eexists; split; reflexivity.
  - destruct (isFunctionStreamingIn st); cbn [negb].
    + eexists; eexists; split; reflexivity.
    + destruct b; eexists; eexists; split; reflexivity.
Qed.

Lemma fct_transform_all_total (b : bool) (chunks : list string) :
  forall st, exists st' q,
    fct_transform_all b st chunks = Ok (st', q)
    /\ aggregatedFinalCompletionResponse st'
       = aggregatedFinalCompletionResponse st ++ String.concat "" chunks.
Proof.
  induction chunks as [|c rest IH]; intros st.
  - exists st, []. split; [reflexivity|]. cbn. now rewrite append_nil_r.
  - destruct (fct_transform_total b st c) as (st1 & q1 & E1 & A1).
    destruct (IH st1) as (st2 & q2 & E2 & A2).
    exists st2, (q1 ++ q2)%list. cbn [fct_transform_all].
    rewrite E1. cbn [bind]. rewrite E2. cbn [bind].
    split; [reflexivity|].
    now rewrite A2, A1, concat_cons, append_assoc.
Qed.

(** While capturing, every unit is buffered and nothing is forwarded. *)
Lemma fct_transform_all_capturing (b : bool) (chunks : list string) :
  forall agg aggFinal,
    fct_transform_all b
      {| isFirstChunk := false; aggregatedResponse := agg;
         aggregatedFinalCompletionResponse := aggFinal;
         isFunctionStreamingIn := true |} chunks
    = Ok ({| isFirstChunk := false;
             aggregatedResponse := agg ++ String.concat "" chunks;
             aggregatedFinalCompletionResponse := aggFinal ++ String.concat "" chunks;
             isFunctionStreamingIn := true |}, []).
Proof.
  induction chunks as [|c rest IH]; intros agg aggFinal.
  - cbn. now rewrite !append_nil_r.
  - cbn [fct_transform_all]. unfold fct_transform at 1.
    cbn [isFirstChunk isFunctionStreamingIn andb negb aggregatedResponse
         aggregatedFinalCompletionResponse bind].
    rewrite IH. cbn [bind List.app].
    now rewrite concat_cons, !append_assoc.
Qed.

(** A first unit that opens a call puts the stage in the capturing state. *)
Lemma fct_transform_all_captures (b : bool) (c : string) (rest : list string) :
  opens_call c = true ->
  fct_transform_all b fct_init (c :: rest)
  = Ok ({| isFirstChunk := false;
           aggregatedResponse := String.concat "" (c :: rest);
           aggregatedFinalCompletionResponse := String.concat "" (c :: rest);
           isFunctionStreamingIn := true |}, []).
Proof.
  intros Hc. unfold opens_call in Hc.
  cbn [fct_transform_all]. unfold fct_transform at 1.
  cbn [fct_init isFirstChunk andb]. rewrite Hc.
  cbn [bind aggregatedResponse aggregatedFinalCompletionResponse String.append].
  rewrite fct_transform_all_capturing. cbn [bind List.app].
  now rewrite concat_cons.
Qed.

Lemma formatStreamPart_payload (payload : json) :
  formatStreamPart (if truthy (prop (Some payload) "function_call")
                    then "function_call" else "tool_calls") payload
  = Ok (part_line (payload_part payload) payload).
Proof.
  unfold payload_part.
  destruct (truthy (prop (Some payload) "function_call")); reflexivity.
Qed.

Lemma streamDataTransformer_all_spec (b : bool) (chunks : list string) :
  streamDataTransformer_all b chunks
  = Ok (if b then map (fun m => part_line textStreamPart (JStr m)) chunks
        else chunks).
Proof.
  unfold streamDataTransformer_all.
  assert (H : mapM (createStreamDataTransformer b) chunks
              = Ok (map (fun m => [if b then part_line textStreamPart (JStr m)
                                   else m]) chunks)).
  { induction chunks as [|c rest IH]; [reflexivity|].
    cbn [mapM map]. rewrite IH. destruct b; reflexivity. }
  rewrite H. cbn [bind]. f_equal. clear H.
  destruct b.
  - induction chunks as [|c rest IH]; [reflexivity|].
    simpl. simpl in IH. now rewrite IH.
  - induction chunks as [|c rest IH]; [reflexivity|].
    simpl. simpl in IH. now rewrite IH.
Qed.

(** C7 (as the code has it).  Let the first unit open a call, so that the
    interceptor captures the whole input, and let the buffered text parse
    to [payload].  If [experimental_onFunctionCall] is the configured
    callback, the payload is a function call with parsable arguments and
    the callback returns nothing; or if [experimental_onToolCall] is the
    configured callback, the payload lists tool calls and the callback
    returns nothing or throws: then exactly one chunk is forwarded -- under
    multiplexing the [function_call]/[tool_calls] part whose value is the
    parsed buffer, otherwise the buffered text itself -- and the stream
    closes without error.  With neither callback configured the interceptor
    is not installed: every unit goes through on its own, as a [text] part
    under multiplexing. *)
Theorem unanswered_call_is_forwarded
        (OpenAIStream_rec : list string -> OpenAICallbacks -> StreamRun)
        (cb : OpenAICallbacks) (c : string) (rest : list string) (payload : json) :
  opens_call c = true ->
  JSON_parse (String.concat "" (c :: rest)) = Some payload ->
  let buffered := String.concat "" (c :: rest) in
  let forwarded :=
    {| out := [unanswered_chunk cb payload buffered];
       hooks := finally_hook cb buffered;
       outcome := Closed |} in
  (forall h args,
      experimental_onFunctionCall cb = Some h ->
      experimental_onToolCall cb = None ->
      eq_null (prop (Some payload) "function_call") = false ->
      JSON_parse_js (prop (prop (Some payload) "function_call") "arguments")
      = Some args ->
      no_response
        (fst (h {| fc_name := prop (prop (Some payload) "function_call") "name";
                   fc_arguments := args |} (fn_messages cb))) = true ->
      createFunctionCallTransformer OpenAIStream_rec cb (c :: rest) = forwarded
      /\ payload_part payload = functionCallStreamPart)
  /\ (forall g tools,
         experimental_onFunctionCall cb = None ->
         experimental_onToolCall cb = Some g ->
         tools_of (prop (Some payload) "tool_calls") = Ok tools ->
         (no_response (fst (g tools (fn_messages cb))) = true
          \/ exists e, fst (g tools (fn_messages cb)) = Throws e) ->
         createFunctionCallTransformer OpenAIStream_rec cb (c :: rest) = forwarded)
  /\ (forall fuel res cb',
         intercepts cb' = false ->
         OpenAIStream (S fuel) res cb'
         = {| out := if experimental_streamData cb'
                     then map (fun m => part_line textStreamPart (JStr m)) res
                     else res;
              hooks := hooks (createCallbacksTransformer cb' res);
              outcome := Closed |}).
Proof.
  intros Hopen Hparse buffered forwarded. subst buffered forwarded.
  split; [|split].
  - intros h args Hf Ht Hfc Hargs Hr.
    assert (Hpart : payload_part payload = functionCallStreamPart).
    { unfold payload_part.
      destruct (prop (Some payload) "function_call") as [[| | | | |ms]|];
        try discriminate Hargs; try discriminate Hfc. reflexivity. }
    split; [|exact Hpart].
    unfold createFunctionCallTransformer.
    rewrite fct_transform_all_captures by exact Hopen.
    unfold fct_flush, flush_decision, intercepts.
    cbn [isFirstChunk isFunctionStreamingIn aggregatedResponse
         aggregatedFinalCompletionResponse negb andb].
    rewrite Hf, Ht. cbn [is_some orb negb].
    rewrite Hparse, Hfc, Hargs.
    destruct (h _ _) as [r created]. cbn [fst] in Hr.
    unfold unanswered_chunk, finally_hook.
    destruct r as [e| |s|res]; try discriminate Hr.
    + rewrite formatStreamPart_payload.
      destruct (experimental_streamData cb); reflexivity.
    + cbn in Hr. apply String.eqb_eq in Hr. subst s.
      rewrite formatStreamPart_payload.
      destruct (experimental_streamData cb); reflexivity.
  - intros g tools Hf Ht Htools Hr.
    unfold createFunctionCallTransformer.
    rewrite fct_transform_all_captures by exact Hopen.
    unfold fct_flush, flush_decision, intercepts.
    cbn [isFirstChunk isFunctionStreamingIn aggregatedResponse
         aggregatedFinalCompletionResponse negb andb].
    rewrite Hf, Ht. cbn [is_some orb negb].
    rewrite Hparse, Htools.
    destruct (g _ _) as [r results]. cbn [fst] in Hr.
    unfold unanswered_chunk, finally_hook.
    destruct Hr as [Hr|(e & ->)].
    + destruct r as [e| |s|res]; try discriminate Hr.
      * rewrite formatStreamPart_payload.
        destruct (experimental_streamData cb); reflexivity.
      * cbn in Hr. apply String.eqb_eq in Hr. subst s.
        rewrite formatStreamPart_payload.
        destruct (experimental_streamData cb); reflexivity.
    + rewrite formatStreamPart_payload.
      destruct (experimental_streamData cb); reflexivity.
  - intros fuel res cb' Hi. cbn [OpenAIStream]. rewrite Hi.
    cbn [out createCallbacksTransformer].
    rewrite streamDataTransformer_all_spec. reflexivity.
Qed.

Lemma unanswered_call_is_forwarded_witness :
  createFunctionCallTransformer
    (OpenAIStream 0) (with_function_handler true silent_function_handler)
    ex_call_chunks
  = {| out := [part_line functionCallStreamPart ex_call_payload];
       hooks := [EvFinal (String.concat "" ex_call_chunks)];
       outcome := Closed |}.
Proof.
  exact (proj1 (proj1 (unanswered_call_is_forwarded
                         (OpenAIStream 0)
                         (with_function_handler true silent_function_handler)
                         (dq "{'function_call':")
                         [dq "{'name':'f','arguments':'{}'}}"]
                         ex_call_payload eq_refl eq_refl)
                      silent_function_handler (JObj [])
                      eq_refl eq_refl eq_refl eq_refl eq_refl)).
Defined.

(** The same through the whole pipeline, and what the client decodes. *)
Example silent_callback_pipeline :
  OpenAIStream 1 ex_call_chunks (with_function_handler true silent_function_handler)
  = {| out := [dq "1:{'function_call':{'name':'f','arguments':'{}'}}"
               ++ String NEWLINE ""];
       hooks := [EvFinal (dq "{'function_call':{'name':'f','arguments':'{}'}}")];
       outcome := Closed |}
  /\ readDataStream never_aborted
       (out (OpenAIStream 1 ex_call_chunks
                          (with_function_handler true silent_function_handler)))
     = ([{| type := "function_call"; value := ex_call_payload |}], Finished).
Proof. split; reflexivity. Qed.

(** C7 (as stated) fails.  With no callback configured the two chunks are
    forwarded as two [text] parts, not as one [function_call] part; the
    interceptor stage itself, run without callbacks, forwards nothing; and
    with only the tool-call callback configured the function-call payload
    ends the stream with an error. *)
Lemma call_without_callback_is_not_forwarded_as_part :
  OpenAIStream 2 ex_call_chunks (no_callbacks true)
  = {| out := [part_line textStreamPart (JStr (dq "{'function_call':"));
               part_line textStreamPart (JStr (dq "{'name':'f','arguments':'{}'}}"))];
       hooks := [EvFinal (String.concat "" ex_call_chunks)];
       outcome := Closed |}
  /\ out (OpenAIStream 2 ex_call_chunks (no_callbacks true))
     <> [part_line functionCallStreamPart ex_call_payload]
  /\ out (createFunctionCallTransformer (OpenAIStream 1) (no_callbacks true)
                                        ex_call_chunks) = []
  /\ createFunctionCallTransformer (OpenAIStream 1)
       (with_tool_handler true silent_tool_handler) ex_call_chunks
     = {| out := []; hooks := [EvFinal (String.concat "" ex_call_chunks)];
          outcome := Errored "TypeError" |}.
Proof.
  split; [reflexivity|]. split; [discriminate|]. split; reflexivity.
Qed.

(** A function-call callback that throws ends the stream with its error:
    unlike the tool-call callback, it is not called inside a [try]. *)
Example throwing_function_callback_errors_stream :
  OpenAIStream 1 ex_call_chunks (with_function_handler true throwing_function_handler)
  = {| out := []; hooks := [EvFinal (String.concat "" ex_call_chunks)];
       outcome := Errored "boom" |}.
Proof. reflexivity. Qed.

(** *** The final hook *)

Lemma finals_of_app (a b : list HookEvent) :
  finals_of (a ++ b) = (finals_of a ++ finals_of b)%list.
Proof. unfold finals_of. apply flat_map_app. Qed.

Lemma finals_of_tokens (l : list string) : finals_of (map EvToken l) = [].
Proof. induction l as [|x l IH]; [reflexivity | exact IH]. Qed.

Lemma finals_callbacks_stage (cb : OpenAICallbacks) (res : list string) :
  finals_of (hooks (createCallbacksTransformer cb res))
  = if onFinal cb && negb (isOfTypeOpenAIStreamCallbacks cb)
    then [String.concat "" res] else [].
Proof.
  unfold createCallbacksTransformer. cbn [hooks].
  rewrite !finals_of_app.
  destruct (onStart cb), (onToken cb), (onCompletion cb),
    (onFinal cb && negb (isOfTypeOpenAIStreamCallbacks cb));
    rewrite ?finals_of_tokens; reflexivity.
Qed.

Lemma final_calls_step (fuel : nat) (res : list string) (cb : OpenAICallbacks) :
  intercepts cb = true ->
  final_calls (OpenAIStream (S fuel) res cb)
  = match invocation_path cb res with
    | Continues res' messages =>
        final_calls (OpenAIStream fuel res' (continuation_callbacks cb messages))
    | _ =>
        if onFinal cb && negb (String.eqb (String.concat "" res) "")
        then [String.concat "" res] else []
    end.
Proof.
  intros Hi. cbn [OpenAIStream]. rewrite Hi.
  change (final_calls ?r) with (finals_of (hooks r)). cbn [hooks].
  rewrite finals_of_app, finals_callbacks_stage. cbn [set_onFinal onFinal andb].
  cbn [List.app out createCallbacksTransformer].
  unfold createFunctionCallTransformer, invocation_path.
  destruct (fct_transform_all_total (experimental_streamData cb) res fct_init)
    as (st & q & E & A).
  rewrite E. cbn [hooks]. cbn in A. rewrite <- A.
  unfold fct_flush.
  destruct (flush_decision cb st); cbn [hooks];
    try (destruct (onFinal cb
                   && negb (String.eqb (aggregatedFinalCompletionResponse st) ""));
         reflexivity).
  rewrite finals_of_app. cbn [set_onFinal onFinal andb finals_of flat_map].
  now rewrite List.app_nil_r.
Qed.

(** C8 (as the code has it).  With the interceptor active the final hook
    is called at most once in the whole run, and never by an invocation
    that passes a continuation on: the calls of a run whose callback seeds
    a continuation are exactly the calls made while that continuation is
    processed.  The invocation that does not continue calls the hook iff the
    hook is configured and the units it received are not all empty, with
    the concatenation of the units that this invocation received. *)
Theorem final_hook_comes_from_last_invocation :
  (forall fuel res cb, List.length (final_calls (OpenAIStream fuel res cb)) <= 1)
  /\ (forall fuel res cb,
         intercepts cb = true ->
         final_calls (OpenAIStream (S fuel) res cb)
         = match invocation_path cb res with
           | Continues res' messages =>
               final_calls
                 (OpenAIStream fuel res' (continuation_callbacks cb messages))
           | _ =>
               if onFinal cb && negb (String.eqb (String.concat "" res) "")
               then [String.concat "" res] else []
           end).
Proof.
  split; [|exact final_calls_step].
  induction fuel as [|fuel IH]; intros res cb.
  - cbn. lia.
  - destruct (intercepts cb) eqn:Hi.
    + rewrite final_calls_step by exact Hi.
      destruct (invocation_path cb res);
        try (destruct (onFinal cb && negb (String.eqb (String.concat "" res) ""));
             cbn; lia).
      apply IH.
    + cbn [OpenAIStream]. rewrite Hi. cbn [out createCallbacksTransformer].
      rewrite streamDataTransformer_all_spec.
      change (final_calls ?r) with (finals_of (hooks r)). cbn [hooks].
      rewrite finals_callbacks_stage.
      destruct (onFinal cb && negb (isOfTypeOpenAIStreamCallbacks cb)); cbn; lia.
Qed.

Lemma final_hook_comes_from_last_invocation_witness :
  final_calls ex_chained_run = [ex_second_call].
Proof.
  unfold ex_chained_run.
  rewrite (proj2 final_hook_comes_from_last_invocation 2 ex_call_chunks
                 (with_function_handler false chaining_handler) eq_refl).
  reflexivity.
Defined.

(** C8 (as stated) fails.  The callback answers the call of [f] with a
    continuation, which asks for [g], and answers that with the string
    ["done"]: the hook is called with the text of the call of [g] -- not
    with the concatenation of what went through the stage (["done"]), nor
    with that of the chunks received at all depths.  And when the
    continuation yields nothing, the hook is not called at all. *)
Lemma final_hook_misses_outer_chunks :
  outcome ex_chained_run = Closed
  /\ out ex_chained_run = ["done"]
  /\ final_calls ex_chained_run = [ex_second_call]
  /\ ex_second_call <> String.concat "" (out ex_chained_run)
  /\ ex_second_call <> String.concat "" (ex_call_chunks ++ [ex_second_call])
  /\ outcome ex_empty_continuation_run = Closed
  /\ final_calls ex_empty_continuation_run = [].
Proof.
  repeat split; try reflexivity; discriminate.
Qed.

(** ** More about the part table *)

Lemma formatStreamPart_inv (k : string) (v : json) (line : string) :
  formatStreamPart k v = Ok line ->
  exists sp, In sp streamParts /\ name sp = k /\ line = part_line sp v.
Proof.
  unfold formatStreamPart.
  destruct (find (fun part => String.eqb (name part) k) streamParts) as [sp|] eqn:E;
    [|discriminate].
  intros [= <-]. apply find_some in E. destruct E as [Hin Hn].
  apply String.eqb_eq in Hn. exists sp. auto.
Qed.

(** X1.  an encoded line has exactly one newline byte, its last. *)
Theorem formatStreamPart_single_line (k : string) (v : json) (line : string) :
  formatStreamPart k v = Ok line ->
  exists body,
    line = body ++ String NEWLINE ""
    /\ no_newline body = true
    /\ body <> ""
    /\ nonempty_lines line = [body].
Proof.
  intros H. destruct (formatStreamPart_inv k v line H) as (sp & Hin & _ & ->).
  destruct (no_newline_part_text sp v Hin) as [Hn Hne].
  exists (part_text sp v). repeat split; try assumption.
  - rewrite <- (append_nil_r (part_line sp v)). rewrite part_line_text.
    reflexivity.
  - rewrite <- (append_nil_r (part_line sp v)). rewrite part_line_text.
    now rewrite nonempty_lines_cons.
Qed.

Lemma formatStreamPart_single_line_witness :
  exists body,
    dq "0:'a\nb'" ++ String NEWLINE "" = body ++ String NEWLINE ""
    /\ no_newline body = true
    /\ body <> ""
    /\ nonempty_lines (dq "0:'a\nb'" ++ String NEWLINE "") = [body].
Proof.
  exact (formatStreamPart_single_line
           "text" (JStr (String "a" (String NEWLINE "b"))) _ eq_refl).
Defined.

Lemma indexOf_split (c : ascii) (line : string) (i : nat) :
  indexOf c line = Some i ->
  line = slice_to i line ++ String c (slice_from (i + 1) line)
  /\ indexOf c (slice_to i line) = None.
Proof.
  revert i. induction line as [|a r IH]; intros i; simpl; [discriminate|].
  destruct (Ascii.eqb_spec a c) as [->|Hne].
  - intros [= <-]. simpl. split; reflexivity.
  - destruct (indexOf c r) as [j|]; [|discriminate].
    intros [= <-]. destruct (IH j eq_refl) as [E N]. simpl.
    split.
    + now rewrite <- E.
    + destruct (Ascii.eqb_spec a c); [contradiction|]. now rewrite N.
Qed.

Ltac try_part sp :=
  exists sp; split; [simpl; tauto | split; reflexivity].

Ltac pick_part_by_code :=
  first [ try_part textStreamPart
        | try_part functionCallStreamPart
        | try_part dataStreamPart
        | try_part errorStreamPart
        | try_part assistantMessageStreamPart
        | try_part assistantControlDataStreamPart
        | try_part dataMessageStreamPart
        | try_part toolCallStreamPart
        | try_part messageAnnotationsStreamPart ].

Lemma includes_validCodes (prefix : string) :
  includes validCodes prefix = true ->
  exists sp, In sp streamParts /\ code sp = prefix
             /\ streamPartsByCode prefix = Some sp.
Proof.
  unfold includes, validCodes. simpl.
  repeat match goal with
         | |- context [String.eqb prefix ?s] =>
             destruct (String.eqb_spec prefix s) as [->|_];
             [intros _; pick_part_by_code|]
         end.
  simpl. discriminate.
Qed.

Lemma parse_type (sp : StreamPartType) (j : json) (p : StreamPart) :
  In sp streamParts -> parse sp j = Ok p -> type p = name sp.
Proof.
  intros Hin. simpl in Hin.
  repeat (destruct Hin as [<-|Hin]); try contradiction;
    cbv [textStreamPart functionCallStreamPart dataStreamPart errorStreamPart
         assistantMessageStreamPart assistantControlDataStreamPart
         dataMessageStreamPart toolCallStreamPart messageAnnotationsStreamPart
         parse name];
    match goal with
    | |- (if ?c then _ else _) = _ -> _ => destruct c; [discriminate|]
    end;
    try (intros [= <-]; reflexivity).
  destruct (prop (Some j) "threadId"); [|discriminate].
  destruct (prop (Some j) "messageId"); [|discriminate].
  intros [= <-]. reflexivity.
Qed.

(** X2.  a line decodes only if it is a known code, a colon and a JSON text
    that the validator of that code accepts; the part then has the kind of
    that code. *)
Theorem parseStreamPart_inversion (line : string) (p : StreamPart) :
  parseStreamPart line = Ok p ->
  exists sp text j,
    In sp streamParts
    /\ line = code sp ++ ":" ++ text
    /\ JSON_parse text = Some j
    /\ parse sp j = Ok p
    /\ type p = name sp.
Proof.
  unfold parseStreamPart.
  destruct (indexOf ":" line) as [i|] eqn:Hi; [|discriminate].
  destruct (includes validCodes (slice_to i line)) eqn:Hc; cbn [negb];
    [|discriminate].
  destruct (JSON_parse (slice_from (i + 1) line)) as [j|] eqn:Hj; [|discriminate].
  destruct (includes_validCodes _ Hc) as (sp & Hin & Hcode & Hby).
  rewrite Hby. intros Hp.
  exists sp, (slice_from (i + 1) line), j.
  destruct (indexOf_split _ _ _ Hi) as [E _].
  repeat split; try assumption.
  - rewrite Hcode. exact E.
  - eapply parse_type; eassumption.
Qed.

Lemma parseStreamPart_inversion_witness :
  exists sp text j,
    In sp streamParts
    /\ dq "2:[1, 2]" = code sp ++ ":" ++ text
    /\ JSON_parse text = Some j
    /\ parse sp j = Ok {| type := "data"; value := JArr [JNum 1; JNum 2] |}
    /\ type {| type := "data"; value := JArr [JNum 1; JNum 2] |} = name sp.
Proof.
  exact (parseStreamPart_inversion (dq "2:[1, 2]") _ eq_refl).
Defined.

Lemma ends_with_newline_part_line (sp : StreamPartType) (v : json) :
  ends_with_newline (part_line sp v) = true.
Proof.
  unfold part_line. rewrite <- !append_assoc.
  apply ends_with_newline_app. reflexivity.
Qed.

(** X3.  [isStreamStringEqualToType] recognizes the kind of an encoded line:
    on the line of a part of kind [k] it answers [true] for [k] and [false]
    for every other kind of the table. *)
Theorem isStreamStringEqualToType_formatStreamPart
        (k k' : string) (v : json) (line : string) :
  formatStreamPart k v = Ok line ->
  In k' (map name streamParts) ->
  isStreamStringEqualToType k' line = String.eqb k' k.
Proof.
  intros H Hk'. destruct (formatStreamPart_inv k v line H) as (sp & Hin & <- & ->).
  unfold isStreamStringEqualToType.
  rewrite ends_with_newline_part_line, andb_true_r.
  unfold part_line. set (t := JSON_stringify v ++ String NEWLINE "").
  simpl in Hin, Hk'.
  repeat (destruct Hin as [<-|Hin]); try contradiction;
    repeat (destruct Hk' as [<-|Hk']); try contradiction; reflexivity.
Qed.

Lemma isStreamStringEqualToType_formatStreamPart_witness :
  isStreamStringEqualToType "data" (dq "0:'hi'" ++ String NEWLINE "") = false
  /\ isStreamStringEqualToType "text" (dq "0:'hi'" ++ String NEWLINE "") = true.
Proof.
  split.
  - exact (isStreamStringEqualToType_formatStreamPart
             "text" "data" (JStr "hi") _ eq_refl
             ltac:(simpl; tauto)).
  - exact (isStreamStringEqualToType_formatStreamPart
             "text" "text" (JStr "hi") _ eq_refl
             ltac:(simpl; tauto)).
Defined.

(** X4.  a sequence of parts, each of the shape of its kind, encoded line by
    line and concatenated, is decoded by the multiplexed chunk decoder into
    the same sequence of (normalized) parts. *)
Theorem createChunkDecoder_complex_roundtrip (items : list (string * json)) :
  Forall (fun it => json_wf (snd it) = true
                    /\ spec_shape (fst it) (snd it) = true) items ->
  exists lines,
    formatStreamParts items = Ok lines
    /\ createChunkDecoder_complex (String.concat "" lines)
       = Ok (map (fun it => {| type := fst it;
                               value := normalized_payload (fst it) (snd it) |})
                 items).
Proof.
  intros Hall.
  assert (Hsp : exists sps,
             Forall2 (fun it sp => In sp streamParts /\ name sp = fst it) items sps).
  { induction Hall as [|[k v] items [_ Hs] _ (sps & IH)].
    - exists []. constructor.
    - destruct (spec_shape_kind k v Hs) as (sp & Hin & Hn).
      exists (sp :: sps). constructor; auto. }
  destruct Hsp as (sps & Hsp).
  exists (map (fun it => part_line (fst it) (snd it))
              (combine sps (map snd items))).
  revert Hall. induction Hsp as [|[k v] sp items sps [Hin Hn] _ IH]; intros Hall.
  - split; reflexivity.
  - inversion Hall as [|? ? [Hwf Hshape] Hall']; subst. cbn [fst snd] in *.
    destruct (IH Hall') as (Hf & Hd).
    split.
    + unfold formatStreamParts in *. cbn [mapM map combine fst snd].
      rewrite <- Hn, formatStreamPart_table by exact Hin. cbn [bind].
      rewrite Hf. reflexivity.
    + unfold createChunkDecoder_complex in *.
      cbn [map combine fst snd]. rewrite concat_cons, part_line_text.
      destruct (no_newline_part_text sp v Hin) as [Hnn Hne].
      fold (nonempty_lines (part_text sp v ++
              String NEWLINE (String.concat ""
                (map (fun it => part_line (fst it) (snd it))
                     (combine sps (map snd items)))))).
      rewrite nonempty_lines_cons by assumption.
      cbn [mapM]. rewrite parse_part_text by assumption.
      rewrite <- Hn in Hshape |- *.
      rewrite (parse_spec_shape sp v Hin Hshape). cbn [bind].
      unfold nonempty_lines. rewrite Hd. reflexivity.
Qed.

Lemma createChunkDecoder_complex_roundtrip_witness :
  exists lines,
    formatStreamParts [("text", JStr "Hi"); ("data", JArr [JObj [("a", JNum 1)]]);
                       ("text", JStr " there")] = Ok lines
    /\ createChunkDecoder_complex (String.concat "" lines)
       = Ok [ {| type := "text"; value := JStr "Hi" |};
              {| type := "data"; value := JArr [JObj [("a", JNum 1)]] |};
              {| type := "text"; value := JStr " there" |} ].
Proof.
  apply (createChunkDecoder_complex_roundtrip
           [("text", JStr "Hi"); ("data", JArr [JObj [("a", JNum 1)]]);
            ("text", JStr " there")]).
  repeat constructor.
Defined.

(** ** What a pass of the reconstructor accumulates *)

Lemma pcr_step_accumulates (generateId : nat -> string) (createdAt : Z)
      (st : pcr_state) (part : StreamPart) (st' : pcr_state) (u : Update) :
  pcr_step generateId createdAt st part = Ok (st', u) ->
  text_content st' = text_content st ++ part_text_value part
  /\ pm_data (prefixMap st') = (pm_data (prefixMap st) ++ part_data_values part)%list
  /\ snapshot st' = (snapshot st ++ part_annotation_values part)%list.
Proof.
  destruct part as [ty v]. destruct st as [[t f tc d] ma n]. destruct u as [mg dt].
  unfold pcr_step, assign_ref, text_content, snapshot,
    part_text_value, part_data_values, part_annotation_values.
  cbn [type value prefixMap message_annotations ids_drawn].
  destruct (String.eqb_spec ty "text") as [->|?];
    [simpl; pcr_crush; intros H; injection H as <- _ _; cbn;
     rewrite ?append_nil_r, ?List.app_nil_r; auto|].
  destruct (String.eqb_spec ty "function_call") as [->|?];
    [simpl; pcr_crush; intros H; injection H as <- _ _; cbn;
     rewrite ?append_nil_r, ?List.app_nil_r; auto|].
  destruct (String.eqb_spec ty "tool_calls") as [->|?];
    [simpl; pcr_crush; intros H; injection H as <- _ _; cbn;
     rewrite ?append_nil_r, ?List.app_nil_r; auto|].
  destruct (String.eqb_spec ty "data") as [->|?];
    [simpl; pcr_crush; intros H; injection H as <- _ _; cbn;
     rewrite ?append_nil_r, ?List.app_nil_r; auto|].
  destruct (String.eqb_spec ty "message_annotations") as [->|?];
    [simpl; pcr_crush; intros H; injection H as <- _ _; cbn;
     rewrite ?append_nil_r, ?List.app_nil_r; auto|].
  repeat match goal with
         | H : _ <> _ |- _ => apply String.eqb_neq in H; rewrite ?H; clear H
         end.
  simpl; pcr_crush; intros H; injection H as <- _ _; cbn;
    rewrite ?append_nil_r, ?List.app_nil_r; auto.
Qed.

Lemma pcr_run_cons_inv (generateId : nat -> string) (createdAt : Z)
      (st : pcr_state) (part : StreamPart) (rest : list StreamPart)
      (st' : pcr_state) (ups : list Update) :
  pcr_run generateId createdAt st (part :: rest) = Ok (st', ups) ->
  exists st1 u us,
    pcr_step generateId createdAt st part = Ok (st1, u)
    /\ pcr_run generateId createdAt st1 rest = Ok (st', us)
    /\ ups = u :: us.
Proof.
  cbn [pcr_run].
  destruct (pcr_step generateId createdAt st part) as [[st1 u]|] eqn:E1;
    [|discriminate].
  cbn [bind].
  destruct (pcr_run generateId createdAt st1 rest) as [[st2 us]|] eqn:E2;
    [|discriminate].
  cbn [bind]. intros H. injection H as <- <-. exists st1, u, us. auto.
Qed.

Lemma pcr_run_channels (generateId : nat -> string) (createdAt : Z)
      (parts : list StreamPart) (st st' : pcr_state) (ups : list Update) :
  pcr_run generateId createdAt st parts = Ok (st', ups) ->
  text_content st' = text_content st ++ text_of parts
  /\ pm_data (prefixMap st') = (pm_data (prefixMap st) ++ data_of parts)%list
  /\ snapshot st' = (snapshot st ++ annotations_of parts)%list.
Proof.
  revert st st' ups. induction parts as [|part rest IH]; intros st st' ups Hrun.
  - cbn in Hrun. injection Hrun as <- <-. cbn.
    now rewrite append_nil_r, !List.app_nil_r.
  - destruct (pcr_run_cons_inv _ _ _ _ _ _ _ Hrun) as (st1 & u & us & Hs & Hr & ->).
    destruct (pcr_step_accumulates _ _ _ _ _ _ Hs) as (T1 & D1 & A1).
    destruct (IH _ _ _ Hr) as (T2 & D2 & A2).
    unfold text_of, data_of, annotations_of in *.
    cbn [map flat_map]. rewrite concat_cons.
    rewrite T2, D2, A2, T1, D1, A1.
    now rewrite append_assoc, <- !List.app_assoc.
Qed.

Lemma pcr_run_updates (generateId : nat -> string) (createdAt : Z)
      (parts : list StreamPart) :
  forall st st' ups,
    pcr_run generateId createdAt st parts = Ok (st', ups) ->
    List.length ups = List.length parts.
Proof.
  induction parts as [|part rest IH]; intros st st' ups Hrun.
  - cbn in Hrun. now injection Hrun as <- <-.
  - destruct (pcr_run_cons_inv _ _ _ _ _ _ _ Hrun) as (st1 & u & us & Hs & Hr & ->).
    cbn [List.length]. now rewrite (IH _ _ _ Hr).
Qed.

(** X5.  at the end of a pass the text accumulator holds the concatenation
    of the values of all text parts, the data channel the elements of all
    data parts and the annotation channel the elements of all
    message_annotations parts, each in stream order and after what was there
    before; the sink has been called once per part. *)
Theorem pcr_run_accumulates (generateId : nat -> string) (createdAt : Z)
        (parts : list StreamPart) (st st' : pcr_state) (ups : list Update) :
  pcr_run generateId createdAt st parts = Ok (st', ups) ->
  text_content st' = text_content st ++ text_of parts
  /\ pm_data (prefixMap st') = (pm_data (prefixMap st) ++ data_of parts)%list
  /\ snapshot st' = (snapshot st ++ annotations_of parts)%list
  /\ List.length ups = List.length parts.
Proof.
  intros Hrun.
  destruct (pcr_run_channels _ _ _ _ _ _ Hrun) as (T & D & A).
  pose proof (pcr_run_updates _ _ _ _ _ _ Hrun) as L.
  auto.
Qed.

Lemma pcr_run_accumulates_witness :
  text_content (fst ex_annotated_run) = "abcdef"
  /\ pm_data (prefixMap (fst ex_annotated_run)) = [JNum 1; JNum 2]
  /\ snapshot (fst ex_annotated_run) = [JStr "A"; JStr "B"]
  /\ List.length (snd ex_annotated_run) = 6.
Proof.
  exact (pcr_run_accumulates ex_generateId 0 ex_annotated_pass pcr_init
                             (fst ex_annotated_run) (snd ex_annotated_run)
                             eq_refl).
Defined.

Lemma pcr_step_stamps (generateId : nat -> string) (createdAt : Z)
      (st : pcr_state) (part : StreamPart) (st' : pcr_state)
      (merged : list Message) (dt : list json) (a : list json) :
  pcr_step generateId createdAt st part = Ok (st', (merged, dt)) ->
  message_annotations st' = Some a -> a <> [] ->
  (forall key m, pm_get (prefixMap st') key = Some m -> m_annotations m = Some a)
  /\ Forall (fun m => m_annotations m = Some a) merged.
Proof.
  destruct part as [ty v]. destruct st as [[t f tc d] ma n].
  destruct t as [mt|]; destruct f as [mf|]; destruct tc as [mtc|];
  unfold pcr_step, assign_ref;
  cbn [type value prefixMap message_annotations ids_drawn].
  all: destruct (String.eqb ty "text");
    destruct (String.eqb ty "function_call");
    destruct (String.eqb ty "tool_calls");
    destruct (String.eqb ty "data");
    destruct (String.eqb ty "message_annotations");
    simpl; pcr_crush; intros H; injection H as <- <- _; cbn;
    intros Ha Hne; try discriminate Ha; injection Ha as <-; try congruence;
    (split;
     [ intros [] m' Hm; cbn in Hm; try discriminate Hm;
       injection Hm as <-; reflexivity
     | repeat constructor ]).
Qed.

Lemma pcr_run_last_step (generateId : nat -> string) (createdAt : Z)
      (parts : list StreamPart) :
  forall st st' ups,
    parts <> [] ->
    pcr_run generateId createdAt st parts = Ok (st', ups) ->
    exists st0 part u, pcr_step generateId createdAt st0 part = Ok (st', u).
Proof.
  induction parts as [|part rest IH]; intros st st' ups Hne Hrun; [contradiction|].
  destruct (pcr_run_cons_inv _ _ _ _ _ _ _ Hrun) as (st1 & u & us & Hs & Hr & ->).
  destruct rest as [|p2 rest'].
  - cbn in Hr. injection Hr as <- _. exists st, part, u. exact Hs.
  - apply (IH st1 st' us); [discriminate | exact Hr].
Qed.

(** X6.  once the annotation channel is non-empty, every accumulator
    present at the end of a pass, and so every message of the result,
    carries exactly the whole channel: the elements of all
    message_annotations parts in stream order. *)
Theorem pcr_run_stamps_annotations (generateId : nat -> string) (createdAt : Z)
        (parts : list StreamPart) (st' : pcr_state) (ups : list Update) :
  pcr_run generateId createdAt pcr_init parts = Ok (st', ups) ->
  annotations_of parts <> [] ->
  Forall (fun m => m_annotations m = Some (annotations_of parts))
         (fst (pcr_result st')).
Proof.
  intros Hrun Hne.
  destruct (pcr_run_channels _ _ _ _ _ _ Hrun) as (_ & _ & Hsnap).
  cbn in Hsnap.
  assert (Hparts : parts <> []) by (intros ->; apply Hne; reflexivity).
  destruct (pcr_run_last_step _ _ _ _ _ _ Hparts Hrun)
    as (st0 & part & [merged dt] & Hstep).
  assert (Hma : message_annotations st' = Some (annotations_of parts)).
  { unfold snapshot in Hsnap. destruct (message_annotations st') as [a|].
    - now rewrite Hsnap.
    - exfalso. apply Hne. now rewrite <- Hsnap. }
  destruct (pcr_step_stamps _ _ _ _ _ _ _ _ Hstep Hma Hne) as [Hall _].
  unfold pcr_result. cbn [fst filter_Boolean flat_map].
  destruct (pm_text (prefixMap st')) as [m1|] eqn:E1;
    destruct (pm_function_call (prefixMap st')) as [m2|] eqn:E2;
    destruct (pm_tool_calls (prefixMap st')) as [m3|] eqn:E3;
    cbn; repeat constructor;
    first [ apply (Hall KText); exact E1
          | apply (Hall KFunctionCall); exact E2
          | apply (Hall KToolCalls); exact E3 ].
Qed.

Lemma pcr_run_stamps_annotations_witness :
  Forall (fun m => m_annotations m = Some [JStr "A"; JStr "B"])
         (fst (pcr_result (fst ex_annotated_run))).
Proof.
  apply (pcr_run_stamps_annotations ex_generateId 0 ex_annotated_pass
                                    (fst ex_annotated_run) (snd ex_annotated_run)
                                    eq_refl).
  discriminate.
Defined.

(** ** Decode failures *)


Lemma rds_steps_stopped (isAborted : nat -> bool) (reads : list (option string))
      (st : rds_state) :
  status st <> Reading -> fold_left (rds_step isAborted) reads st = st.
Proof.
  intros Hst. induction reads as [|r reads IH]; [reflexivity|].
  cbn [fold_left]. unfold rds_step at 2.
  destruct (status st) eqn:E; try contradiction; exact IH.
Qed.





(** ** [callCompletionApi], multiplexed branch *)

Lemma complex_loop_text (p : StreamPart) (parts : list StreamPart) (s : string)
      (r : string) (calls : list string) (datas : list json) :
  type p = "text" -> value p = JStr s ->
  complex_loop (p :: parts) r calls datas
  = complex_loop parts (r ++ s) (calls ++ [(r ++ s)%string])%list datas.
Proof. intros Ht Hv. cbn [complex_loop]. now rewrite Ht, Hv. Qed.

Lemma complex_loop_other (p : StreamPart) (parts : list StreamPart)
      (r : string) (calls : list string) (datas : list json) :
  is_text_part p = false ->
  complex_loop (p :: parts) r calls datas
  = complex_loop parts r calls
      (datas ++ (if String.eqb (type p) "data" then [value p] else []))%list.
Proof.
  unfold is_text_part. intros H. cbn [complex_loop].
  destruct (String.eqb_spec (type p) "text") as [Ht|Ht].
  - rewrite Ht. cbn [String.eqb Ascii.eqb Bool.eqb]. cbn [andb] in H.
    destruct (value p); try discriminate H; now rewrite List.app_nil_r.
  - destruct (String.eqb (type p) "data"); [reflexivity|].
    now rewrite List.app_nil_r.
Qed.

Lemma part_text_value_text (p : StreamPart) (s : string) :
  type p = "text" -> value p = JStr s ->
  part_text_value p = s /\ is_text_part p = true
  /\ String.eqb (type p) "data" = false.
Proof.
  intros Ht Hv. unfold part_text_value, is_text_part. rewrite Ht, Hv. auto.
Qed.

Lemma part_text_value_other (p : StreamPart) :
  is_text_part p = false -> part_text_value p = "".
Proof.
  unfold part_text_value, is_text_part.
  destruct (String.eqb (type p) "text"); [|reflexivity].
  destruct (value p); try reflexivity. discriminate.
Qed.

Lemma is_text_part_cases (p : StreamPart) :
  (exists s, type p = "text" /\ value p = JStr s) \/ is_text_part p = false.
Proof.
  unfold is_text_part.
  destruct (String.eqb_spec (type p) "text") as [Ht|Ht]; [|now right].
  destruct (value p); cbn; eauto.
Qed.

Lemma text_of_no_text (parts : list StreamPart) :
  count_text parts = 0 -> text_of parts = "".
Proof.
  unfold count_text, text_of. induction parts as [|q l IH]; [reflexivity|].
  cbn [filter map]. rewrite concat_cons.
  destruct (is_text_part q) eqn:E; [discriminate|].
  intros H. now rewrite (part_text_value_other q E), IH.
Qed.

Lemma complex_loop_spec (parts : list StreamPart) :
  forall r calls datas,
  exists extra,
    complex_loop parts r calls datas
    = (r ++ text_of parts, (calls ++ extra)%list, (datas ++ data_values parts)%list)
    /\ List.length extra = count_text parts
    /\ (extra <> [] -> last extra "" = r ++ text_of parts).
Proof.
  induction parts as [|p parts IH]; intros r calls datas.
  - exists []. cbn. rewrite append_nil_r, !List.app_nil_r.
    repeat split. congruence.
  - destruct (is_text_part_cases p) as [(s & Ht & Hv)|Hn].
    + destruct (part_text_value_text p s Ht Hv) as (Hpv & Hit & Hnd).
      rewrite (complex_loop_text p parts s r calls datas Ht Hv).
      destruct (IH (r ++ s) (calls ++ [(r ++ s)%string])%list datas)
        as (extra & E & L & La).
      exists ((r ++ s)%string :: extra). rewrite E.
      unfold text_of, data_values, count_text in *.
      cbn [map filter]. rewrite concat_cons, Hpv, Hit, Hnd.
      rewrite <- List.app_assoc, append_assoc. cbn [List.app List.length].
      repeat split; [now rewrite L|].
      intros _. destruct extra as [|x extra].
      * cbn [last]. cbn [List.length] in L. symmetry in L.
        pose proof (text_of_no_text parts L) as Hz. unfold text_of in Hz.
        now rewrite Hz, append_nil_r.
      * change (last ((r ++ s)%string :: x :: extra) "") with (last (x :: extra) "").
        rewrite La by discriminate. now rewrite append_assoc.
    + rewrite (complex_loop_other p parts r calls datas Hn).
      destruct (IH r calls
                   (datas ++ (if String.eqb (type p) "data"
                              then [value p] else []))%list)
        as (extra & E & L & La).
      exists extra. rewrite E.
      unfold text_of, data_values, count_text in *.
      cbn [map filter]. rewrite concat_cons, (part_text_value_other p Hn), Hn.
      cbn [String.append].
      repeat split; try assumption.
      f_equal. rewrite <- List.app_assoc.
      now destruct (String.eqb (type p) "data").
Qed.

(** X8.  in multiplexed mode [callCompletionApi] returns [undefined] and
    never calls [onFinish]; it calls [setCompletion] once per text part,
    last with the concatenation of all text values, and passes the payload
    of every data part to [onData], in order. *)
Theorem complex_mode_completion
        (prompt text : string) (body : list string) (parts : list StreamPart)
        (abortController : nat -> bool) (onFinish onData : bool) :
  decode_parts (String.concat "" body) = Ok parts ->
  exists calls,
    callCompletionApi prompt
      {| res_ok := true; res_text := text; res_body := Some body;
         res_complex_header := Some "true" |}
      (Some abortController) onFinish onData
    = Ok {| returned := None;
            setCompletion_calls := calls;
            onFinish_calls := [];
            onData_calls := if onData then data_values parts else [] |}
    /\ List.length calls = count_text parts
    /\ (calls <> [] -> last calls "" = text_of parts).
Proof.
  intros Hd. unfold callCompletionApi.
  cbn [res_ok res_body res_complex_header negb String.eqb Ascii.eqb Bool.eqb
       is_some].
  change (fun _ : nat => false) with never_aborted.
  rewrite (readDataStream_decodes_lines body parts Hd).
  destruct (complex_loop_spec parts "" [] []) as (extra & E & L & La).
  rewrite E. cbn [List.app String.append]. exists extra. auto.
Qed.

Lemma complex_mode_completion_witness :
  exists calls,
    callCompletionApi "p"
      {| res_ok := true; res_text := "";
         res_body := Some [dq "0:'Hi'" ++ String NEWLINE (dq "2:[1]");
                           String NEWLINE (dq "0:' there'" ++ String NEWLINE "")];
         res_complex_header := Some "true" |}
      (Some never_aborted) true true
    = Ok {| returned := None;
            setCompletion_calls := calls;
            onFinish_calls := [];
            onData_calls := [JArr [JNum 1]] |}
    /\ List.length calls = 2
    /\ (calls <> [] -> last calls "" = "Hi there").
Proof.
  exact (complex_mode_completion "p" ""
           [dq "0:'Hi'" ++ String NEWLINE (dq "2:[1]");
            String NEWLINE (dq "0:' there'" ++ String NEWLINE "")]
           [ {| type := "text"; value := JStr "Hi" |};
             {| type := "data"; value := JArr [JNum 1] |};
             {| type := "text"; value := JStr " there" |} ]
           never_aborted true true eq_refl).
Defined.

(** ** A server session, end to end *)

Lemma pending_parts_items (self : StreamData) :
  pending_parts self
  = map item_line (pending_items (data self) (messageAnnotations self)).
Proof.
  unfold pending_parts, pending_items, item_line.
  destruct (data self), (messageAnnotations self); reflexivity.
Qed.

Lemma StreamData_flush_eq (self : StreamData) :
  isClosedPromise self = true ->
  StreamData_flush self = Some (Ok (pending_parts self)).
Proof.
  intros H. unfold StreamData_flush, pending_parts. rewrite H.
  destruct (data self), (messageAnnotations self); reflexivity.
Qed.

Lemma server_run_spec (ops : list server_op) :
  forall self, isClosed self = false ->
  exists q self',
    server_run ops self = (Ok q, self')
    /\ (q ++ pending_parts self')%list
       = map item_line (session_items ops (data self) (messageAnnotations self))
    /\ isClosed self' = false
    /\ controller self' = controller self
    /\ isClosedPromise self' = isClosedPromise self.
Proof.
  induction ops as [|op ops IH]; intros self Hc.
  - exists [], self. cbn [server_run session_items List.app].
    now rewrite pending_parts_items.
  - destruct op as [v|v|t]; cbn [server_run session_items].
    + unfold append. rewrite Hc.
      match goal with |- context [server_run ops ?s] =>
        destruct (IH s eq_refl) as (q & self' & E & Hq & H1 & H2 & H3) end.
      cbn [controller isClosedPromise data messageAnnotations] in *.
      exists q, self'. rewrite E. auto.
    + unfold appendMessageAnnotation. rewrite Hc.
      match goal with |- context [server_run ops ?s] =>
        destruct (IH s eq_refl) as (q & self' & E & Hq & H1 & H2 & H3) end.
      cbn [controller isClosedPromise data messageAnnotations] in *.
      exists q, self'. rewrite E. auto.
    + unfold createStreamDataTransformer. cbn [negb].
      change (formatStreamPart "text" (JStr t))
        with (formatStreamPart (name textStreamPart) (JStr t)).
      rewrite (formatStreamPart_table textStreamPart (JStr t)) by (cbn; auto).
      cbn [bind StreamData_transform_all]. rewrite StreamData_transform_eq.
      destruct (IH (queues_cleared self) Hc) as (q & self' & E & Hq & H1 & H2 & H3).
      rewrite E.
      exists (((pending_parts self
                  ++ [(code textStreamPart ++ ":" ++ JSON_stringify (JStr t)
                       ++ String NEWLINE "")%string]) ++ []) ++ q)%list, self'.
      split; [reflexivity|]. split; [|auto].
      rewrite List.app_nil_r, <- !List.app_assoc, Hq, map_app, pending_parts_items.
      reflexivity.
Qed.

Lemma server_session_lines (ops : list server_op) :
  server_session ops = Some (Ok (map item_line (session_items ops [] []))).
Proof.
  unfold server_session.
  destruct (server_run_spec ops (StreamData_start new_StreamData) eq_refl)
    as (q & self' & E & Hq & H1 & H2 & H3).
  rewrite E. unfold close. rewrite H1, H2. cbn [controller StreamData_start negb].
  rewrite StreamData_flush_eq by reflexivity.
  cbn [bind]. f_equal. f_equal.
  cbn [data messageAnnotations StreamData_start new_StreamData] in Hq.
  rewrite <- Hq. unfold pending_parts. reflexivity.
Qed.

(** X9.  a session that ends with [close] never fails, and puts on the
    wire, one line each and in this order: a [data] part and a
    [message_annotations] part with what is pending in front of every text
    unit, each unit as a [text] part, and what is still pending when the
    stream ends.  No line is empty and each ends with the newline byte. *)
Theorem server_session_wire (ops : list server_op) :
  server_session ops = Some (Ok (map item_line (session_items ops [] [])))
  /\ Forall (fun line => ends_with_newline line = true)
            (map item_line (session_items ops [] [])).
Proof.
  split; [apply server_session_lines|].
  apply Forall_forall. intros line Hin. apply in_map_iff in Hin.
  destruct Hin as (it & <- & _). apply ends_with_newline_part_line.
Qed.

(** X10.  without [close] the stream of a session never ends: [flush] waits
    for [isClosedPromise], which only [close] resolves. *)
Theorem unclosed_session_hangs (ops : list server_op) :
  server_session_unclosed ops = None.
Proof.
  unfold server_session_unclosed.
  destruct (server_run_spec ops (StreamData_start new_StreamData) eq_refl)
    as (q & self' & E & Hq & H1 & H2 & H3).
  rewrite E. unfold StreamData_flush. now rewrite H3.
Qed.

Lemma forallb_snoc {A} (f : A -> bool) (l : list A) (x : A) :
  forallb f l = true -> f x = true -> forallb f (l ++ [x])%list = true.
Proof. intros Hl Hx. rewrite forallb_app, Hl. cbn. now rewrite Hx. Qed.

Lemma pending_items_ok (d a : list json) :
  forallb json_wf d = true -> forallb json_wf a = true ->
  Forall item_ok (pending_items d a).
Proof.
  intros Hd Ha. unfold pending_items.
  apply Forall_app. split.
  - destruct d; cbn [nonempty]; constructor; [|constructor].
    unfold item_ok. cbn [fst snd]. repeat split; [cbn; auto 10|exact Hd].
  - destruct a; cbn [nonempty]; constructor; [|constructor].
    unfold item_ok. cbn [fst snd]. repeat split; [cbn; auto 10|exact Ha].
Qed.

Lemma session_items_ok (ops : list server_op) :
  forallb op_wf ops = true ->
  forall d a, forallb json_wf d = true -> forallb json_wf a = true ->
  Forall item_ok (session_items ops d a).
Proof.
  induction ops as [|op ops IH]; intros Hw d a Hd Ha.
  - now apply pending_items_ok.
  - cbn [forallb] in Hw. apply andb_prop in Hw. destruct Hw as [Hop Hw].
    destruct op as [v|v|t]; cbn [session_items op_wf] in *.
    + apply IH; auto using forallb_snoc.
    + apply IH; auto using forallb_snoc.
    + apply Forall_app. split; [now apply pending_items_ok|].
      constructor; [|now apply IH].
      unfold item_ok. cbn [fst snd]. repeat split. cbn; auto.
Qed.

Lemma decode_session_items (items : list (StreamPartType * json)) :
  Forall item_ok items ->
  decode_parts (String.concat "" (map item_line items)) = Ok (map item_part items).
Proof.
  intros H. unfold item_line. rewrite decode_parts_lines.
  - induction H as [|it items (_ & _ & Hp) _ IH]; [reflexivity|].
    cbn [mapM map]. now rewrite Hp, IH.
  - eapply Forall_impl; [|exact H]. intros it (H1 & H2 & _). now split.
Qed.

Lemma array_elements_app (xs ys : list json) :
  array_elements (xs ++ ys)%list = (array_elements xs ++ array_elements ys)%list.
Proof. unfold array_elements. apply flat_map_app. Qed.

Lemma data_values_app (xs ys : list StreamPart) :
  data_values (xs ++ ys)%list = (data_values xs ++ data_values ys)%list.
Proof. unfold data_values. now rewrite filter_app, map_app. Qed.

Lemma text_of_app (xs ys : list StreamPart) :
  text_of (xs ++ ys)%list = text_of xs ++ text_of ys.
Proof. unfold text_of. now rewrite map_app, concat_app. Qed.

Lemma count_text_app (xs ys : list StreamPart) :
  count_text (xs ++ ys)%list = count_text xs + count_text ys.
Proof. unfold count_text. now rewrite filter_app, List.length_app. Qed.

Lemma pending_items_facts (d a : list json) :
  array_elements (data_values (map item_part (pending_items d a))) = d
  /\ text_of (map item_part (pending_items d a)) = ""
  /\ count_text (map item_part (pending_items d a)) = 0.
Proof.
  unfold pending_items.
  destruct d, a; cbn; rewrite ?List.app_nil_r; auto.
Qed.

Lemma session_items_facts (ops : list server_op) :
  forall d a,
    array_elements (data_values (map item_part (session_items ops d a)))
    = (d ++ appended_values ops)%list
    /\ text_of (map item_part (session_items ops d a))
       = String.concat "" (unit_texts ops)
    /\ count_text (map item_part (session_items ops d a))
       = List.length (unit_texts ops).
Proof.
  induction ops as [|op ops IH]; intros d a.
  - cbn [session_items appended_values unit_texts flat_map].
    rewrite List.app_nil_r. apply pending_items_facts.
  - destruct op as [v|v|t]; cbn [session_items].
    + destruct (IH (d ++ [v])%list a) as (H1 & H2 & H3).
      rewrite H1, H2, H3, <- List.app_assoc. auto.
    + destruct (IH d (a ++ [v])%list) as (H1 & H2 & H3).
      rewrite H1, H2, H3. auto.
    + destruct (IH [] []) as (H1 & H2 & H3).
      destruct (pending_items_facts d a) as (P1 & P2 & P3).
      change ((textStreamPart, JStr t) :: session_items ops [] [])
        with ([(textStreamPart, JStr t)] ++ session_items ops [] [])%list.
      rewrite !map_app, !data_values_app, !array_elements_app,
              !text_of_app, !count_text_app, H1, H2, H3, P1, P2, P3.
      cbn [unit_texts appended_values flat_map List.app List.length].
      rewrite concat_cons.
      repeat split.
Qed.

(** X11.  a closed session reaches [callCompletionApi] whole, however the
    transport cuts its bytes into chunks: the arrays passed to [onData]
    hold the appended values, each once and in append order, one
    [setCompletion] call is made per text unit, and the last one carries
    the concatenation of the units.  Annotations are not passed on. *)
Theorem session_reaches_completion
        (ops : list server_op) (body wire : list string) (prompt : string)
        (abortController : nat -> bool) (onFinish : bool) :
  forallb op_wf ops = true ->
  server_session ops = Some (Ok body) ->
  String.concat "" wire = String.concat "" body ->
  exists calls datas,
    callCompletionApi prompt (StreamingTextResponse wire true)
                      (Some abortController) onFinish true
    = Ok {| returned := None; setCompletion_calls := calls;
            onFinish_calls := []; onData_calls := datas |}
    /\ array_elements datas = appended_values ops
    /\ List.length calls = List.length (unit_texts ops)
    /\ (calls <> [] -> last calls "" = String.concat "" (unit_texts ops)).
Proof.
  intros Hw Hs Hwire.
  rewrite server_session_lines in Hs. injection Hs as <-.
  pose proof (session_items_ok ops Hw [] [] eq_refl eq_refl) as Hok.
  pose proof (decode_session_items _ Hok) as Hd. rewrite <- Hwire in Hd.
  destruct (session_items_facts ops [] []) as (F1 & F2 & F3).
  unfold callCompletionApi, StreamingTextResponse, StreamingTextResponse_header.
  cbn [res_ok res_body res_complex_header negb String.eqb Ascii.eqb Bool.eqb
       is_some].
  change (fun _ : nat => false) with never_aborted.
  rewrite (readDataStream_decodes_lines wire _ Hd).
  destruct (complex_loop_spec (map item_part (session_items ops [] [])) "" [] [])
    as (extra & E & L & La).
  rewrite E. cbn [List.app String.append].
  exists extra, (data_values (map item_part (session_items ops [] []))).
  repeat split; [exact F1|now rewrite L|].
  intros Hne. now rewrite (La Hne), F2.
Qed.

Lemma session_reaches_completion_witness :
  exists calls datas,
    callCompletionApi "p"
      (StreamingTextResponse
         [dq "2:[1]" ++ String NEWLINE (dq "0:'H");
          dq "i'" ++ String NEWLINE (dq "2:[2,3]" ++ String NEWLINE "");
          dq "8:['A']" ++ String NEWLINE (dq "0:' there'" ++ String NEWLINE "");
          dq "2:[4]" ++ String NEWLINE ""] true)
      (Some never_aborted) false true
    = Ok {| returned := None; setCompletion_calls := calls;
            onFinish_calls := []; onData_calls := datas |}
    /\ array_elements datas = [JNum 1; JNum 2; JNum 3; JNum 4]
    /\ List.length calls = 2
    /\ (calls <> [] -> last calls "" = "Hi there").
Proof.
  exact (session_reaches_completion ex_session
           [dq "2:[1]" ++ String NEWLINE "";
            dq "0:'Hi'" ++ String NEWLINE "";
            dq "2:[2,3]" ++ String NEWLINE "";
            dq "8:['A']" ++ String NEWLINE "";
            dq "0:' there'" ++ String NEWLINE "";
            dq "2:[4]" ++ String NEWLINE ""]
           [dq "2:[1]" ++ String NEWLINE (dq "0:'H");
            dq "i'" ++ String NEWLINE (dq "2:[2,3]" ++ String NEWLINE "");
            dq "8:['A']" ++ String NEWLINE (dq "0:' there'" ++ String NEWLINE "");
            dq "2:[4]" ++ String NEWLINE ""]
           "p" never_aborted false eq_refl eq_refl eq_refl).
Defined.

(** ** Cancellation in the multiplexed branch *)

Lemma rds_buffering (isAborted : nat -> bool) (pre : list string) :
  forall st, status st = Reading ->
  Forall (fun x => ends_with_newline x = false) pre ->
  exists n,
    fold_left (rds_step isAborted) (map Some pre) st
    = {| chunks := (chunks st ++ pre)%list; totalLength := n;
         yielded := yielded st; abort_checks := abort_checks st;
         status := Reading |}.
Proof.
  induction pre as [|x pre IH]; intros st Hst Hpre.
  - exists (totalLength st). cbn [map fold_left]. rewrite List.app_nil_r.
    destruct st; cbn in *. now subst.
  - inversion Hpre as [|? ? Hx Hrest]; subst.
    cbn [map fold_left]. unfold rds_step at 2. rewrite Hst, Hx. cbn [negb].
    match goal with |- context [fold_left _ _ ?s] =>
      destruct (IH s eq_refl Hrest) as (n & E) end.
    exists n. rewrite E. cbn [chunks yielded abort_checks].
    now rewrite <- List.app_assoc.
Qed.

Lemma readDataStream_first_flush (isAborted : nat -> bool)
      (pre : list string) (c : string) (post : list string) :
  Forall (fun x => ends_with_newline x = false) pre ->
  ends_with_newline c = true ->
  readDataStream isAborted (pre ++ c :: post)
  = match decode_parts (String.concat "" (pre ++ [c])) with
    | Err e => ([], Failed e)
    | Ok parts =>
        if isAborted 0 then (parts, Cancelled)
        else
          let st := readDataStream_from isAborted
                      {| chunks := []; totalLength := 0; yielded := parts;
                         abort_checks := 1; status := Reading |} post in
          (yielded st, status st)
    end.
Proof.
  intros Hpre Hc. unfold readDataStream.
  assert (E : readDataStream_from isAborted rds_init (pre ++ c :: post)
              = match decode_parts (String.concat "" (pre ++ [c])) with
                | Err e =>
                    {| chunks := []; totalLength := 0; yielded := [];
                       abort_checks := 0; status := Failed e |}
                | Ok parts =>
                    if isAborted 0
                    then {| chunks := []; totalLength := 0; yielded := parts;
                            abort_checks := 1; status := Cancelled |}
                    else readDataStream_from isAborted
                           {| chunks := []; totalLength := 0; yielded := parts;
                              abort_checks := 1; status := Reading |} post
                end).
  { unfold readDataStream_from.
    rewrite map_app, <- List.app_assoc, fold_left_app.
    destruct (rds_buffering isAborted pre rds_init eq_refl Hpre) as (n & ->).
    cbn [map List.app fold_left chunks rds_init yielded abort_checks].
    unfold rds_step at 2. cbn [status]. rewrite Hc. cbn [negb].
    unfold rds_flush at 1. cbn [chunks totalLength yielded abort_checks].
    assert (Hne : nonempty (pre ++ [c])%list = true) by (destruct pre; reflexivity).
    rewrite Hne. cbn [negb]. unfold concatChunks.
    destruct (decode_parts (String.concat "" (pre ++ [c]))) as [parts|e].
    - cbn [List.app]. destruct (isAborted 0).
      + now rewrite rds_steps_stopped by (cbn; discriminate).
      + reflexivity.
    - now rewrite rds_steps_stopped by (cbn; discriminate). }
  rewrite E.
  destruct (decode_parts (String.concat "" (pre ++ [c]))) as [parts|e];
    [destruct (isAborted 0)|]; reflexivity.
Qed.

(** X12.  the multiplexed branch asks [abortController === null] about the
    function it was given, not about what the function returns.  With a
    function, the stream is read to its end whatever the function returns;
    with [null], reading is cancelled after the first chunk that ends with
    a newline, and the call ends as if the body had ended there. *)
Theorem null_controller_stops_after_first_flush
        (prompt : string) (pre : list string) (c : string) (post : list string)
        (abortController : nat -> bool) (onFinish onData : bool) :
  Forall (fun x => ends_with_newline x = false) pre ->
  ends_with_newline c = true ->
  callCompletionApi prompt (StreamingTextResponse (pre ++ c :: post) true)
                    None onFinish onData
  = callCompletionApi prompt (StreamingTextResponse (pre ++ [c]) true)
                      (Some abortController) onFinish onData.
Proof.
  intros Hpre Hc. unfold callCompletionApi, StreamingTextResponse,
    StreamingTextResponse_header.
  cbn [res_ok res_body res_complex_header negb String.eqb Ascii.eqb Bool.eqb
       is_some].
  rewrite !(readDataStream_first_flush _ pre c _ Hpre Hc).
  destruct (decode_parts (String.concat "" (pre ++ [c]))) as [parts|e].
  - cbn [readDataStream_from map List.app fold_left]. unfold rds_step.
    cbn [status rds_flush chunks nonempty negb yielded].
    destruct (complex_loop parts "" [] []) as [[r calls] datas]. reflexivity.
  - destruct (complex_loop [] "" [] []) as [[r calls] datas]. reflexivity.
Qed.

Lemma null_controller_stops_after_first_flush_witness :
  callCompletionApi "p"
    (StreamingTextResponse
       [dq "0:'H"; dq "i'" ++ String NEWLINE ""; dq "0:' there'" ++ String NEWLINE ""]
       true)
    None true true
  = callCompletionApi "p"
      (StreamingTextResponse [dq "0:'H"; dq "i'" ++ String NEWLINE ""] true)
      (Some never_aborted) true true.
Proof.
  exact (null_controller_stops_after_first_flush "p" [dq "0:'H"]
           (dq "i'" ++ String NEWLINE "") [dq "0:' there'" ++ String NEWLINE ""]
           never_aborted true true
           (Forall_cons (dq "0:'H")
              (eq_refl : ends_with_newline (dq "0:'H") = false) (Forall_nil _))
           eq_refl).
Defined.

(** ** The interceptor on text *)

Lemma fct_transform_all_forwarding (b : bool) (pre : list string) :
  Forall (fun m => opens_call m = false) pre ->
  forall aggFinal,
    fct_transform_all b
      {| isFirstChunk := true; aggregatedResponse := "";
         aggregatedFinalCompletionResponse := aggFinal;
         isFunctionStreamingIn := false |} pre
    = Ok ({| isFirstChunk := true; aggregatedResponse := "";
             aggregatedFinalCompletionResponse := aggFinal ++ String.concat "" pre;
             isFunctionStreamingIn := false |},
          map (forwarded_unit b) pre).
Proof.
  induction 1 as [|m pre Hm _ IH]; intros aggFinal.
  - cbn. now rewrite append_nil_r.
  - cbn [fct_transform_all]. unfold fct_transform at 1. unfold opens_call in Hm.
    cbn [isFirstChunk isFunctionStreamingIn andb negb aggregatedResponse
         aggregatedFinalCompletionResponse].
    rewrite Hm.
    change (formatStreamPart "text" (JStr m))
      with (formatStreamPart (name textStreamPart) (JStr m)).
    rewrite (formatStreamPart_table textStreamPart (JStr m)) by (cbn; auto).
    assert (E : (if b then Ok (code textStreamPart ++ ":" ++ JSON_stringify (JStr m)
                               ++ String NEWLINE "")
                 else Ok m) = Ok (forwarded_unit b m)) by (destruct b; reflexivity).
    rewrite E. cbn [bind]. rewrite IH. cbn [bind map List.app].
    now rewrite concat_cons, append_assoc.
Qed.

Lemma fct_transform_all_app (b : bool) (xs ys : list string) :
  forall st st1 q1,
    fct_transform_all b st xs = Ok (st1, q1) ->
    fct_transform_all b st (xs ++ ys)
    = (r <- fct_transform_all b st1 ys ;;
       Ok (fst r, (q1 ++ snd r)%list)).
Proof.
  induction xs as [|x xs IH]; intros st st1 q1 E.
  - cbn in E. injection E as <- <-. cbn [List.app].
    destruct (fct_transform_all b st ys) as [[st2 q2]|e]; reflexivity.
  - cbn [List.app fct_transform_all] in *.
    destruct (fct_transform b st x) as [[sa qa]|e]; cbn [bind] in *;
      [|discriminate].
    destruct (fct_transform_all b sa xs) as [[sb qb]|e] eqn:Exs; cbn [bind] in *;
      [|discriminate].
    injection E as <- <-.
    rewrite (IH sa sb qb Exs).
    destruct (fct_transform_all b sb ys) as [[sc qc]|e]; cbn [bind fst snd];
      [|reflexivity].
    now rewrite List.app_assoc.
Qed.

(** X13.  with no unit that opens a call, the interceptor forwards every
    unit, each on its own (as a [text] part under multiplexing), calls no
    function or tool callback, and closes; the final hook fires with the
    whole text unless that text is empty. *)
Theorem interceptor_passes_plain_text
        (OpenAIStream_rec : list string -> OpenAICallbacks -> StreamRun)
        (cb : OpenAICallbacks) (res : list string) :
  Forall (fun m => opens_call m = false) res ->
  createFunctionCallTransformer OpenAIStream_rec cb res
  = {| out := map (forwarded_unit (experimental_streamData cb)) res;
       hooks := finally_hook cb (String.concat "" res);
       outcome := Closed |}.
Proof.
  intros H. unfold createFunctionCallTransformer, fct_init.
  rewrite (fct_transform_all_forwarding _ res H "").
  unfold fct_flush, flush_decision.
  cbn [isFirstChunk isFunctionStreamingIn negb andb out hooks outcome
       aggregatedFinalCompletionResponse String.append].
  now rewrite List.app_nil_r.
Qed.

Lemma interceptor_passes_plain_text_witness :
  createFunctionCallTransformer (OpenAIStream 0)
    (with_function_handler true throwing_function_handler) ["Hel"; "lo"]
  = {| out := [dq "0:'Hel'" ++ String NEWLINE ""; dq "0:'lo'" ++ String NEWLINE ""];
       hooks := [EvFinal "Hello"];
       outcome := Closed |}.
Proof.
  exact (interceptor_passes_plain_text (OpenAIStream 0)
           (with_function_handler true throwing_function_handler) ["Hel"; "lo"]
           (Forall_cons "Hel" (eq_refl : opens_call "Hel" = false)
              (Forall_cons "lo" (eq_refl : opens_call "lo" = false)
                 (Forall_nil _)))).
Defined.

(** X14.  a call need not open the stream.  The units before the first one
    that opens a call are forwarded; from that unit on everything is
    buffered, and the buffered text is handled as if the stream had begun
    with it: the same chunks follow and the stream ends the same way. *)
Theorem text_before_call_is_forwarded
        (OpenAIStream_rec : list string -> OpenAICallbacks -> StreamRun)
        (cb : OpenAICallbacks) (pre : list string) (c : string) (rest : list string) :
  Forall (fun m => opens_call m = false) pre ->
  opens_call c = true ->
  let alone := createFunctionCallTransformer OpenAIStream_rec cb (c :: rest) in
  let whole := createFunctionCallTransformer OpenAIStream_rec cb (pre ++ c :: rest) in
  out whole
  = (map (forwarded_unit (experimental_streamData cb)) pre ++ out alone)%list
  /\ outcome whole = outcome alone.
Proof.
  intros Hpre Hc alone whole. subst alone whole.
  unfold createFunctionCallTransformer, fct_init.
  rewrite (fct_transform_all_app _ pre (c :: rest) _ _ _
             (fct_transform_all_forwarding _ pre Hpre "")).
  cbn [String.append].
  assert (E : forall aggFinal,
             fct_transform_all (experimental_streamData cb)
               {| isFirstChunk := true; aggregatedResponse := "";
                  aggregatedFinalCompletionResponse := aggFinal;
                  isFunctionStreamingIn := false |} (c :: rest)
             = Ok ({| isFirstChunk := false;
                      aggregatedResponse := String.concat "" (c :: rest);
                      aggregatedFinalCompletionResponse :=
                        aggFinal ++ String.concat "" (c :: rest);
                      isFunctionStreamingIn := true |}, [])).
  { intros aggFinal. unfold opens_call in Hc.
    cbn [fct_transform_all]. unfold fct_transform at 1.
    cbn [isFirstChunk andb]. rewrite Hc.
    cbn [bind aggregatedResponse aggregatedFinalCompletionResponse String.append].
    rewrite fct_transform_all_capturing. cbn [bind List.app].
    now rewrite concat_cons, append_assoc. }
  rewrite !E. cbn [bind fst snd String.append]. rewrite List.app_nil_r.
  unfold fct_flush, flush_decision.
  cbn [isFirstChunk isFunctionStreamingIn aggregatedResponse
       aggregatedFinalCompletionResponse negb andb].
  destruct (intercepts cb); cbn [negb].
  2:{ cbn [out outcome]. now split. }
  match goal with
  | |- context [match ?d with NotCapturing => _ | _ => _ end] => destruct d
  end; cbn [out outcome]; now split.
Qed.

Lemma text_before_call_is_forwarded_witness :
  out (createFunctionCallTransformer (OpenAIStream 0)
         (with_function_handler true silent_function_handler)
         (["Hi"] ++ ex_call_chunks))
  = [dq "0:'Hi'" ++ String NEWLINE "";
     dq "1:{'function_call':{'name':'f','arguments':'{}'}}" ++ String NEWLINE ""].
Proof.
  exact (proj1 (text_before_call_is_forwarded (OpenAIStream 0)
                  (with_function_handler true silent_function_handler)
                  ["Hi"] (dq "{'function_call':")
                  [dq "{'name':'f','arguments':'{}'}}"]
                  (Forall_cons "Hi" (eq_refl : opens_call "Hi" = false)
                     (Forall_nil _))
                  eq_refl)).
Defined.



(** ** The OpenAI text extractor *)

Lemma replace_all_app (c : ascii) (by_ x y : string) :
  replace_all c by_ (x ++ y) = replace_all c by_ x ++ replace_all c by_ y.
Proof.
  induction x as [|a x IH]; [reflexivity|].
  cbn [String.append replace_all]. now rewrite IH, append_assoc.
Qed.

Lemma cleanupArguments_app (x y : string) :
  cleanupArguments (x ++ y) = cleanupArguments x ++ cleanupArguments y.
Proof. unfold cleanupArguments. now rewrite !replace_all_app. Qed.

Lemma cleanupArguments_concat (fragments : list string) :
  String.concat "" (map cleanupArguments fragments)
  = cleanupArguments (String.concat "" fragments).
Proof.
  induction fragments as [|f l IH]; [reflexivity|].
  cbn [map]. now rewrite !concat_cons, cleanupArguments_app, IH.
Qed.

Lemma parse_cleanup_char (c : ascii) (tail : string) :
  argument_char c = true ->
  parse_string_body (cleanupArguments (String c "") ++ tail)
  = cons_char c (parse_string_body tail).
Proof.
  destruct c as [[] [] [] [] [] [] [] []]; intros H;
    vm_compute in H; try discriminate H; reflexivity.
Qed.

Lemma parse_cleanupArguments (s rest : string) :
  argument_text s = true ->
  parse_string_body (cleanupArguments s ++ String dquote rest) = Some (s, rest).
Proof.
  induction s as [|c s IH]; intros H.
  - reflexivity.
  - cbn [argument_text] in H. apply andb_prop in H. destruct H as [Hc Hs].
    change (String c s) with (String c "" ++ s).
    rewrite cleanupArguments_app, append_assoc, parse_cleanup_char by exact Hc.
    now rewrite IH.
Qed.

Lemma argument_text_app (a b : string) :
  argument_text (a ++ b) = argument_text a && argument_text b.
Proof.
  induction a as [|c a IH]; [reflexivity|].
  cbn [String.append argument_text]. now rewrite IH, andb_assoc.
Qed.

Lemma argument_text_concat (fragments : list string) :
  forallb argument_text fragments = true ->
  argument_text (String.concat "" fragments) = true.
Proof.
  induction fragments as [|f l IH]; [reflexivity|].
  cbn [forallb]. intros H. apply andb_prop in H. destruct H as [Hf Hl].
  now rewrite concat_cons, argument_text_app, Hf, IH.
Qed.

(** X16.  [cleanupArguments] escapes fragment by fragment, and what it
    writes reads back: the escaped fragments of an argument text, put
    between quotes, are a JSON string whose value is the text itself --
    unless the text holds a control character other than TAB, LF, FF and
    CR, which are the only ones escaped. *)
Theorem cleanupArguments_reads_back (fragments : list string) :
  forallb argument_text fragments = true ->
  JSON_parse (String dquote (String.concat "" (map cleanupArguments fragments)
                             ++ String dquote ""))
  = Some (JStr (String.concat "" fragments)).
Proof.
  intros H. unfold JSON_parse. rewrite parse_value_str, cleanupArguments_concat.
  now rewrite parse_cleanupArguments by (now apply argument_text_concat).
Qed.

Lemma cleanupArguments_reads_back_witness :
  JSON_parse (String dquote
                (String.concat ""
                   (map cleanupArguments [dq "{'a/b':"; String NEWLINE (dq "'c\d'}")])
                 ++ String dquote ""))
  = Some (JStr (dq "{'a/b':" ++ String NEWLINE (dq "'c\d'}"))).
Proof.
  exact (cleanupArguments_reads_back
           [dq "{'a/b':"; String NEWLINE (dq "'c\d'}")] eq_refl).
Defined.









(** ** A server session and the reconstructor *)

Lemma pcr_step_session (generateId : nat -> string) (createdAt : Z)
      (st : pcr_state) (p : StreamPart) :
  session_part p ->
  pm_function_call (prefixMap st) = None ->
  pm_tool_calls (prefixMap st) = None ->
  exists st' u,
    pcr_step generateId createdAt st p = Ok (st', u)
    /\ pm_function_call (prefixMap st') = None
    /\ pm_tool_calls (prefixMap st') = None.
Proof.
  destruct st as [[t f tc d] ma n]. cbn [prefixMap pm_function_call pm_tool_calls].
  intros [(s & ->)|[(xs & ->)|(xs & ->)]] -> ->;
    unfold pcr_step, assign_ref;
    cbn [type value prefixMap message_annotations ids_drawn String.eqb Ascii.eqb
         Bool.eqb pm_text pm_get pm_set pm_push_data bind];
    destruct t, ma; cbn; eauto;
    match goal with
    | |- context [nonempty ?l] => destruct l; cbn; eauto
    end.
Qed.

Lemma pcr_run_session (generateId : nat -> string) (createdAt : Z)
      (parts : list StreamPart) :
  Forall session_part parts ->
  forall st,
    pm_function_call (prefixMap st) = None ->
    pm_tool_calls (prefixMap st) = None ->
    exists st' ups,
      pcr_run generateId createdAt st parts = Ok (st', ups)
      /\ pm_function_call (prefixMap st') = None
      /\ pm_tool_calls (prefixMap st') = None.
Proof.
  induction 1 as [|p parts Hp _ IH]; intros st Hf Ht.
  - exists st, []. now repeat split.
  - destruct (pcr_step_session generateId createdAt st p Hp Hf Ht)
      as (st1 & u & E1 & Hf1 & Ht1).
    destruct (IH st1 Hf1 Ht1) as (st2 & us & E2 & Hf2 & Ht2).
    exists st2, (u :: us). cbn [pcr_run]. rewrite E1. cbn [bind].
    rewrite E2. now repeat split.
Qed.

Lemma pending_items_session (d a : list json) :
  Forall session_part (map item_part (pending_items d a)).
Proof.
  unfold pending_items, session_part, item_part.
  destruct d, a; cbn [nonempty List.app map fst snd name dataStreamPart
                      messageAnnotationsStreamPart];
    repeat (apply Forall_cons; [right; solve [left; eauto | right; eauto]|]);
    apply Forall_nil.
Qed.

Lemma session_items_session (ops : list server_op) :
  forall d a, Forall session_part (map item_part (session_items ops d a)).
Proof.
  induction ops as [|op ops IH]; intros d a.
  - apply pending_items_session.
  - destruct op as [v|v|t]; cbn [session_items]; try apply IH.
    rewrite map_app. apply Forall_app. split; [apply pending_items_session|].
    cbn [map]. constructor; [|apply IH].
    left. exists t. reflexivity.
Qed.

Lemma data_of_values (parts : list StreamPart) :
  data_of parts = array_elements (data_values parts).
Proof.
  unfold data_of, array_elements, data_values, part_data_values.
  induction parts as [|p parts IH]; [reflexivity|].
  cbn [flat_map filter]. rewrite IH.
  destruct (String.eqb (type p) "data"); reflexivity.
Qed.

Lemma annotations_of_app (xs ys : list StreamPart) :
  annotations_of (xs ++ ys)%list = (annotations_of xs ++ annotations_of ys)%list.
Proof. unfold annotations_of. apply flat_map_app. Qed.

Lemma pending_items_annotations (d a : list json) :
  annotations_of (map item_part (pending_items d a)) = a.
Proof.
  unfold pending_items. destruct d, a; cbn; rewrite ?List.app_nil_r; reflexivity.
Qed.

Lemma session_items_annotations (ops : list server_op) :
  forall d a,
    annotations_of (map item_part (session_items ops d a))
    = (a ++ annotated_values ops)%list.
Proof.
  induction ops as [|op ops IH]; intros d a.
  - cbn [session_items annotated_values flat_map].
    rewrite List.app_nil_r. apply pending_items_annotations.
  - destruct op as [v|v|t]; cbn [session_items].
    + now rewrite IH.
    + rewrite IH, <- List.app_assoc. reflexivity.
    + change ((textStreamPart, JStr t) :: session_items ops [] [])
        with ([(textStreamPart, JStr t)] ++ session_items ops [] [])%list.
      rewrite !map_app, !annotations_of_app, IH, pending_items_annotations.
      reflexivity.
Qed.

(** X18.  a closed session reaches [parseComplexResponse] whole, however
    the transport cuts its bytes into chunks: the call returns; the data
    of the result are the appended values, each once and in append order;
    the text accumulator holds the concatenation of the units; the
    annotation channel holds the appended annotations in order; the result
    has at most one message; and the sink was called once per part on the
    wire. *)
Theorem session_reaches_reconstructor
        (generateId : nat -> string) (createdAt : Z)
        (ops : list server_op) (body wire : list string) :
  forallb op_wf ops = true ->
  server_session ops = Some (Ok body) ->
  String.concat "" wire = String.concat "" body ->
  exists st updates,
    parseComplexResponse generateId createdAt never_aborted wire
    = Ok (pcr_result st, updates)
    /\ snd (pcr_result st) = appended_values ops
    /\ text_content st = String.concat "" (unit_texts ops)
    /\ snapshot st = annotated_values ops
    /\ List.length (fst (pcr_result st)) <= 1
    /\ List.length updates = List.length body.
Proof.
  intros Hw Hs Hwire.
  rewrite server_session_lines in Hs. injection Hs as <-.
  pose proof (session_items_ok ops Hw [] [] eq_refl eq_refl) as Hok.
  pose proof (decode_session_items _ Hok) as Hd. rewrite <- Hwire in Hd.
  set (parts := map item_part (session_items ops [] [])) in *.
  destruct (pcr_run_session generateId createdAt parts
              (session_items_session ops [] []) pcr_init eq_refl eq_refl)
    as (st & ups & Hrun & Hf & Ht).
  destruct (pcr_run_channels _ _ _ _ _ _ Hrun) as (T & D & A).
  pose proof (pcr_run_updates _ _ _ _ _ _ Hrun) as L.
  destruct (session_items_facts ops [] []) as (F1 & F2 & F3).
  exists st, ups. unfold parseComplexResponse.
  rewrite (readDataStream_decodes_lines wire parts Hd), Hrun. cbn [bind].
  split; [reflexivity|].
  split; [cbn [pcr_result snd]; rewrite D, data_of_values; exact F1|].
  split; [rewrite T; exact F2|].
  split; [rewrite A; subst parts; now rewrite session_items_annotations|].
  split; [|subst parts; now rewrite L, !length_map].
  unfold pcr_result. cbn [fst]. rewrite Hf, Ht.
  destruct (pm_text (prefixMap st)); cbn; lia.
Qed.

Lemma session_reaches_reconstructor_witness :
  exists st updates,
    parseComplexResponse ex_generateId 0 never_aborted
      [dq "2:[1]" ++ String NEWLINE (dq "0:'H");
       dq "i'" ++ String NEWLINE (dq "2:[2,3]" ++ String NEWLINE "");
       dq "8:['A']" ++ String NEWLINE (dq "0:' there'" ++ String NEWLINE "");
       dq "2:[4]" ++ String NEWLINE ""]
    = Ok (pcr_result st, updates)
    /\ snd (pcr_result st) = [JNum 1; JNum 2; JNum 3; JNum 4]
    /\ text_content st = "Hi there"
    /\ snapshot st = [JStr "A"]
    /\ List.length (fst (pcr_result st)) <= 1
    /\ List.length updates = 6.
Proof.
  exact (session_reaches_reconstructor ex_generateId 0 ex_session
           [dq "2:[1]" ++ String NEWLINE "";
            dq "0:'Hi'" ++ String NEWLINE "";
            dq "2:[2,3]" ++ String NEWLINE "";
            dq "8:['A']" ++ String NEWLINE "";
            dq "0:' there'" ++ String NEWLINE "";
            dq "2:[4]" ++ String NEWLINE ""]
           [dq "2:[1]" ++ String NEWLINE (dq "0:'H");
            dq "i'" ++ String NEWLINE (dq "2:[2,3]" ++ String NEWLINE "");
            dq "8:['A']" ++ String NEWLINE (dq "0:' there'" ++ String NEWLINE "");
            dq "2:[4]" ++ String NEWLINE ""]
           eq_refl eq_refl eq_refl).
Defined.

(** ** Content chunks *)

Lemma chunkToText_content (st : extract_state) (content : string) :
  chunkToText st (content_chunk content) = Ok (trimStartOfStream st content).
Proof.
  unfold chunkToText, content_chunk.
  cbn [choices hd_error c_delta d_function_call d_tool_calls name_of given
       arguments_of c_finish_reason is_reason andb orb d_content c_text
       interpolate].
  rewrite !andb_false_r.
  destruct (String.eqb_spec content "") as [->|_]; reflexivity.
Qed.

Lemma streamable_started (contents : list string) :
  forall st, isStreamStart st = false ->
  streamable st (map content_chunk contents) = Ok (nonempty_texts contents).
Proof.
  induction contents as [|c rest IH]; intros st Hst; [reflexivity|].
  cbn [map streamable]. rewrite chunkToText_content.
  unfold trimStartOfStream. rewrite Hst. cbn [bind].
  rewrite (IH st Hst). cbn [bind nonempty_texts filter].
  destruct (String.eqb c ""); reflexivity.
Qed.

(** X19.  leading white space is removed once.  Of the content chunks of a
    response, those in front that are only white space yield nothing, the
    first other one loses its leading white space, and every later one is
    yielded as it is, unless it is empty. *)
Theorem content_is_trimmed_once (contents : list string) :
  streamable extract_init (map content_chunk contents)
  = Ok match drop_blank contents with
       | [] => []
       | c :: rest => trimStart c :: nonempty_texts rest
       end.
Proof.
  unfold extract_init. generalize false as fn.
  induction contents as [|c rest IH]; intros fn; [reflexivity|].
  cbn [map streamable drop_blank]. rewrite chunkToText_content.
  unfold trimStartOfStream. cbn [isStreamStart ex_isFunctionStreamingIn bind].
  destruct (String.eqb_spec (trimStart c) "") as [E|E].
  - rewrite IH. cbn [bind]. reflexivity.
  - rewrite streamable_started by reflexivity. cbn [bind]. reflexivity.
Qed.

(** ** The Anthropic event parser *)

Lemma startsWith_app (a b : string) : startsWith (a ++ b) a = true.
Proof.
  unfold startsWith.
  assert (H : strip_prefix a (a ++ b) = Some b).
  { induction a as [|c a IH]; [reflexivity|].
    cbn [String.append strip_prefix]. now rewrite Ascii.eqb_refl. }
  now rewrite H.
Qed.

Lemma slice_from_app (a b : string) : slice_from (String.length a) (a ++ b) = b.
Proof.
  induction a as [|c a IH]; [now destruct b|]. exact IH.
Qed.

Lemma parseAnthropicStream_grows (previous f : string) :
  f <> "" ->
  parseAnthropicStream previous (AnthropicCompletion (previous ++ f))
  = Ok (Some f, previous ++ f).
Proof.
  intros Hf. unfold parseAnthropicStream.
  rewrite startsWith_app, length_append, slice_from_app.
  assert (E : (String.length previous <? String.length previous + String.length f)%nat
              = true).
  { apply Nat.ltb_lt. destruct f; [contradiction|]. cbn [String.length]. lia. }
  rewrite E. now rewrite orb_true_r.
Qed.

(** X20.  from completions that grow, the parser extracts the growth.  If
    every event carries the whole completion so far and each adds a
    non-empty fragment, the messages enqueued are exactly the fragments,
    whatever [previous] held that the first completion extends.  A
    completion equal to the previous one is not recognised as growth: it is
    enqueued again, whole. *)
Theorem anthropic_deltas (fragments : list string) (sofar : string) :
  Forall (fun f => f <> "") fragments ->
  anthropic_units sofar (map AnthropicCompletion (cumulative sofar fragments))
  = Ok fragments
  /\ (sofar <> "" ->
      anthropic_units sofar [AnthropicCompletion sofar] = Ok [sofar]).
Proof.
  intros H. split.
  - revert sofar. induction H as [|f rest Hf _ IH]; intros sofar; [reflexivity|].
    cbn [cumulative map anthropic_units].
    rewrite (parseAnthropicStream_grows sofar f Hf). cbn [bind].
    rewrite IH. cbn [bind given interpolate].
    destruct (String.eqb_spec f "") as [->|_]; [contradiction|]. reflexivity.
  - intros Hs. cbn [anthropic_units]. unfold parseAnthropicStream.
    destruct (String.eqb_spec sofar "") as [->|_]; [contradiction|].
    rewrite Nat.ltb_irrefl. cbn [orb andb bind given interpolate].
    destruct (String.eqb_spec sofar "") as [->|_]; [contradiction|]. reflexivity.
Qed.

Lemma anthropic_deltas_witness :
  anthropic_units "" (map AnthropicCompletion ["Hel"; "Hello"; "Hello, world"])
  = Ok ["Hel"; "lo"; ", world"]
  /\ ("" <> "" -> anthropic_units "" [AnthropicCompletion ""] = Ok [""]).
Proof.
  apply (anthropic_deltas ["Hel"; "lo"; ", world"] "").
  repeat constructor; discriminate.
Defined.

(** ** The assistant response *)

Lemma call_item_ok (c : assistant_call) :
  call_ok c = true ->
  In (fst (call_item c)) streamParts /\ json_wf (snd (call_item c)) = true
  /\ parse (fst (call_item c)) (snd (call_item c)) = Ok (call_part c)
  /\ formatStreamPart (name (fst (call_item c))) (snd (call_item c))
     = Ok (item_line (call_item c)).
Proof.
  destruct c as [m|m]; cbn [call_ok call_item fst snd call_part]; intros H;
    apply andb_prop in H; destruct H as [Hwf Hs].
  - assert (Hin : In assistantMessageStreamPart streamParts) by (cbn; auto 10).
    split; [exact Hin|]. split; [exact Hwf|]. split.
    + now rewrite (parse_spec_shape _ _ Hin Hs).
    + now rewrite (formatStreamPart_table _ m Hin).
  - assert (Hin : In dataMessageStreamPart streamParts) by (cbn; auto 10).
    split; [exact Hin|]. split; [exact Hwf|]. split.
    + now rewrite (parse_spec_shape _ _ Hin Hs).
    + now rewrite (formatStreamPart_table _ m Hin).
Qed.

Lemma assistant_calls_lines (calls : list assistant_call) :
  mapM (fun c =>
          match c with
          | SendMessage message => formatStreamPart "assistant_message" message
          | SendDataMessage message => formatStreamPart "data_message" message
          end) calls
  = Ok (map item_line (map call_item calls)).
Proof.
  induction calls as [|c calls IH]; [reflexivity|].
  cbn [mapM map]. rewrite IH. destruct c; reflexivity.
Qed.

(** X21.  what an assistant response sends is what its client decodes,
    however the transport cuts the bytes into chunks: first the control
    data with the thread and message ids, then one part per message sent,
    in the order sent, and last, if the process threw, an error part with
    the error message.  The messages sent must have the shape the client
    validates. *)
Theorem assistant_response_decodes
        (threadId messageId : string) (calls : list assistant_call)
        (thrown : option string) (wire : list string) :
  forallb call_ok calls = true ->
  exists body,
    experimental_AssistantResponse threadId messageId calls thrown = Ok body
    /\ (String.concat "" wire = String.concat "" body ->
        readDataStream never_aborted wire
        = (({| type := "assistant_control_data";
               value := JObj [("threadId", JStr threadId);
                              ("messageId", JStr messageId)] |}
            :: map call_part calls
            ++ match thrown with
               | Some errorMessage =>
                   [{| type := "error"; value := JStr errorMessage |}]
               | None => []
               end)%list, Finished)).
Proof.
  intros Hcalls.
  set (control := (assistantControlDataStreamPart,
                   JObj [("threadId", JStr threadId); ("messageId", JStr messageId)])).
  set (failed := match thrown with
                 | Some errorMessage => [(errorStreamPart, JStr errorMessage)]
                 | None => []
                 end).
  set (items := (control :: map call_item calls ++ failed)%list).
  exists (map item_line items). split.
  - unfold experimental_AssistantResponse. rewrite assistant_calls_lines.
    subst items failed control. cbn [bind map]. rewrite map_app.
    destruct thrown; reflexivity.
  - intros Hwire.
    assert (Hok : Forall item_ok items).
    { subst items. constructor.
      - unfold item_ok, control. cbn [fst snd].
        split; [cbn; auto 10|]. split; reflexivity.
      - apply Forall_app. split.
        + clear -Hcalls. induction calls as [|c calls IH]; [constructor|].
          cbn [forallb] in Hcalls. apply andb_prop in Hcalls.
          destruct Hcalls as [Hc Hrest].
          cbn [map]. constructor; [|now apply IH].
          destruct (call_item_ok c Hc) as (H1 & H2 & H3 & _).
          unfold item_ok. split; [exact H1|]. split; [exact H2|].
          rewrite H3. now destruct c.
        + subst failed. destruct thrown; constructor; [|constructor].
          unfold item_ok. cbn [fst snd]. split; [cbn; auto 10|]. split; reflexivity. }
    pose proof (decode_session_items items Hok) as Hd. rewrite <- Hwire in Hd.
    rewrite (readDataStream_decodes_lines wire _ Hd).
    f_equal. subst items failed control. cbn [map]. rewrite map_app, map_map.
    f_equal. f_equal.
    + apply map_ext. now destruct a.
    + now destruct thrown.
Qed.

Lemma assistant_response_decodes_witness :
  exists body,
    experimental_AssistantResponse "t1" "m1" [SendMessage ex_assistant_message]
                                   (Some "boom") = Ok body
    /\ (String.concat ""
          [dq "5:{'threadId':'t1','messageId':'m1'}" ++ String NEWLINE (dq "4:{'id':'m1',");
           dq "'role':'assistant','content':[{'type':'text','text':{'value':'Hello'}}]}"
           ++ String NEWLINE (dq "3:'boom'" ++ String NEWLINE "")]
        = String.concat "" body ->
        readDataStream never_aborted
          [dq "5:{'threadId':'t1','messageId':'m1'}" ++ String NEWLINE (dq "4:{'id':'m1',");
           dq "'role':'assistant','content':[{'type':'text','text':{'value':'Hello'}}]}"
           ++ String NEWLINE (dq "3:'boom'" ++ String NEWLINE "")]
        = ([{| type := "assistant_control_data";
               value := JObj [("threadId", JStr "t1"); ("messageId", JStr "m1")] |};
            {| type := "assistant_message"; value := ex_assistant_message |};
            {| type := "error"; value := JStr "boom" |}], Finished)).
Proof.
  exact (assistant_response_decodes "t1" "m1" [SendMessage ex_assistant_message]
           (Some "boom")
           [dq "5:{'threadId':'t1','messageId':'m1'}" ++ String NEWLINE (dq "4:{'id':'m1',");
            dq "'role':'assistant','content':[{'type':'text','text':{'value':'Hello'}}]}"
            ++ String NEWLINE (dq "3:'boom'" ++ String NEWLINE "")]
           eq_refl).
Defined.

(** ** Streamed tool calls *)














